(** * LaunchList waitlist: signup writer, analytics aggregator, admin login guard

    A shallow embedding of the server-side TypeScript of the waitlist
    application (the server actions [signup] and [submitWaitlist], the count
    route [GET], the analytics queries [getDashboardStats] and
    [getSignupsOverTime], and the rate-limited [login]), followed by the
    properties of the written specification that were checked against it.

    Conventions.
    - A JavaScript string is a [string] whose characters are read as code
      units in the Latin-1 range (0..255).
    - A [Date] is its epoch time in milliseconds, a [Z].
    - An [async] function that talks to the database is a function from the
      database state to a result and a new state; a rejected promise is the
      [inl] summand carrying the error.
    - The arithmetic of the rate limiter is that of IEEE 754 doubles, the
      primitive floats of Rocq. *)

From Stdlib Require Import String Ascii List ZArith Lia Bool Arith PeanoNat.
From Stdlib Require Import Sorted Permutation.
From Stdlib Require Floats Uint63.
Import ListNotations.
Local Open Scope string_scope.
Local Open Scope list_scope.
Local Open Scope nat_scope.

(* ===================================================================== *)
(** ** JavaScript strings *)
(* ===================================================================== *)

Module JsString.

(** [\s] of a regular expression and the characters removed by
    [String.prototype.trim], restricted to code units below 256:
    TAB, LF, VT, FF, CR, SPACE and NBSP. *)
Definition isWhiteSpace (c : ascii) : bool :=
  let n := nat_of_ascii c in
  ((9 <=? n) && (n <=? 13)) || (n =? 32) || (n =? 160).

(** Lower-case mapping of one Latin-1 code unit: A-Z, and the accented
    capitals U+00C0..U+00DE except the multiplication sign U+00D7. *)
Definition toLowerChar (c : ascii) : ascii :=
  let n := nat_of_ascii c in
  if ((65 <=? n) && (n <=? 90))
     || ((192 <=? n) && (n <=? 214))
     || ((216 <=? n) && (n <=? 222))
  then ascii_of_nat (n + 32) else c.

Fixpoint toLowerCase (s : string) : string :=
  match s with
  | EmptyString => EmptyString
  | String c r => String (toLowerChar c) (toLowerCase r)
  end.

Fixpoint trimStart (s : string) : string :=
  match s with
  | EmptyString => EmptyString
  | String c r => if isWhiteSpace c then trimStart r else s
  end.

Fixpoint trimEnd (s : string) : string :=
  match s with
  | EmptyString => EmptyString
  | String c r =>
      match trimEnd r with
      | EmptyString => if isWhiteSpace c then EmptyString else String c EmptyString
      | r' => String c r'
      end
  end.

Definition trim (s : string) : string := trimEnd (trimStart s).

Fixpoint forallb (p : ascii -> bool) (s : string) : bool :=
  match s with
  | EmptyString => true
  | String c r => p c && forallb p r
  end.

(** JavaScript truthiness of a string: only the empty string is falsy. *)
Definition truthy (s : string) : bool :=
  match s with EmptyString => false | _ => true end.

End JsString.

(* ===================================================================== *)
(** ** Regular expressions, as far as the email pattern needs them *)
(* ===================================================================== *)

Module Regex.

Inductive regex : Type :=
| Void                                  (* matches nothing *)
| Eps                                   (* the empty string *)
| Chr (c : ascii)                       (* a literal character *)
| NegSet (excluded : ascii -> bool)     (* [^...] *)
| Cat (r1 r2 : regex)
| Alt (r1 r2 : regex)
| Star (r : regex).

(** [r+] *)
Definition Plus (r : regex) : regex := Cat r (Star r).

Fixpoint nullable (r : regex) : bool :=
  match r with
  | Void => false
  | Eps => true
  | Chr _ => false
  | NegSet _ => false
  | Cat r1 r2 => nullable r1 && nullable r2
  | Alt r1 r2 => nullable r1 || nullable r2
  | Star _ => true
  end.

Fixpoint deriv (a : ascii) (r : regex) : regex :=
  match r with
  | Void => Void
  | Eps => Void
  | Chr c => if Ascii.eqb c a then Eps else Void
  | NegSet ex => if ex a then Void else Eps
  | Cat r1 r2 =>
      Alt (Cat (deriv a r1) r2) (if nullable r1 then deriv a r2 else Void)
  | Alt r1 r2 => Alt (deriv a r1) (deriv a r2)
  | Star r1 => Cat (deriv a r1) (Star r1)
  end.

(** [/^r$/.test(s)]: the whole of [s] is in the language of [r]. *)
Fixpoint test (r : regex) (s : string) : bool :=
  match s with
  | EmptyString => nullable r
  | String a s' => test (deriv a r) s'
  end.

(** [dead r]: a syntactic reason for [r] to match nothing. *)
Fixpoint dead (r : regex) : bool :=
  match r with
  | Void => true
  | Cat r1 r2 => dead r1 || dead r2
  | Alt r1 r2 => dead r1 && dead r2
  | _ => false
  end.

(** [avoids a r]: no character position of [r] accepts [a]. *)
Fixpoint avoids (a : ascii) (r : regex) : bool :=
  match r with
  | Void | Eps => true
  | Chr c => negb (Ascii.eqb c a)
  | NegSet ex => ex a
  | Cat r1 r2 | Alt r1 r2 => avoids a r1 && avoids a r2
  | Star r1 => avoids a r1
  end.

End Regex.

(** [/^[^\s@]+@[^\s@]+\.[^\s@]+$/] of [signup]. *)
Definition notSpaceNorAt : Regex.regex :=
  Regex.NegSet (fun c => JsString.isWhiteSpace c || Ascii.eqb c "@"%char).

Definition emailRegex : Regex.regex :=
  Regex.Cat (Regex.Plus notSpaceNorAt)
    (Regex.Cat (Regex.Chr "@"%char)
       (Regex.Cat (Regex.Plus notSpaceNorAt)
          (Regex.Cat (Regex.Chr "."%char) (Regex.Plus notSpaceNorAt)))).

(* ===================================================================== *)
(** ** Form data *)
(* ===================================================================== *)

(** A [FormData] entry is a string or a [File]; [FormData.get] returns the
    first value stored under a name, or [null]. *)
Inductive FormDataEntryValue : Type :=
| FormString (s : string)
| FormFile.

Definition FormData : Type := list (string * FormDataEntryValue).

Fixpoint FormData_get (name : string) (fd : FormData) : option FormDataEntryValue :=
  match fd with
  | [] => None
  | (k, v) :: rest => if String.eqb k name then Some v else FormData_get name rest
  end.

(** [v || null] for a value read from a form: [null] and the empty string
    are falsy, everything else (a [File] included) is kept. *)
Definition orNull (v : option FormDataEntryValue) : option FormDataEntryValue :=
  match v with
  | Some (FormString s) => if JsString.truthy s then v else None
  | Some FormFile => v
  | None => None
  end.

(* ===================================================================== *)
(** ** The persistence layer: Prisma client over the [Waitlist] table *)
(* ===================================================================== *)

(** The table of the schema
<<
  model Waitlist {
    id        String   @id @default(cuid())
    email     String   @unique
    source    String?
    referrer  String?
    createdAt DateTime @default(now())
  }
>>
    as a list of rows in insertion order.  An [id] is the row's insertion
    index (a cuid is only required to be fresh).  [fault] is the condition of
    the connection: [Some e] makes every query reject with [e].  The
    database is PostgreSQL, which refuses the character U+0000 in a text
    value: a query that carries one as a parameter is rejected by the server
    with an error that has no Prisma code. *)
Module Prisma.

Inductive PrismaError : Type :=
| PrismaClientKnownRequestError (code : string)
| PrismaClientUnknownRequestError
| PrismaClientValidationError
| PrismaClientInitializationError.

Record Waitlist : Type := mkWaitlist {
  id : nat;
  email : string;
  source : option string;
  referrer : option string;
  createdAt : Z
}.

Record Db : Type := mkDb {
  rows : list Waitlist;
  fault : option PrismaError
}.

(** The [data] argument of [create], fields as the caller passes them. *)
Record CreateInput : Type := mkCreateInput {
  data_email : string;
  data_source : option FormDataEntryValue;
  data_referrer : option FormDataEntryValue
}.

(** A [String?] column accepts [null] or a string; any other value is
    refused by the client before a query is sent. *)
Definition nullableString (v : option FormDataEntryValue) : option (option string) :=
  match v with
  | None => Some None
  | Some (FormString s) => Some (Some s)
  | Some FormFile => None
  end.

Definition emailTaken (e : string) (db : Db) : bool :=
  existsb (fun r => String.eqb (email r) e) (rows db).

(** A text that the server takes as a parameter: no U+0000 in it. *)
Definition noNul (s : string) : bool :=
  JsString.forallb (fun c => negb (Ascii.eqb c Ascii.zero)) s.

Definition storable (v : option string) : bool :=
  match v with
  | Some s => noNul s
  | None => true
  end.

(** [prisma.waitlist.create({ data })] at time [now]: one atomic insert,
    refused with code P2002 when the unique index on [email] already holds
    the value.  The client validates the arguments, the connection carries
    the statement, and the server reads its parameters before it runs it. *)
Definition create (now : Z) (d : CreateInput) (db : Db)
  : (PrismaError + Waitlist) * Db :=
  match nullableString (data_source d), nullableString (data_referrer d) with
  | Some src, Some ref =>
      match fault db with
      | Some e => (inl e, db)
      | None =>
          if negb (noNul (data_email d) && storable src && storable ref)
          then (inl PrismaClientUnknownRequestError, db)
          else if emailTaken (data_email d) db
          then (inl (PrismaClientKnownRequestError "P2002"), db)
          else
            let row := mkWaitlist (length (rows db)) (data_email d) src ref now in
            (inr row, mkDb (rows db ++ [row]) (fault db))
      end
  | _, _ => (inl PrismaClientValidationError, db)
  end.

(** [prisma.waitlist.findUnique({ where: { email } })] *)
Definition findUnique (e : string) (db : Db) : PrismaError + option Waitlist :=
  match fault db with
  | Some err => inl err
  | None =>
      if negb (noNul e) then inl PrismaClientUnknownRequestError
      else inr (find (fun r => String.eqb (email r) e) (rows db))
  end.

(** [prisma.waitlist.count()] *)
Definition count (db : Db) : PrismaError + nat :=
  match fault db with
  | Some err => inl err
  | None => inr (length (rows db))
  end.

(** [prisma.waitlist.count({ where: { createdAt: { gte } } })] *)
Definition countSince (gte : Z) (db : Db) : PrismaError + nat :=
  match fault db with
  | Some err => inl err
  | None => inr (length (filter (fun r => (gte <=? createdAt r)%Z) (rows db)))
  end.

(** Number of rows stored under an email. *)
Definition recordsFor (e : string) (db : Db) : nat :=
  length (filter (fun r => String.eqb (email r) e) (rows db)).

End Prisma.

Import Prisma.

(* ===================================================================== *)
(** ** vanilla-claude/app/actions/signup.ts *)
(* ===================================================================== *)

Module Vanilla.

Inductive SignupResult : Type :=
| Success (message : string)          (* { success: true; message } *)
| Failure (error : string).           (* { success: false; error } *)

Definition emailRequired : SignupResult := Failure "Email is required".
Definition invalidEmail : SignupResult :=
  Failure "Please enter a valid email address".
Definition onTheList : SignupResult := Success "You're on the list!".
Definition duplicate : SignupResult := Failure "You're already on the list!".
Definition transient : SignupResult :=
  Failure "Something went wrong. Please try again.".

(** The test of the [catch] block:
    [error && typeof error === "object" && "code" in error
     && error.code === "P2002"]. *)
Definition isUniqueViolation (e : PrismaError) : bool :=
  match e with
  | PrismaClientKnownRequestError code => String.eqb code "P2002"
  | _ => false
  end.

Definition signup (now : Z) (formData : FormData) (db : Db)
  : SignupResult * Db :=
  let email := FormData_get "email" formData in
  let source := FormData_get "source" formData in
  let referrer := FormData_get "referrer" formData in
  match email with
  | Some (FormString email) =>
      if negb (JsString.truthy email) then (emailRequired, db)
      else if negb (Regex.test emailRegex email) then (invalidEmail, db)
      else
        let sanitizedEmail := JsString.trim (JsString.toLowerCase email) in
        match create now
                (mkCreateInput sanitizedEmail (orNull source) (orNull referrer))
                db with
        | (inr _, db') => (onTheList, db')
        | (inl error, db') =>
            if isUniqueViolation error then (duplicate, db')
            else (transient, db')
        end
  | _ => (emailRequired, db)
  end.

(** [getWaitlistCount] *)
Definition getWaitlistCount (db : Db) : nat :=
  match count db with
  | inr n => n
  | inl _ => 0
  end.


End Vanilla.

(* ===================================================================== *)
(** ** src/app/api/count/route.ts *)
(* ===================================================================== *)

Module CountRoute.

(** [NextResponse.json({ count })] *)
Record Response : Type := mkResponse { status : nat; body_count : nat }.

Definition json (n : nat) : Response := mkResponse 200 n.

Definition GET (db : Db) : Response :=
  match count db with
  | inr n => json n
  | inl _ => json 0
  end.

End CountRoute.

(* ===================================================================== *)
(** ** The zod email schema *)
(* ===================================================================== *)

(** [z.string().email(message)] comes from the zod package.  Its two checks
    are kept, and what the package decides is a field of [Zod]: which strings
    have the email format, and the text of the issue raised for a value that
    is not a string. *)
Record Zod : Type := mkZod {
  isEmail : string -> bool;
  invalidTypeMessage : option FormDataEntryValue -> string
}.

Inductive SafeParseResult : Type :=
| ParseSuccess (data : string)            (* { success: true, data } *)
| ParseError (firstIssueMessage : string). (* { success: false, error } *)

Definition safeParse (z : Zod) (message : string)
  (input : option FormDataEntryValue) : SafeParseResult :=
  match input with
  | Some (FormString s) =>
      if isEmail z s then ParseSuccess s else ParseError message
  | _ => ParseError (invalidTypeMessage z input)
  end.

(** [{ success?: boolean; message?: string; error?: string }] *)
Record SignupState : Type := mkSignupState {
  success : option bool;
  message : option string;
  error : option string
}.

Definition stateError (e : string) : SignupState := mkSignupState None None (Some e).
Definition stateSuccess (m : string) : SignupState :=
  mkSignupState (Some true) (Some m) None.

(* ===================================================================== *)
(** ** skills-claude/launchlist/src/app/actions.ts *)
(* ===================================================================== *)

Module Launchlist.

Definition emailSchema (z : Zod) : option FormDataEntryValue -> SafeParseResult :=
  safeParse z "Please enter a valid email address".

Definition joined : SignupState :=
  stateSuccess "You're on the list! We'll be in touch soon.".
Definition duplicate : SignupState := stateError "You're already on the waitlist!".
Definition transient : SignupState :=
  stateError "Something went wrong. Please try again.".

(** [revalidatePath("/")] only invalidates a render cache and is left out. *)
Definition submitWaitlist (z : Zod) (now : Z)
  (prevState : option SignupState) (formData : FormData) (db : Db)
  : SignupState * Db :=
  let email := FormData_get "email" formData in
  let source := FormData_get "utm_source" formData in
  let referrer := FormData_get "referrer" formData in
  match emailSchema z email with
  | ParseError msg => (stateError msg, db)
  | ParseSuccess data =>
      match create now
              (mkCreateInput (JsString.trim (JsString.toLowerCase data))
                 (orNull source) (orNull referrer))
              db with
      | (inr _, db') => (joined, db')
      | (inl (PrismaClientKnownRequestError code), db') =>
          if String.eqb code "P2002" then (duplicate, db') else (transient, db')
      | (inl _, db') => (transient, db')
      end
  end.

End Launchlist.

(* ===================================================================== *)
(** ** The server action of the App Router skill (app/actions.ts) *)
(* ===================================================================== *)

Module AppRouterSkill.

Definition emailSchema (z : Zod) : option FormDataEntryValue -> SafeParseResult :=
  safeParse z "Invalid email address".

Definition already : SignupState := stateError "You're already on the waitlist!".
Definition joined : SignupState := stateSuccess "Successfully joined!".
Definition wentWrong : SignupState :=
  stateError "Something went wrong. Please try again.".

Definition submitWaitlist (z : Zod) (now : Z)
  (prevState : option SignupState) (formData : FormData) (db : Db)
  : SignupState * Db :=
  let email := FormData_get "email" formData in
  match emailSchema z email with
  | ParseError msg => (stateError msg, db)
  | ParseSuccess data =>
      (* Check for duplicate *)
      match findUnique data db with
      | inl _ => (wentWrong, db)
      | inr (Some _) => (already, db)
      | inr None =>
          (* Create signup *)
          match create now
                  (mkCreateInput data
                     (orNull (FormData_get "utm_source" formData)) None)
                  db with
          | (inr _, db') => (joined, db')
          | (inl _, db') => (wentWrong, db')
          end
      end
  end.

(** The same action as a task that is suspended at each [await]: the
    database serves one query at a time, and between the two queries of
    one task it may serve queries of others. *)
Inductive Task : Type :=
| Started (formData : FormData)
| Creating (data : string) (formData : FormData)
| Returned (state : SignupState).

Definition step (z : Zod) (now : Z) (t : Task) (db : Db) : Task * Db :=
  match t with
  | Started formData =>
      match emailSchema z (FormData_get "email" formData) with
      | ParseError msg => (Returned (stateError msg), db)
      | ParseSuccess data =>
          match findUnique data db with
          | inl _ => (Returned wentWrong, db)
          | inr (Some _) => (Returned already, db)
          | inr None => (Creating data formData, db)
          end
      end
  | Creating data formData =>
      match create now
              (mkCreateInput data
                 (orNull (FormData_get "utm_source" formData)) None)
              db with
      | (inr _, db') => (Returned joined, db')
      | (inl _, db') => (Returned wentWrong, db')
      end
  | Returned s => (Returned s, db)
  end.

(** Resume task number [i]. *)
Fixpoint stepAt (z : Zod) (now : Z) (i : nat) (ts : list Task) (db : Db)
  : list Task * Db :=
  match ts, i with
  | [], _ => ([], db)
  | t :: rest, O =>
      let (t', db') := step z now t db in (t' :: rest, db')
  | t :: rest, S j =>
      let (rest', db') := stepAt z now j rest db in (t :: rest', db')
  end.

(** A schedule names, for each query served, the task it belongs to and
    the time at which it is served. *)
Fixpoint runSchedule (z : Zod) (sched : list (nat * Z)) (ts : list Task)
  (db : Db) : list Task * Db :=
  match sched with
  | [] => (ts, db)
  | (i, now) :: rest =>
      let (ts', db') := stepAt z now i ts db in
      runSchedule z rest ts' db'
  end.

End AppRouterSkill.

(* ===================================================================== *)
(** ** lib/analytics.ts of the admin dashboard skill *)
(* ===================================================================== *)

Module Analytics.

Definition msPerDay : Z := 24 * 60 * 60 * 1000.

(** [orderBy]: a stable insertion sort for the order [leb]. *)
Section OrderBy.
Context {A : Type} (leb : A -> A -> bool).

Fixpoint insertOrdered (x : A) (l : list A) : list A :=
  match l with
  | [] => [x]
  | y :: t => if leb x y then x :: l else y :: insertOrdered x t
  end.

Fixpoint orderBy (l : list A) : list A :=
  match l with
  | [] => []
  | x :: t => insertOrdered x (orderBy t)
  end.
End OrderBy.

(** Counting into a JavaScript object used as a map,
    [acc[k] = (acc[k] || 0) + 1]: an existing key keeps its place, a new
    key goes last ([Object.entries] lists string keys in insertion
    order). *)
Section Tally.
Context {K : Type} (eqb : K -> K -> bool).

Fixpoint bump (k : K) (acc : list (K * nat)) : list (K * nat) :=
  match acc with
  | [] => [(k, 1)]
  | (k', n) :: t =>
      if eqb k' k then (k', S n) :: t else (k', n) :: bump k t
  end.

Definition tally (ks : list K) : list (K * nat) :=
  fold_left (fun acc k => bump k acc) ks [].
End Tally.

(** [createdAt.toISOString().split('T')[0]]: the UTC calendar date, named
    here by its day number since the epoch (the text YYYY-MM-DD is a
    one-to-one, order-preserving rendering of that number). *)
Definition isoDate (t : Z) : Z := (t / msPerDay)%Z.

(** [findMany({ where: { createdAt: { gte } }, select: { createdAt: true },
    orderBy: { createdAt: 'asc' } })] *)
Definition findManySince (gte : Z) (db : Db) : PrismaError + list Z :=
  match fault db with
  | Some e => inl e
  | None =>
      inr (map createdAt
             (orderBy (fun a b => (createdAt a <=? createdAt b)%Z)
                (filter (fun r => (gte <=? createdAt r)%Z) (rows db))))
  end.

Record TimelinePoint : Type := mkPoint { tp_date : Z; tp_count : nat }.

Definition getSignupsOverTime (now : Z) (days : Z) (db : Db)
  : PrismaError + list TimelinePoint :=
  match findManySince (now - days * msPerDay) db with
  | inl e => inl e
  | inr signups =>
      (* Group by date *)
      let grouped := tally Z.eqb (map isoDate signups) in
      inr (map (fun '(date, count) => mkPoint date count) grouped)
  end.

Record SourceGroup : Type := mkGroup { sg_source : option string; sg_count : nat }.

Definition sourceEqb (a b : option string) : bool :=
  match a, b with
  | None, None => true
  | Some x, Some y => String.eqb x y
  | _, _ => false
  end.

(** [groupBy({ by: ['source'], _count: { id: true },
    orderBy: { _count: { id: 'desc' } }, take })].  Groups of equal size
    come in the order in which their source first occurs. *)
Definition groupBySource (take : nat) (db : Db) : PrismaError + list SourceGroup :=
  match fault db with
  | Some e => inl e
  | None =>
      let groups :=
        map (fun '(s, n) => mkGroup s n)
          (tally sourceEqb (map Prisma.source (rows db))) in
      inr (firstn take
             (orderBy (fun a b => sg_count b <=? sg_count a) groups))
  end.

Record DashboardStats : Type := mkStats {
  total : nat;
  today : nat;
  thisWeek : nat;
  sources : list SourceGroup;
  timeline : list TimelinePoint
}.

(** [new Date(new Date().setHours(0, 0, 0, 0))] where local time is UTC
    plus [tz] milliseconds. *)
Definition startOfToday (tz now : Z) : Z :=
  ((now + tz) / msPerDay * msPerDay - tz)%Z.

(** [Promise.all] rejects as soon as one of the queries rejects. *)
Definition getDashboardStats (tz now : Z) (db : Db)
  : PrismaError + DashboardStats :=
  match Prisma.count db with
  | inl e => inl e
  | inr total =>
  match countSince (startOfToday tz now) db with
  | inl e => inl e
  | inr today =>
  match countSince (now - 7 * 24 * 60 * 60 * 1000) db with
  | inl e => inl e
  | inr thisWeek =>
  match groupBySource 10 db with
  | inl e => inl e
  | inr sources =>
  match getSignupsOverTime now 30 db with
  | inl e => inl e
  | inr timeline => inr (mkStats total today thisWeek sources timeline)
  end end end end end.

Record ReferralDatum : Type := mkReferral { rd_source : string; rd_count : nat }.

(** [s.source || 'Direct'] *)
Definition sourceLabel (s : option string) : string :=
  match s with
  | Some x => if JsString.truthy x then x else "Direct"
  | None => "Direct"
  end.

(** [stats.sources.map(s => ({ source: s.source || 'Direct',
    count: s._count.id }))] of the dashboard page. *)
Definition referralData (stats : DashboardStats) : list ReferralDatum :=
  map (fun s => mkReferral (sourceLabel (sg_source s)) (sg_count s))
    (sources stats).

Definition sumCounts (l : list ReferralDatum) : nat :=
  fold_right (fun d acc => rd_count d + acc) 0 l.

End Analytics.

(* ===================================================================== *)
(** ** lib/rate-limit.ts and app/actions/auth.ts of the admin dashboard skill *)
(* ===================================================================== *)

Module AdminGuard.

(** The part of a [Ratelimit] object that [login] uses, [limit(identifier)],
    with the state that the limiter keeps made explicit. *)
Record Ratelimit : Type := mkRatelimit {
  LimiterState : Type;
  limit : string -> Z -> LimiterState -> bool * LimiterState
}.

(** *** [Ratelimit.slidingWindow] of the @upstash/ratelimit package

    The package is a dependency of the application.  Its sliding window
    divides time into fixed windows of [windowSize] milliseconds and keeps
    in Redis one counter per identifier and window.  A call reads the
    counter of the current window and that of the previous one, weighs the
    previous one by the part of the current window that is still to come,
    and refuses when the two together reach [tokens]; otherwise it
    increments the counter of the current window.  The arithmetic is that of
    the Lua script the package sends to Redis, in double precision.  Redis
    is taken to answer every call. *)

(** The Redis key [identifier:window]. *)
Definition Key : Type := (string * Z)%type.

Definition keyEqb (a b : Key) : bool :=
  String.eqb (fst a) (fst b) && (snd a =? snd b)%Z.

Definition Counters : Type := list (Key * nat).

(** [redis.call("GET", key)], an absent key read as 0. *)
Fixpoint GET (key : Key) (c : Counters) : nat :=
  match c with
  | [] => 0
  | (k, n) :: rest => if keyEqb k key then n else GET key rest
  end.

(** [redis.call("INCR", key)].  The key expires two windows and a second
    after it was set, which is after the last call that reads it. *)
Fixpoint INCR (key : Key) (c : Counters) : Counters :=
  match c with
  | [] => [(key, 1)]
  | (k, n) :: rest =>
      if keyEqb k key then (k, S n) :: rest else (k, n) :: INCR key rest
  end.

(** An integer below 2^53 as a double. *)
Definition toDouble (z : Z) : PrimFloat.float :=
  PrimFloat.of_uint63 (Uint63.of_Z z).

(** [math.floor] of a double that is finite and not negative, as the
    weighted count always is. *)
Definition floor (x : PrimFloat.float) : nat :=
  match FloatOps.Prim2SF x with
  | SpecFloat.S754_finite false m e => Z.to_nat (Z.shiftl (Zpos m) e)
  | _ => 0
  end.

(** [math.floor((1 - (now % window) / window) * requestsInPreviousWindow)] *)
Definition weighted (now windowSize : Z) (requestsInPreviousWindow : nat) : nat :=
  let percentageInCurrent :=
    PrimFloat.div (toDouble (now mod windowSize)) (toDouble windowSize) in
  floor (PrimFloat.mul (PrimFloat.sub PrimFloat.one percentageInCurrent)
           (toDouble (Z.of_nat requestsInPreviousWindow))).
Arguments weighted : simpl never.

(** The script of the sliding window: the remaining tokens, -1 for a call
    that is refused. *)
Definition script (tokens : nat) (now windowSize : Z)
  (currentKey previousKey : Key) (c : Counters) : Z * Counters :=
  let requestsInCurrentWindow := GET currentKey c in
  let requestsInPreviousWindow := weighted now windowSize (GET previousKey c) in
  if tokens <=? requestsInPreviousWindow + requestsInCurrentWindow
  then ((-1)%Z, c)
  else
    let c' := INCR currentKey c in
    ((Z.of_nat tokens
      - Z.of_nat (GET currentKey c' + requestsInPreviousWindow))%Z, c').

(** The ephemeral cache of the package, a [Map] in the memory of the server
    process: the identifiers that were refused, each with the end of the
    window in which it was refused. *)
Definition Cache : Type := list (string * Z).

Fixpoint cacheGet (identifier : string) (cache : Cache) : option Z :=
  match cache with
  | [] => None
  | (k, reset) :: rest =>
      if String.eqb k identifier then Some reset else cacheGet identifier rest
  end.

Definition cacheDelete (identifier : string) (cache : Cache) : Cache :=
  filter (fun e => negb (String.eqb (fst e) identifier)) cache.

Definition blockUntil (identifier : string) (reset : Z) (cache : Cache) : Cache :=
  (identifier, reset) :: cacheDelete identifier cache.

Definition isBlocked (identifier : string) (now : Z) (cache : Cache)
  : bool * Cache :=
  match cacheGet identifier cache with
  | None => (false, cache)
  | Some reset =>
      if (reset <? now)%Z then (false, cacheDelete identifier cache)
      else (true, cache)
  end.

Record SlidingWindow : Type := mkSlidingWindow {
  counters : Counters;
  blockedUntil : Cache
}.

(** [limit(identifier)] at time [now].  [ephemeralCache] says whether the
    calls are served by one process that keeps the cache (the package
    creates it when the configuration does not mention it), or by processes
    that each start without one. *)
Definition slidingWindow (ephemeralCache : bool) (tokens : nat) (windowSize : Z)
  (identifier : string) (now : Z) (st : SlidingWindow) : bool * SlidingWindow :=
  let currentWindow := (now / windowSize)%Z in
  let currentKey := (identifier, currentWindow) in
  let previousKey := (identifier, (currentWindow - 1)%Z) in
  let (blocked, cache) :=
    if ephemeralCache then isBlocked identifier now (blockedUntil st)
    else (false, blockedUntil st) in
  if blocked then (false, mkSlidingWindow (counters st) cache)
  else
    let (remainingTokens, redis) :=
      script tokens now windowSize currentKey previousKey (counters st) in
    let success := (0 <=? remainingTokens)%Z in
    let reset := ((currentWindow + 1) * windowSize)%Z in
    (success,
     mkSlidingWindow redis
       (if ephemeralCache && negb success
        then blockUntil identifier reset cache else cache)).

(** [Ratelimit.slidingWindow(5, '15 m')] *)
Definition windowMs : Z := 15 * 60 * 1000.
Definition tokens : nat := 5.

(** The window in which an instant lies. *)
Definition windowOf (now : Z) : Z := (now / windowMs)%Z.

(** [export const loginLimiter = new Ratelimit({ redis, limiter:
    Ratelimit.slidingWindow(5, '15 m'), analytics: true })] *)
Definition loginLimiter (ephemeralCache : bool) : Ratelimit :=
  mkRatelimit SlidingWindow (slidingWindow ephemeralCache tokens windowMs).

(** Redis without a counter, and an empty cache. *)
Definition initial : SlidingWindow := mkSlidingWindow [] [].

(** [process.env] *)
Record Env : Type := mkEnv {
  ADMIN_USERNAME : option string;
  ADMIN_PASSWORD : option string
}.

(** [value === process.env.NAME] for a value read from the form. *)
Definition strictEq (v : option FormDataEntryValue) (e : option string) : bool :=
  match v, e with
  | Some (FormString s), Some x => String.eqb s x
  | _, _ => false
  end.

Definition Headers : Type := list (string * string).

Fixpoint Headers_get (name : string) (h : Headers) : option string :=
  match h with
  | [] => None
  | (k, v) :: rest => if String.eqb k name then Some v else Headers_get name rest
  end.

(** [headersList.get('x-forwarded-for') || 'unknown'] *)
Definition clientIp (h : Headers) : string :=
  match Headers_get "x-forwarded-for" h with
  | Some v => if JsString.truthy v then v else "unknown"
  | None => "unknown"
  end.

Record SessionData : Type := mkSession {
  isLoggedIn : bool;
  username : option FormDataEntryValue
}.

(** What [login] does after the rate limit: it returns the error, or it
    goes on to the authentication, which the file leaves open
    ("Continue with authentication..."). *)
Inductive LoginResult (A : Type) : Type :=
| LoginError (error : string)         (* return { error } *)
| Authentication (outcome : A).       (* the rest of the function *)
Arguments LoginError {A} _.
Arguments Authentication {A} _.

Definition rateLimited {A : Type} : LoginResult A :=
  LoginError "Too many attempts. Try again in 15 minutes.".

(** [login(formData)] with the rate limit in front, for a limiter [L] and for
    whatever [authenticate] the function continues with. *)
Definition loginWith (L : Ratelimit) {A : Type} (authenticate : FormData -> A)
  (now : Z) (headersList : Headers) (formData : FormData) (st : LimiterState L)
  : LoginResult A * LimiterState L :=
  let ip := clientIp headersList in
  let (success, st') := limit L ip now st in
  if negb success then (rateLimited, st')
  else (Authentication (authenticate formData), st').

(** [login], which uses [loginLimiter]. *)
Definition login (ephemeralCache : bool) {A : Type} (authenticate : FormData -> A)
  (now : Z) (headersList : Headers) (formData : FormData) (st : SlidingWindow)
  : LoginResult A * SlidingWindow :=
  loginWith (loginLimiter ephemeralCache) authenticate now headersList formData st.

(** One request: when it arrives, its headers and its form. *)
Record Request : Type := mkRequest {
  at_ : Z;
  req_headers : Headers;
  req_form : FormData
}.

(** Serve a history of requests in order, keeping each result. *)
Fixpoint serve (ephemeralCache : bool) {A : Type} (authenticate : FormData -> A)
  (reqs : list Request) (st : SlidingWindow)
  : list (Request * LoginResult A) * SlidingWindow :=
  match reqs with
  | [] => ([], st)
  | r :: rest =>
      let (res, st1) :=
        login ephemeralCache authenticate (at_ r) (req_headers r) (req_form r) st in
      let (out, st2) := serve ephemeralCache authenticate rest st1 in
      ((r, res) :: out, st2)
  end.

(** The Redis key that a request counts under. *)
Definition keyOf (r : Request) : Key :=
  (clientIp (req_headers r), windowOf (at_ r)).

(** The login calls of a served history that the limiter let through, under
    the key [key]. *)
Definition attempts {A : Type} (key : Key) (out : list (Request * LoginResult A))
  : nat :=
  length
    (filter
       (fun p => keyEqb (keyOf (fst p)) key
                 && match snd p with Authentication _ => true | _ => false end)
       out).

(** Among them, those whose authentication failed. *)
Definition failures {A : Type} (failed : A -> bool) (key : Key)
  (out : list (Request * LoginResult A)) : nat :=
  length
    (filter
       (fun p => keyEqb (keyOf (fst p)) key
                 && match snd p with Authentication a => failed a | _ => false end)
       out).

End AdminGuard.

(* ===================================================================== *)
(** ** Platform functions used by the middleware: [split] and [atob] *)
(* ===================================================================== *)

Module Web.

(** [s.split(sep)] for a separator of one character: the pieces between the
    occurrences of [sep], empty pieces included; never an empty array. *)
Fixpoint split (sep : ascii) (s : string) : list string :=
  match s with
  | EmptyString => [EmptyString]
  | String c r =>
      if Ascii.eqb c sep then EmptyString :: split sep r
      else match split sep r with
           | [] => [String c EmptyString]
           | p :: ps => String c p :: ps
           end
  end.

(** [parts.join(sep)] *)
Fixpoint join (sep : ascii) (parts : list string) : string :=
  match parts with
  | [] => EmptyString
  | [p] => p
  | p :: rest => (p ++ String sep (join sep rest))%string
  end.

(** [c] occurs in [s]. *)
Fixpoint contains (c : ascii) (s : string) : bool :=
  match s with
  | EmptyString => false
  | String a r => Ascii.eqb a c || contains c r
  end.

(** ASCII whitespace of the base64 decoder: TAB, LF, FF, CR, SPACE. *)
Definition isAsciiWhitespace (c : ascii) : bool :=
  let n := nat_of_ascii c in
  (n =? 9) || (n =? 10) || (n =? 12) || (n =? 13) || (n =? 32).

(** The value of a character of the base64 alphabet. *)
Definition sextet (c : ascii) : option N :=
  let n := nat_of_ascii c in
  if (65 <=? n) && (n <=? 90) then Some (N.of_nat (n - 65))
  else if (97 <=? n) && (n <=? 122) then Some (N.of_nat (n - 97 + 26))
  else if (48 <=? n) && (n <=? 57) then Some (N.of_nat (n - 48 + 52))
  else if n =? 43 then Some 62%N
  else if n =? 47 then Some 63%N
  else None.

Fixpoint sextets (l : list ascii) : option (list N) :=
  match l with
  | [] => Some []
  | c :: r =>
      match sextet c, sextets r with
      | Some v, Some vs => Some (v :: vs)
      | _, _ => None
      end
  end.

(** Groups of four sextets give three bytes; a final group of three gives
    two bytes and one of two gives one byte, the left-over bits dropped. *)
Fixpoint decodeSextets (l : list N) : list ascii :=
  match l with
  | a :: b :: c :: d :: rest =>
      let n := (((a * 64 + b) * 64 + c) * 64 + d)%N in
      ascii_of_N (n / 65536) :: ascii_of_N ((n / 256) mod 256)
        :: ascii_of_N (n mod 256) :: decodeSextets rest
  | [a; b; c] =>
      let n := (((a * 64 + b) * 64 + c) / 4)%N in
      [ascii_of_N (n / 256); ascii_of_N (n mod 256)]
  | [a; b] => [ascii_of_N ((a * 64 + b) / 16)]
  | _ => []
  end.

(** One or two trailing [=] are removed when the length is a multiple
    of 4. *)
Definition stripPadding (l : list ascii) : list ascii :=
  if length l mod 4 =? 0 then
    match rev l with
    | "="%char :: "="%char :: r => rev r
    | "="%char :: r => rev r
    | _ => l
    end
  else l.

(** [atob(data)], the forgiving base64 decoding of the platform; [None]
    when it throws InvalidCharacterError. *)
Definition atob (data : string) : option string :=
  let l := stripPadding
             (filter (fun c => negb (isAsciiWhitespace c))
                (list_ascii_of_string data)) in
  if length l mod 4 =? 1 then None
  else match sextets l with
       | Some vs => Some (string_of_list_ascii (decodeSextets vs))
       | None => None
       end.

(** The string that an argument becomes: [undefined] reads "undefined". *)
Definition toStringArg (v : option string) : string :=
  match v with Some s => s | None => "undefined" end.

(** [a === b] for two values that are each a string or [undefined]. *)
Definition strictEqual (a b : option string) : bool :=
  match a, b with
  | Some x, Some y => String.eqb x y
  | None, None => true
  | _, _ => false
  end.

End Web.

(* ===================================================================== *)
(** ** middleware.ts, option A: HTTP Basic Auth *)
(* ===================================================================== *)

Module BasicAuth.

Inductive Outcome : Type :=
| Next                (* NextResponse.next() *)
| AuthRequired        (* 401 with WWW-Authenticate: Basic realm="Admin Dashboard" *)
| Threw.              (* atob threw *)

(** [middleware(req)] for a request on a path under /admin; header names
    are in lower case. *)
Definition middleware (env : AdminGuard.Env) (headers : AdminGuard.Headers)
  : Outcome :=
  match AdminGuard.Headers_get "authorization" headers with
  | Some basicAuth =>
      if JsString.truthy basicAuth then
        let authValue := nth_error (Web.split " "%char basicAuth) 1 in
        match Web.atob (Web.toStringArg authValue) with
        | None => Threw
        | Some decoded =>
            let parts := Web.split ":"%char decoded in
            let user := nth_error parts 0 in
            let pwd := nth_error parts 1 in
            if Web.strictEqual user (AdminGuard.ADMIN_USERNAME env)
               && Web.strictEqual pwd (AdminGuard.ADMIN_PASSWORD env)
            then Next
            else AuthRequired
        end
      else AuthRequired
  | None => AuthRequired
  end.

End BasicAuth.

(* ===================================================================== *)
(** ** app/actions/auth.ts and middleware.ts, option B: session cookie *)
(* ===================================================================== *)

Module SessionAuth.

(** The [admin_session] cookie of a browser, read through
    [getIronSession]: absent, or the session data that was last saved.
    An absent cookie reads as a session without [isLoggedIn]. *)
Definition Cookie : Type := option AdminGuard.SessionData.

Inductive ActionResult : Type :=
| Redirect (path : string)
| ReturnError (error : string).

(** [login(formData)] *)
Definition login (env : AdminGuard.Env) (formData : FormData) (cookie : Cookie)
  : ActionResult * Cookie :=
  let username := FormData_get "username" formData in
  let password := FormData_get "password" formData in
  if AdminGuard.strictEq username (AdminGuard.ADMIN_USERNAME env)
     && AdminGuard.strictEq password (AdminGuard.ADMIN_PASSWORD env)
  then (Redirect "/admin/dashboard",
        Some (AdminGuard.mkSession true username))
  else (ReturnError "Invalid credentials", cookie).

(** [logout()]: [session.destroy()] removes the cookie. *)
Definition logout (cookie : Cookie) : ActionResult * Cookie :=
  (Redirect "/admin/login", None).

Inductive MiddlewareResult : Type :=
| Next
| RedirectTo (path : string).

Definition loggedIn (cookie : Cookie) : bool :=
  match cookie with
  | Some s => AdminGuard.isLoggedIn s
  | None => false
  end.

(** [middleware(req)] *)
Definition middleware (pathname : string) (cookie : Cookie) : MiddlewareResult :=
  if String.eqb pathname "/admin/login" then Next
  else if negb (loggedIn cookie) then RedirectTo "/admin/login"
  else Next.

(** One step of a browser session: an action of the admin area. *)
Inductive Step : Type :=
| DoLogin (formData : FormData)
| DoLogout.

Definition perform (env : AdminGuard.Env) (st : Step) (cookie : Cookie) : Cookie :=
  match st with
  | DoLogin fd => snd (login env fd cookie)
  | DoLogout => snd (logout cookie)
  end.

Definition performAll (env : AdminGuard.Env) (steps : list Step) (cookie : Cookie)
  : Cookie :=
  fold_left (fun c st => perform env st c) steps cookie.

Definition credentialsMatch (env : AdminGuard.Env) (fd : FormData) : bool :=
  AdminGuard.strictEq (FormData_get "username" fd) (AdminGuard.ADMIN_USERNAME env)
  && AdminGuard.strictEq (FormData_get "password" fd) (AdminGuard.ADMIN_PASSWORD env).

End SessionAuth.

(* ===================================================================== *)
(** ** The client components of the vanilla page: SignupForm, Counter,
       WaitlistSection *)
(* ===================================================================== *)

Module VanillaClient.

Inductive Status : Type := idle | loading | success | error.

(** The state of [SignupForm]: the five [useState] cells. *)
Record FormState : Type := mkFormState {
  email : string;
  status : Status;
  message : string;
  source : option string;      (* utm_source of the URL, or null *)
  referrer : option string     (* document.referrer when not empty *)
}.

(** [formData.append(name, value)] *)
Definition append (name value : string) (fd : FormData) : FormData :=
  fd ++ [(name, FormString value)].

(** [if (v) formData.append(name, v)] *)
Definition appendIfTruthy (name : string) (v : option string) (fd : FormData)
  : FormData :=
  match v with
  | Some x => if JsString.truthy x then append name x fd else fd
  | None => fd
  end.

(** The form data that [handleSubmit] sends. *)
Definition formDataOf (st : FormState) : FormData :=
  appendIfTruthy "referrer" (referrer st)
    (appendIfTruthy "source" (source st) (append "email" (email st) [])).

(** How the call of the server action ends for the browser: the action ran
    and its result arrived; or the promise rejects, because the request did
    not reach the server, or because the action ran and its answer did not
    come back. *)
Inductive ActionCall : Type :=
| Answered
| RequestLost
| ResponseLost.

(** [handleSubmit(e)]: the new state of the form, the store, and whether
    [onSuccess] was called.  The call of [signup] is awaited outside any
    [try]: when it rejects, [handleSubmit] stops there, with the state set
    before the call. *)
Definition handleSubmit (call : ActionCall) (now : Z) (st : FormState) (db : Db)
  : FormState * Db * bool :=
  if negb (JsString.truthy (email st)) then (st, db, false)
  else
    (* setStatus("loading"); setMessage("") *)
    let pending := mkFormState (email st) loading "" (source st) (referrer st) in
    match call with
    | RequestLost => (pending, db, false)
    | ResponseLost =>
        (pending, snd (Vanilla.signup now (formDataOf st) db), false)
    | Answered =>
        match Vanilla.signup now (formDataOf st) db with
        | (Vanilla.Success m, db') =>
            (mkFormState "" success m (source st) (referrer st), db', true)
        | (Vanilla.Failure e, db') =>
            (mkFormState (email st) error e (source st) (referrer st), db', false)
        end
    end.

(** What [fetch("/api/count")] gives: it rejects, or it resolves with the
    response of the route. *)
Inductive FetchResult : Type :=
| Rejected
| Resolved (response : CountRoute.Response).

(** [response.ok] *)
Definition ok (r : CountRoute.Response) : bool :=
  (200 <=? CountRoute.status r) && (CountRoute.status r <=? 299).

(** [refreshCount] of [Counter]: the new value of [count]. *)
Definition refreshCount (count : nat) (f : FetchResult) : nat :=
  match f with
  | Resolved r => if ok r then CountRoute.body_count r else count
  | Rejected => count
  end.

(** The request served by the count route, unless the network fails. *)
Definition fetchCount (networkUp : bool) (db : Db) : FetchResult :=
  if networkUp then Resolved (CountRoute.GET db) else Rejected.

(** What [Counter] renders, the number left unformatted. *)
Inductive CounterView : Type :=
| BeTheFirst                                   (* "Be the first to join our waitlist!" *)
| JoinOthers (count : nat) (noun : string).    (* "Join N other(s) on the waitlist" *)

Definition render (count : nat) : CounterView :=
  if count =? 0 then BeTheFirst
  else JoinOthers count (if count =? 1 then "other" else "others").

(** The page: [WaitlistWithCount] passes [getWaitlistCount()] as the initial
    count, and [WaitlistSection] refreshes the counter when the form reports
    success. *)
Record Page : Type := mkPage { form : FormState; count : nat }.

Definition load (db : Db) : Page :=
  mkPage (mkFormState "" idle "" None None) (Vanilla.getWaitlistCount db).

Definition submitOnPage (call : ActionCall) (now : Z) (networkUp : bool)
  (p : Page) (db : Db) : Page * Db :=
  let '(st, db', succeeded) := handleSubmit call now (form p) db in
  (mkPage st
     (if succeeded then refreshCount (count p) (fetchCount networkUp db')
      else count p),
   db').

End VanillaClient.

(* ===================================================================== *)
(** ** Listings of recent signups *)
(* ===================================================================== *)

Module Recent.



(** A row of the [waitlistSignup] model, restricted to the columns that
    [getRecentSignups] selects ([interface Signup] of the table
    component). *)
Record Signup : Type := mkSignup {
  s_id : nat;
  s_email : string;
  s_name : option string;
  s_source : option string;
  s_status : string;
  s_createdAt : Z
}.

Record SignupTable : Type := mkSignupTable {
  signups : list Signup;
  table_fault : option PrismaError
}.

(** A JavaScript number passed as [limit]: an integer, or any other number
    (a fraction, NaN, an infinity). *)
Inductive JsNumber : Type :=
| Integer (z : Z)
| NotInteger.

(** [take] on the rows in the order asked for: the first [take] rows, or,
    when [take] is negative, the last [-take] rows, still in that order. *)
Definition takeRows {A : Type} (take : Z) (ordered : list A) : list A :=
  if (0 <=? take)%Z then firstn (Z.to_nat take) ordered
  else skipn (length ordered - Z.to_nat (- take)) ordered.

(** [getRecentSignups(limit = 50)]: [undefined] is read as 50, and [take]
    must be an integer. *)
Definition getRecentSignups (limit : option JsNumber) (t : SignupTable)
  : PrismaError + list Signup :=
  let limit := match limit with Some n => n | None => Integer 50 end in
  match limit with
  | NotInteger => inl PrismaClientValidationError
  | Integer take =>
      match table_fault t with
      | Some e => inl e
      | None =>
          inr (takeRows take
                 (Analytics.orderBy
                    (fun a b => (s_createdAt b <=? s_createdAt a)%Z)
                    (signups t)))
      end
  end.

End Recent.

(* ===================================================================== *)
(** ** Vocabulary of the specification and sample data *)
(* ===================================================================== *)

(** Normalization of an email as the specification words it: lower-case,
    then strip leading and trailing whitespace. *)
Definition normalize (e : string) : string :=
  JsString.trim (JsString.toLowerCase e).

(** An empty, reachable table. *)
Definition emptyDb : Db := mkDb [] None.

(** The attribution fields of a form are text or absent (the page's form has
    no file input). *)
Definition textAttribution (sourceField : string) (fd : FormData) : Prop :=
  FormData_get sourceField fd <> Some FormFile
  /\ FormData_get "referrer" fd <> Some FormFile.

(** A value read from a form that the database takes: no text with
    U+0000. *)
Definition storableEntry (v : option FormDataEntryValue) : bool :=
  match v with
  | Some (FormString s) => noNul s
  | _ => true
  end.

(** The texts that a submission sends to the database, its email, source
    and referrer, contain no U+0000. *)
Definition storableSubmission (sourceField : string) (fd : FormData) : bool :=
  storableEntry (FormData_get "email" fd)
  && storableEntry (FormData_get sourceField fd)
  && storableEntry (FormData_get "referrer" fd).

(** [db'] is [db] with exactly [row] appended. *)
Definition appended (db : Db) (row : Waitlist) (db' : Db) : Prop :=
  db' = mkDb (rows db ++ [row]) (fault db).

(** The submitted email field is not a string accepted by [valid]:
    malformed, empty, a file, or missing. *)
Definition malformed (valid : string -> bool) (fd : FormData) : Prop :=
  forall e, FormData_get "email" fd = Some (FormString e) -> valid e = false.

(** The contract of the Signup Writer, [submit(email, source?, referrer?)],
    as an interface: the server action, the syntax rule it applies, the form
    field it reads the source from, and the results that stand for the
    outcomes Confirmation, Duplicate, Transient and InvalidEmail. *)
Record SignupWriter : Type := mkWriter {
  Result : Type;
  submit : Z -> FormData -> Db -> Result * Db;
  syntaxRule : string -> bool;
  sourceField : string;
  confirmation : Result;
  duplicateError : Result;
  transientError : Result;
  invalidEmailError : Result -> Prop
}.

Definition vanillaWriter : SignupWriter :=
  mkWriter Vanilla.SignupResult Vanilla.signup (Regex.test emailRegex) "source"
    Vanilla.onTheList Vanilla.duplicate Vanilla.transient
    (fun r => r = Vanilla.emailRequired \/ r = Vanilla.invalidEmail).

Definition launchlistWriter (z : Zod) (prevState : option SignupState)
  : SignupWriter :=
  mkWriter SignupState (fun now => Launchlist.submitWaitlist z now prevState)
    (isEmail z) "utm_source"
    Launchlist.joined Launchlist.duplicate Launchlist.transient
    (fun r => r = stateError "Please enter a valid email address"
              \/ exists v, r = stateError (invalidTypeMessage z v)).

(** The two signup actions of the applications. *)
Inductive Implemented : SignupWriter -> Prop :=
| implemented_vanilla : Implemented vanillaWriter
| implemented_launchlist (z : Zod) (prevState : option SignupState) :
    Implemented (launchlistWriter z prevState).

(** A stand-in for the zod package where a concrete schema is needed: the
    email format is the pattern of [signup]. *)
Definition sampleZod : Zod :=
  mkZod (Regex.test emailRegex) (fun _ => "Expected string, received null").

(** The insert that a writer issues for a form whose email is [e]. *)
Definition insertOf (w : SignupWriter) (e : string) (fd : FormData) : CreateInput :=
  mkCreateInput (normalize e)
    (orNull (FormData_get (sourceField w) fd))
    (orNull (FormData_get "referrer" fd)).


(** Number of records created on UTC day [d] among those that
    [getSignupsOverTime now days] selects: created at or after [days] times
    24 hours before [now]. *)
Definition signupsOn (now days d : Z) (db : Db) : nat :=
  length
    (filter
       (fun r => (now - days * Analytics.msPerDay <=? createdAt r)%Z
                 && (Analytics.isoDate (createdAt r) =? d)%Z)
       (rows db)).

(** A record of the waitlist, for examples. *)
Definition signupAt (i : nat) (e : string) (src : option string) (t : Z) : Waitlist :=
  mkWaitlist i e src None t.

(** Scenario 4 of the specification, seen from noon of day 10: three
    signups on day 9, two on day 10, none before. *)
Definition sparseDb : Db :=
  mkDb [signupAt 0 "a@x.com" None (9 * Analytics.msPerDay);
        signupAt 1 "b@x.com" None (9 * Analytics.msPerDay + 1);
        signupAt 2 "c@x.com" None (9 * Analytics.msPerDay + 2);
        signupAt 3 "d@x.com" None (10 * Analytics.msPerDay);
        signupAt 4 "e@x.com" None (10 * Analytics.msPerDay + 1)] None.

Definition noonOfDay10 : Z := (10 * Analytics.msPerDay + Analytics.msPerDay / 2)%Z.

(** Eleven records, each with a source of its own. *)
Definition elevenSourcesDb : Db :=
  mkDb [signupAt 0 "u0@x.com" (Some "s0") 0; signupAt 1 "u1@x.com" (Some "s1") 0;
        signupAt 2 "u2@x.com" (Some "s2") 0; signupAt 3 "u3@x.com" (Some "s3") 0;
        signupAt 4 "u4@x.com" (Some "s4") 0; signupAt 5 "u5@x.com" (Some "s5") 0;
        signupAt 6 "u6@x.com" (Some "s6") 0; signupAt 7 "u7@x.com" (Some "s7") 0;
        signupAt 8 "u8@x.com" (Some "s8") 0; signupAt 9 "u9@x.com" (Some "s9") 0;
        signupAt 10 "u10@x.com" (Some "s10") 0] None.

(** An administrator, a client address, and forms with the right and with a
    wrong password, for examples. *)
Definition sampleEnv : AdminGuard.Env :=
  AdminGuard.mkEnv (Some "admin") (Some "s3cret").

Definition fromClient : AdminGuard.Headers := [("x-forwarded-for", "203.0.113.7")].

Definition rightForm : FormData :=
  [("username", FormString "admin"); ("password", FormString "s3cret")].

Definition wrongForm : FormData :=
  [("username", FormString "admin"); ("password", FormString "guess")].

(** An authentication for examples: the comparison of the session login
    against the sample administrator; its outcome says whether the
    credentials matched. *)
Definition checkCredentials (fd : FormData) : bool :=
  SessionAuth.credentialsMatch sampleEnv fd.

(** Five attempts with a wrong password, one per second. *)
Definition fiveWrong : list AdminGuard.Request :=
  map (fun t => AdminGuard.mkRequest t fromClient wrongForm)
    [0; 1000; 2000; 3000; 4000]%Z.


(** Five logins with the right password, one per second. *)
Definition fiveRight : list AdminGuard.Request :=
  map (fun t => AdminGuard.mkRequest t fromClient rightForm)
    [0; 1000; 2000; 3000; 4000]%Z.

(** Simultaneous submissions to a writer that issues a single query, the
    insert: the database serves the inserts one at a time, in some order,
    and [reqs] lists the submissions in that order. *)
Fixpoint submitAll (w : SignupWriter) (reqs : list (Z * FormData)) (db : Db)
  : list (Result w) * Db :=
  match reqs with
  | [] => ([], db)
  | (now, fd) :: rest =>
      let (r, db1) := submit w now fd db in
      let (rs, db2) := submitAll w rest db1 in
      (r :: rs, db2)
  end.

(** A submission that passes the syntax rule and normalizes to [e]. *)
Definition submits (w : SignupWriter) (e : string) (fd : FormData) : Prop :=
  exists e',
    FormData_get "email" fd = Some (FormString e')
    /\ syntaxRule w e' = true
    /\ normalize e' = e
    /\ textAttribution (sourceField w) fd
    /\ storableSubmission (sourceField w) fd = true.

(** The emails of the table are pairwise different. *)
Definition uniqueEmails (db : Db) : Prop := NoDup (map email (rows db)).

(** Every stored email is in normal form. *)
Definition normalizedEmails (db : Db) : Prop :=
  Forall (fun r => normalize (email r) = email r) (rows db).

(** [db'] is [db], or [db] with one row appended. *)
Definition atMostAppended (db db' : Db) : Prop :=
  db' = db \/ exists row, appended db row db'.

(** What a row stores for an attribution value of the page. *)
Definition storedAttribution (v : option string) : option string :=
  match v with
  | Some x => if JsString.truthy x then Some x else None
  | None => None
  end.

(** The request headers with [Authorization: scheme token]. *)
Definition authorization (scheme token : string) : AdminGuard.Headers :=
  [("authorization", (scheme ++ String " "%char token)%string)].

(** [respects f r]: no character test of [r] tells [f a] from [a]. *)
Fixpoint respects (f : ascii -> ascii) (r : Regex.regex) : Prop :=
  match r with
  | Regex.Void | Regex.Eps => True
  | Regex.Chr c => forall a, Ascii.eqb c (f a) = Ascii.eqb c a
  | Regex.NegSet ex => forall a, ex (f a) = ex a
  | Regex.Cat r1 r2 | Regex.Alt r1 r2 => respects f r1 /\ respects f r2
  | Regex.Star r1 => respects f r1
  end.

(* ===================================================================== *)
(** * Properties *)
(* ===================================================================== *)

(** ** Strings and the email pattern *)

Lemma dead_not_nullable (r : Regex.regex) :
  Regex.dead r = true -> Regex.nullable r = false.
Proof.
  induction r; simpl; intros H; try discriminate; auto.
  - apply orb_true_iff in H as [H | H];
      [rewrite (IHr1 H) | rewrite (IHr2 H), andb_false_r]; reflexivity.
  - apply andb_true_iff in H as [H1 H2].
    now rewrite (IHr1 H1), (IHr2 H2).
Qed.

Lemma dead_deriv (a : ascii) (r : Regex.regex) :
  Regex.dead r = true -> Regex.dead (Regex.deriv a r) = true.
Proof.
  induction r; simpl; intros H; try discriminate; auto.
  - apply orb_true_iff in H as [H | H].
    + rewrite (IHr1 H), (dead_not_nullable _ H). reflexivity.
    + rewrite H, orb_true_r. simpl.
      destruct (Regex.nullable r1); auto.
  - apply andb_true_iff in H as [H1 H2].
    now rewrite (IHr1 H1), (IHr2 H2).
Qed.

Lemma test_dead (s : string) :
  forall r, Regex.dead r = true -> Regex.test r s = false.
Proof.
  induction s as [| a s IH]; simpl; intros r H.
  - now apply dead_not_nullable.
  - apply IH. now apply dead_deriv.
Qed.

Lemma avoids_deriv (a c : ascii) (r : Regex.regex) :
  Regex.avoids a r = true -> Regex.avoids a (Regex.deriv c r) = true.
Proof.
  induction r; simpl; intros H; auto.
  - destruct (Ascii.eqb c0 c); reflexivity.
  - destruct (excluded c); reflexivity.
  - apply andb_true_iff in H as [H1 H2].
    rewrite (IHr1 H1), H2. simpl.
    destruct (Regex.nullable r1); auto.
  - apply andb_true_iff in H as [H1 H2].
    now rewrite (IHr1 H1), (IHr2 H2).
  - now rewrite (IHr H), H.
Qed.

Lemma avoids_dead (a : ascii) (r : Regex.regex) :
  Regex.avoids a r = true -> Regex.dead (Regex.deriv a r) = true.
Proof.
  induction r; simpl; intros H; auto.
  - apply negb_true_iff in H. now rewrite H.
  - now rewrite H.
  - apply andb_true_iff in H as [H1 H2].
    rewrite (IHr1 H1). simpl.
    destruct (Regex.nullable r1); auto.
  - apply andb_true_iff in H as [H1 H2].
    now rewrite (IHr1 H1), (IHr2 H2).
  - now rewrite (IHr H).
Qed.

(** A string that is matched contains none of the characters that the
    pattern avoids. *)
Lemma test_avoids (p : ascii -> bool) (s : string) :
  forall r,
    (forall a, p a = true -> Regex.avoids a r = true) ->
    Regex.test r s = true ->
    JsString.forallb (fun c => negb (p c)) s = true.
Proof.
  induction s as [| c s IH]; simpl; intros r Hp Ht; [reflexivity |].
  destruct (p c) eqn:Hc; simpl.
  - rewrite (test_dead s _ (avoids_dead c r (Hp c Hc))) in Ht. discriminate.
  - apply (IH (Regex.deriv c r)); [| exact Ht].
    intros a Ha. apply avoids_deriv. now apply Hp.
Qed.

Lemma emailRegex_avoids_whitespace (a : ascii) :
  JsString.isWhiteSpace a = true -> Regex.avoids a emailRegex = true.
Proof.
  destruct a as [[] [] [] [] [] [] [] []]; vm_compute; intros H;
    first [reflexivity | discriminate H].
Qed.

Lemma emailRegex_no_whitespace (e : string) :
  Regex.test emailRegex e = true ->
  JsString.forallb (fun c => negb (JsString.isWhiteSpace c)) e = true.
Proof.
  apply test_avoids. exact emailRegex_avoids_whitespace.
Qed.

Lemma emailRegex_truthy (e : string) :
  Regex.test emailRegex e = true -> JsString.truthy e = true.
Proof. destruct e; [discriminate | reflexivity]. Qed.

Lemma toLowerChar_whitespace (c : ascii) :
  JsString.isWhiteSpace (JsString.toLowerChar c) = JsString.isWhiteSpace c.
Proof. destruct c as [[] [] [] [] [] [] [] []]; reflexivity. Qed.

Lemma toLowerCase_no_whitespace (s : string) :
  JsString.forallb (fun c => negb (JsString.isWhiteSpace c)) s = true ->
  JsString.forallb (fun c => negb (JsString.isWhiteSpace c))
    (JsString.toLowerCase s) = true.
Proof.
  induction s as [| c s IH]; simpl; [reflexivity |].
  intros H. apply andb_true_iff in H as [H1 H2].
  now rewrite toLowerChar_whitespace, H1, (IH H2).
Qed.

Lemma trimEnd_no_whitespace (s : string) :
  JsString.forallb (fun c => negb (JsString.isWhiteSpace c)) s = true ->
  JsString.trimEnd s = s.
Proof.
  induction s as [| c s IH]; simpl; [reflexivity |].
  intros H. apply andb_true_iff in H as [H1 H2].
  rewrite (IH H2). apply negb_true_iff in H1. rewrite H1.
  destruct s; reflexivity.
Qed.

Lemma trim_no_whitespace (s : string) :
  JsString.forallb (fun c => negb (JsString.isWhiteSpace c)) s = true ->
  JsString.trim s = s.
Proof.
  intros H. unfold JsString.trim.
  assert (JsString.trimStart s = s) as ->.
  { destruct s as [| c s]; [reflexivity |]. simpl in *.
    apply andb_true_iff in H as [H1 _]. apply negb_true_iff in H1.
    now rewrite H1. }
  now apply trimEnd_no_whitespace.
Qed.

(** On a string that passed the pattern, [trim] has nothing left to remove:
    the sanitized email is the lower-cased input. *)
Lemma sanitized_is_lowercase (e : string) :
  Regex.test emailRegex e = true ->
  JsString.trim (JsString.toLowerCase e) = JsString.toLowerCase e.
Proof.
  intros H. apply trim_no_whitespace, toLowerCase_no_whitespace.
  now apply emailRegex_no_whitespace.
Qed.

(** ** The persistence layer *)

Lemma nullableString_orNull (v : option FormDataEntryValue) :
  v <> Some FormFile -> exists s, nullableString (orNull v) = Some s.
Proof.
  destruct v as [[s |] |]; simpl; intros H.
  - destruct (JsString.truthy s); simpl; eauto.
  - now elim H.
  - eauto.
Qed.

Lemma noNul_toLowerCase (s : string) :
  noNul (JsString.toLowerCase s) = noNul s.
Proof.
  unfold noNul. induction s as [| c s IH]; simpl; [reflexivity |].
  rewrite IH. f_equal.
  destruct c as [[] [] [] [] [] [] [] []]; reflexivity.
Qed.

Lemma noNul_trimStart (s : string) :
  noNul s = true -> noNul (JsString.trimStart s) = true.
Proof.
  unfold noNul. induction s as [| c s IH]; simpl; [reflexivity |].
  intros H. destruct (JsString.isWhiteSpace c); [| exact H].
  apply andb_true_iff in H as [_ H]. now apply IH.
Qed.

Lemma noNul_trimEnd (s : string) :
  noNul s = true -> noNul (JsString.trimEnd s) = true.
Proof.
  unfold noNul. induction s as [| c s IH]; simpl; [reflexivity |].
  intros H. apply andb_true_iff in H as [Hc H]. specialize (IH H).
  destruct (JsString.trimEnd s).
  - destruct (JsString.isWhiteSpace c); simpl; [reflexivity |].
    now rewrite Hc.
  - simpl in *. now rewrite Hc, IH.
Qed.

(** Sanitizing neither removes nor introduces U+0000. *)
Lemma noNul_sanitized (e : string) :
  noNul e = true -> noNul (JsString.trim (JsString.toLowerCase e)) = true.
Proof.
  intros H. unfold JsString.trim.
  apply noNul_trimEnd, noNul_trimStart. now rewrite noNul_toLowerCase.
Qed.

Lemma storable_orNull (v : option FormDataEntryValue) (s : option string) :
  storableEntry v = true ->
  nullableString (orNull v) = Some s ->
  storable s = true.
Proof.
  destruct v as [[x |] |]; simpl; intros Hv H.
  - destruct (JsString.truthy x); inversion H; subst; simpl; auto.
  - discriminate H.
  - inversion H. reflexivity.
Qed.

Lemma create_fresh (now : Z) (e : string) (src ref : option FormDataEntryValue)
  (db : Db) :
  fault db = None ->
  emailTaken e db = false ->
  src <> Some FormFile -> ref <> Some FormFile ->
  noNul e = true -> storableEntry src = true -> storableEntry ref = true ->
  exists row,
    create now (mkCreateInput e (orNull src) (orNull ref)) db
    = (inr row, mkDb (rows db ++ [row]) (fault db))
    /\ email row = e /\ createdAt row = now
    /\ nullableString (orNull src) = Some (source row)
    /\ nullableString (orNull ref) = Some (referrer row).
Proof.
  intros Hf Ht Hs Hr He Hss Hsr. unfold create. simpl.
  destruct (nullableString_orNull src Hs) as [s Hns].
  destruct (nullableString_orNull ref Hr) as [r Hnr].
  rewrite Hns, Hnr, Hf, He, (storable_orNull src s Hss Hns),
    (storable_orNull ref r Hsr Hnr), Ht.
  simpl. eexists. repeat split.
Qed.

Lemma create_taken (now : Z) (e : string) (src ref : option FormDataEntryValue)
  (db : Db) :
  fault db = None ->
  emailTaken e db = true ->
  src <> Some FormFile -> ref <> Some FormFile ->
  noNul e = true -> storableEntry src = true -> storableEntry ref = true ->
  create now (mkCreateInput e (orNull src) (orNull ref)) db
  = (inl (PrismaClientKnownRequestError "P2002"), db).
Proof.
  intros Hf Ht Hs Hr He Hss Hsr. unfold create. simpl.
  destruct (nullableString_orNull src Hs) as [s Hns].
  destruct (nullableString_orNull ref Hr) as [r Hnr].
  now rewrite Hns, Hnr, Hf, He, (storable_orNull src s Hss Hns),
    (storable_orNull ref r Hsr Hnr), Ht.
Qed.

(** What [storableSubmission] says of a form whose email is [e]. *)
Lemma storableSubmission_fields (field : string) (fd : FormData) (e : string) :
  FormData_get "email" fd = Some (FormString e) ->
  storableSubmission field fd = true ->
  noNul (normalize e) = true
  /\ storableEntry (FormData_get field fd) = true
  /\ storableEntry (FormData_get "referrer" fd) = true.
Proof.
  unfold storableSubmission. intros Hg H. rewrite Hg in H. simpl in H.
  apply andb_true_iff in H as [H Hr]. apply andb_true_iff in H as [He Hs].
  repeat split; auto. now apply noNul_sanitized.
Qed.

(** A query never changes the table unless it is an accepted insert. *)
Lemma create_error_unchanged (now : Z) (d : CreateInput) (db db' : Db)
  (err : PrismaError) :
  create now d db = (inl err, db') -> db' = db.
Proof.
  unfold create.
  destruct (nullableString (data_source d)), (nullableString (data_referrer d));
    try (intros H; inversion H; reflexivity).
  destruct (fault db); [intros H; inversion H; reflexivity |].
  destruct (negb _); [intros H; inversion H; reflexivity |].
  destruct (emailTaken (data_email d) db); intros H; inversion H; reflexivity.
Qed.

Lemma emailTaken_app (e : string) (l : list Waitlist) (row : Waitlist)
  (f : option PrismaError) :
  emailTaken e (mkDb (l ++ [row]) f)
  = emailTaken e (mkDb l f) || String.eqb (email row) e.
Proof.
  unfold emailTaken. simpl. rewrite existsb_app. simpl.
  now rewrite orb_false_r.
Qed.

Lemma recordsFor_fresh (e : string) (db : Db) :
  emailTaken e db = false -> recordsFor e db = 0.
Proof.
  unfold emailTaken, recordsFor. induction (rows db) as [| r l IH]; simpl;
    [reflexivity |].
  intros H. apply orb_false_iff in H as [H1 H2]. rewrite H1. now apply IH.
Qed.

Lemma recordsFor_app (e : string) (l : list Waitlist) (row : Waitlist)
  (f : option PrismaError) :
  email row = e ->
  recordsFor e (mkDb (l ++ [row]) f) = S (recordsFor e (mkDb l f)).
Proof.
  intros <-. unfold recordsFor. simpl. rewrite filter_app, length_app. simpl.
  rewrite String.eqb_refl. simpl. lia.
Qed.

(** ** The signup writers on a well-formed submission *)

Lemma signup_valid (now : Z) (fd : FormData) (db : Db) (e : string) :
  FormData_get "email" fd = Some (FormString e) ->
  Regex.test emailRegex e = true ->
  Vanilla.signup now fd db
  = match create now
            (mkCreateInput (normalize e)
               (orNull (FormData_get "source" fd))
               (orNull (FormData_get "referrer" fd))) db with
    | (inr _, db') => (Vanilla.onTheList, db')
    | (inl error, db') =>
        if Vanilla.isUniqueViolation error then (Vanilla.duplicate, db')
        else (Vanilla.transient, db')
    end.
Proof.
  intros Hg Hv. unfold Vanilla.signup. rewrite Hg.
  now rewrite (emailRegex_truthy e Hv), Hv.
Qed.

Lemma submitWaitlist_valid (z : Zod) (now : Z) (prev : option SignupState)
  (fd : FormData) (db : Db) (e : string) :
  FormData_get "email" fd = Some (FormString e) ->
  isEmail z e = true ->
  Launchlist.submitWaitlist z now prev fd db
  = match create now
            (mkCreateInput (normalize e)
               (orNull (FormData_get "utm_source" fd))
               (orNull (FormData_get "referrer" fd))) db with
    | (inr _, db') => (Launchlist.joined, db')
    | (inl (PrismaClientKnownRequestError code), db') =>
        if String.eqb code "P2002" then (Launchlist.duplicate, db')
        else (Launchlist.transient, db')
    | (inl _, db') => (Launchlist.transient, db')
    end.
Proof.
  intros Hg Hv. unfold Launchlist.submitWaitlist, Launchlist.emailSchema, safeParse.
  now rewrite Hg, Hv.
Qed.

Lemma signup_fresh (now : Z) (fd : FormData) (db : Db) (e : string) :
  FormData_get "email" fd = Some (FormString e) ->
  Regex.test emailRegex e = true ->
  textAttribution "source" fd ->
  storableSubmission "source" fd = true ->
  fault db = None ->
  emailTaken (normalize e) db = false ->
  exists row,
    Vanilla.signup now fd db
    = (Vanilla.onTheList, mkDb (rows db ++ [row]) (fault db))
    /\ email row = normalize e /\ createdAt row = now
    /\ nullableString (orNull (FormData_get "source" fd)) = Some (source row)
    /\ nullableString (orNull (FormData_get "referrer" fd)) = Some (referrer row).
Proof.
  intros Hg Hv [Hs Hr] Hst Hf Ht.
  destruct (storableSubmission_fields _ fd e Hg Hst) as (Hne & Hns & Hnr).
  destruct (create_fresh now (normalize e) _ _ db Hf Ht Hs Hr Hne Hns Hnr)
    as (row & Hc & He & Hrest).
  exists row. rewrite (signup_valid now fd db e Hg Hv), Hc. auto.
Qed.

Lemma signup_taken (now : Z) (fd : FormData) (db : Db) (e : string) :
  FormData_get "email" fd = Some (FormString e) ->
  Regex.test emailRegex e = true ->
  textAttribution "source" fd ->
  storableSubmission "source" fd = true ->
  fault db = None ->
  emailTaken (normalize e) db = true ->
  Vanilla.signup now fd db = (Vanilla.duplicate, db).
Proof.
  intros Hg Hv [Hs Hr] Hst Hf Ht.
  destruct (storableSubmission_fields _ fd e Hg Hst) as (Hne & Hns & Hnr).
  rewrite (signup_valid now fd db e Hg Hv).
  now rewrite (create_taken now (normalize e) _ _ db Hf Ht Hs Hr Hne Hns Hnr).
Qed.

Lemma submitWaitlist_fresh (z : Zod) (now : Z) (prev : option SignupState)
  (fd : FormData) (db : Db) (e : string) :
  FormData_get "email" fd = Some (FormString e) ->
  isEmail z e = true ->
  textAttribution "utm_source" fd ->
  storableSubmission "utm_source" fd = true ->
  fault db = None ->
  emailTaken (normalize e) db = false ->
  exists row,
    Launchlist.submitWaitlist z now prev fd db
    = (Launchlist.joined, mkDb (rows db ++ [row]) (fault db))
    /\ email row = normalize e /\ createdAt row = now
    /\ nullableString (orNull (FormData_get "utm_source" fd)) = Some (source row)
    /\ nullableString (orNull (FormData_get "referrer" fd)) = Some (referrer row).
Proof.
  intros Hg Hv [Hs Hr] Hst Hf Ht.
  destruct (storableSubmission_fields _ fd e Hg Hst) as (Hne & Hns & Hnr).
  destruct (create_fresh now (normalize e) _ _ db Hf Ht Hs Hr Hne Hns Hnr)
    as (row & Hc & He & Hrest).
  exists row. rewrite (submitWaitlist_valid z now prev fd db e Hg Hv), Hc. auto.
Qed.

Lemma submitWaitlist_taken (z : Zod) (now : Z) (prev : option SignupState)
  (fd : FormData) (db : Db) (e : string) :
  FormData_get "email" fd = Some (FormString e) ->
  isEmail z e = true ->
  textAttribution "utm_source" fd ->
  storableSubmission "utm_source" fd = true ->
  fault db = None ->
  emailTaken (normalize e) db = true ->
  Launchlist.submitWaitlist z now prev fd db = (Launchlist.duplicate, db).
Proof.
  intros Hg Hv [Hs Hr] Hst Hf Ht.
  destruct (storableSubmission_fields _ fd e Hg Hst) as (Hne & Hns & Hnr).
  rewrite (submitWaitlist_valid z now prev fd db e Hg Hv).
  now rewrite (create_taken now (normalize e) _ _ db Hf Ht Hs Hr Hne Hns Hnr).
Qed.

(** ** Signup Writer *)

Lemma writer_valid (w : SignupWriter) :
  Implemented w ->
  forall (now : Z) (fd : FormData) (db : Db) (e : string),
    FormData_get "email" fd = Some (FormString e) ->
    syntaxRule w e = true ->
    submit w now fd db
    = match create now (insertOf w e fd) db with
      | (inr _, db') => (confirmation w, db')
      | (inl err, db') =>
          match err with
          | PrismaClientKnownRequestError code =>
              if String.eqb code "P2002" then (duplicateError w, db')
              else (transientError w, db')
          | _ => (transientError w, db')
          end
      end.
Proof.
  intros [| z prev] now fd db e Hg Hv; simpl in *.
  - rewrite (signup_valid now fd db e Hg Hv). unfold insertOf. simpl.
    destruct (create now _ db) as [[err | row] db']; [| reflexivity].
    destruct err; reflexivity.
  - rewrite (submitWaitlist_valid z now prev fd db e Hg Hv). unfold insertOf. simpl.
    destruct (create now _ db) as [[err | row] db']; [| reflexivity].
    destruct err; reflexivity.
Qed.

Lemma writer_fresh (w : SignupWriter) :
  Implemented w ->
  forall (now : Z) (fd : FormData) (db : Db) (e : string),
    FormData_get "email" fd = Some (FormString e) ->
    syntaxRule w e = true ->
    textAttribution (sourceField w) fd ->
    storableSubmission (sourceField w) fd = true ->
    fault db = None ->
    emailTaken (normalize e) db = false ->
    exists row,
      submit w now fd db = (confirmation w, mkDb (rows db ++ [row]) (fault db))
      /\ email row = normalize e /\ createdAt row = now
      /\ nullableString (orNull (FormData_get (sourceField w) fd)) = Some (source row)
      /\ nullableString (orNull (FormData_get "referrer" fd)) = Some (referrer row).
Proof.
  intros [| z prev] now fd db e Hg Hv Ha Hst Hf Ht; simpl in *.
  - now apply signup_fresh.
  - now apply submitWaitlist_fresh.
Qed.

Lemma writer_taken (w : SignupWriter) :
  Implemented w ->
  forall (now : Z) (fd : FormData) (db : Db) (e : string),
    FormData_get "email" fd = Some (FormString e) ->
    syntaxRule w e = true ->
    textAttribution (sourceField w) fd ->
    storableSubmission (sourceField w) fd = true ->
    fault db = None ->
    emailTaken (normalize e) db = true ->
    submit w now fd db = (duplicateError w, db).
Proof.
  intros [| z prev] now fd db e Hg Hv Ha Hst Hf Ht; simpl in *.
  - now apply (signup_taken now fd db e).
  - now apply (submitWaitlist_taken z now prev fd db e).
Qed.

Lemma create_accepted (now : Z) (d : CreateInput) (db db' : Db) (row : Waitlist) :
  create now d db = (inr row, db') ->
  appended db row db'
  /\ email row = data_email d
  /\ createdAt row = now
  /\ fault db = None
  /\ emailTaken (data_email d) db = false
  /\ nullableString (data_source d) = Some (source row)
  /\ nullableString (data_referrer d) = Some (referrer row).
Proof.
  unfold create, appended.
  destruct (nullableString (data_source d)) as [src |];
    [| intros H; discriminate H].
  destruct (nullableString (data_referrer d)) as [ref |];
    [| intros H; discriminate H].
  destruct (fault db) eqn:Hf; [intros H; discriminate H |].
  destruct (negb _); [intros H; discriminate H |].
  destruct (emailTaken (data_email d) db) eqn:Ht; [intros H; discriminate H |].
  intros H. inversion H. subst. simpl. repeat split.
Qed.

Lemma appended_changes (db db' : Db) (row : Waitlist) :
  appended db row db' -> db' <> db.
Proof.
  unfold appended. intros -> H.
  apply (f_equal (fun d => length (rows d))) in H. simpl in H.
  rewrite length_app in H. simpl in H. lia.
Qed.

(** The outcomes of a signup action: an accepted insert of the sanitized
    email, answered with the confirmation, or any other answer with the
    table untouched. *)
Lemma writer_outcomes (w : SignupWriter) :
  Implemented w ->
  forall (now : Z) (fd : FormData) (db : Db),
    (exists e row,
        FormData_get "email" fd = Some (FormString e)
        /\ syntaxRule w e = true
        /\ create now (insertOf w e fd) db
           = (inr row, mkDb (rows db ++ [row]) (fault db))
        /\ submit w now fd db
           = (confirmation w, mkDb (rows db ++ [row]) (fault db)))
    \/ (fst (submit w now fd db) <> confirmation w
        /\ snd (submit w now fd db) = db).
Proof.
  intros Hw now fd db.
  assert (Hvalid : forall e,
             FormData_get "email" fd = Some (FormString e) ->
             syntaxRule w e = true ->
             (exists e row,
                 FormData_get "email" fd = Some (FormString e)
                 /\ syntaxRule w e = true
                 /\ create now (insertOf w e fd) db
                    = (inr row, mkDb (rows db ++ [row]) (fault db))
                 /\ submit w now fd db
                    = (confirmation w, mkDb (rows db ++ [row]) (fault db)))
             \/ (fst (submit w now fd db) <> confirmation w
                 /\ snd (submit w now fd db) = db)).
  { intros e Hg Hv. rewrite (writer_valid w Hw now fd db e Hg Hv).
    destruct (create now (insertOf w e fd) db) as [[err | row] db'] eqn:Hc.
    - right. pose proof (create_error_unchanged _ _ _ _ _ Hc) as ->.
      destruct err as [code | | |]; [destruct (String.eqb code "P2002") | | |];
        simpl; (split; [destruct Hw; discriminate | reflexivity]).
    - left. destruct (create_accepted _ _ _ _ _ Hc) as (Ha & _).
      unfold appended in Ha. subst db'. exists e, row. auto. }
  destruct (FormData_get "email" fd) as [[e |] |] eqn:Hg.
  - destruct (syntaxRule w e) eqn:Hv; [exact (Hvalid e eq_refl Hv) |].
    right. destruct Hw as [| z prev]; simpl in *.
    + unfold Vanilla.signup. rewrite Hg, Hv.
      destruct (JsString.truthy e); simpl; (split; [discriminate | reflexivity]).
    + unfold Launchlist.submitWaitlist, Launchlist.emailSchema, safeParse.
      rewrite Hg, Hv. simpl. split; [discriminate | reflexivity].
  - right. destruct Hw as [| z prev]; simpl.
    + unfold Vanilla.signup. rewrite Hg. simpl. split; [discriminate | reflexivity].
    + unfold Launchlist.submitWaitlist, Launchlist.emailSchema, safeParse.
      rewrite Hg. simpl. split; [discriminate | reflexivity].
  - right. destruct Hw as [| z prev]; simpl.
    + unfold Vanilla.signup. rewrite Hg. simpl. split; [discriminate | reflexivity].
    + unfold Launchlist.submitWaitlist, Launchlist.emailSchema, safeParse.
      rewrite Hg. simpl. split; [discriminate | reflexivity].
Qed.





(** C8.  A submission whose email is not a string accepted by the syntax
    rule (malformed, empty, a file, or missing) is answered with an
    InvalidEmail result that does not depend on the store, and the store is
    returned as it was, whatever its state: the persistence layer is never
    called. *)
Theorem malformed_email_is_rejected_before_persistence (w : SignupWriter) :
  Implemented w ->
  forall (now : Z) (fd : FormData),
    malformed (syntaxRule w) fd ->
    exists r,
      invalidEmailError w r
      /\ forall db, submit w now fd db = (r, db).
Proof.
  intros [| z prev] now fd Hm; unfold malformed in Hm; simpl in *.
  - unfold Vanilla.signup.
    destruct (FormData_get "email" fd) as [[e |] |] eqn:Hg.
    + destruct (JsString.truthy e) eqn:Ht; simpl.
      * rewrite (Hm e eq_refl). simpl. exists Vanilla.invalidEmail. auto.
      * exists Vanilla.emailRequired. auto.
    + exists Vanilla.emailRequired. auto.
    + exists Vanilla.emailRequired. auto.
  - unfold Launchlist.submitWaitlist, Launchlist.emailSchema, safeParse.
    destruct (FormData_get "email" fd) as [[e |] |] eqn:Hg.
    + rewrite (Hm e eq_refl). eexists. split; [left; reflexivity | reflexivity].
    + eexists. split; [right; eexists; reflexivity | reflexivity].
    + eexists. split; [right; eexists; reflexivity | reflexivity].
Qed.

Lemma malformed_email_is_rejected_witness :
  exists r,
    (r = Vanilla.emailRequired \/ r = Vanilla.invalidEmail)
    /\ forall db,
        Vanilla.signup 0 [("email", FormString "not-an-email")] db = (r, db).
Proof.
  refine (malformed_email_is_rejected_before_persistence vanillaWriter
            implemented_vanilla 0 [("email", FormString "not-an-email")] _).
  intros e H. inversion H. reflexivity.
Defined.




(** C10.  Whenever a submission is stored, a source or referrer
    field that is the empty string is stored as null, exactly as an absent
    field is: the stored source then belongs to the null group of the
    aggregation and is shown under the "Direct" label. *)
Theorem empty_attribution_is_stored_as_null (w : SignupWriter) :
  Implemented w ->
  forall (now : Z) (fd : FormData) (db : Db),
    fst (submit w now fd db) = confirmation w ->
    exists row,
      submit w now fd db = (confirmation w, mkDb (rows db ++ [row]) (fault db))
      /\ (FormData_get (sourceField w) fd = Some (FormString "")
          \/ FormData_get (sourceField w) fd = None ->
          source row = None
          /\ Analytics.sourceEqb (source row) None = true
          /\ Analytics.sourceLabel (source row) = "Direct")
      /\ (FormData_get "referrer" fd = Some (FormString "")
          \/ FormData_get "referrer" fd = None ->
          referrer row = None).
Proof.
  intros Hw now fd db Hok.
  destruct (writer_outcomes w Hw now fd db)
    as [(e & row & _ & _ & Hc & Hs) | [Hno _]]; [| now elim Hno].
  destruct (create_accepted _ _ _ _ _ Hc) as (_ & _ & _ & _ & _ & Hsrc & Href).
  unfold insertOf in Hsrc, Href. simpl in Hsrc, Href.
  exists row. split; [exact Hs |]. split.
  - intros [H | H]; rewrite H in Hsrc; simpl in Hsrc; inversion Hsrc as [Hn];
      repeat split.
  - intros [H | H]; rewrite H in Href; simpl in Href; inversion Href as [Hn];
      reflexivity.
Qed.

Lemma empty_attribution_witness :
  exists row,
    Vanilla.signup 0
      [("email", FormString "a@x.com"); ("source", FormString "");
       ("referrer", FormString "")] emptyDb
    = (Vanilla.onTheList, mkDb [row] None)
    /\ source row = None /\ referrer row = None.
Proof.
  destruct (empty_attribution_is_stored_as_null vanillaWriter
              implemented_vanilla 0
              [("email", FormString "a@x.com"); ("source", FormString "");
               ("referrer", FormString "")] emptyDb eq_refl)
    as (row & Hs & Hsrc & Href).
  exists row. split; [exact Hs |]. split.
  - exact (proj1 (Hsrc (or_introl eq_refl))).
  - exact (Href (or_introl eq_refl)).
Defined.

(** ** Total count *)

(** C3 (as amended).  When the store is unreachable the public total-count
    query answers 0, through [getWaitlistCount] and through the count route,
    which is also its answer for a reachable empty waitlist; the dashboard
    queries [getDashboardStats] and [getSignupsOverTime] reject with the
    error of the store. *)
Theorem unreachable_store_count_is_zero_dashboard_rejects :
  forall (db : Db) (err : PrismaError),
    fault db = Some err ->
    Vanilla.getWaitlistCount db = 0
    /\ CountRoute.GET db = CountRoute.json 0
    /\ Vanilla.getWaitlistCount db = Vanilla.getWaitlistCount emptyDb
    /\ CountRoute.GET db = CountRoute.GET emptyDb
    /\ (forall tz now, Analytics.getDashboardStats tz now db = inl err)
    /\ (forall now days, Analytics.getSignupsOverTime now days db = inl err).
Proof.
  intros db err Hf.
  unfold Vanilla.getWaitlistCount, CountRoute.GET, Analytics.getDashboardStats,
    Analytics.getSignupsOverTime, Analytics.findManySince, count.
  rewrite Hf. repeat split.
Qed.

Lemma unreachable_store_witness :
  Vanilla.getWaitlistCount
    (mkDb [mkWaitlist 0 "a@x.com" None None 0] (Some PrismaClientInitializationError))
  = 0
  /\ Analytics.getDashboardStats 0 0
       (mkDb [mkWaitlist 0 "a@x.com" None None 0] (Some PrismaClientInitializationError))
     = inl PrismaClientInitializationError.
Proof.
  destruct (unreachable_store_count_is_zero_dashboard_rejects
              (mkDb [mkWaitlist 0 "a@x.com" None None 0]
                 (Some PrismaClientInitializationError))
              PrismaClientInitializationError eq_refl)
    as (H1 & _ & _ & _ & H5 & _).
  split; [exact H1 | exact (H5 0%Z 0%Z)].
Defined.

(** C3, counterexample.  With one record stored and the store unreachable,
    the total-count query returns the number 0 and the route answers 200
    with count 0: no error reaches the caller, and the answer is the one
    given for an empty waitlist. *)
Lemma unreachable_count_is_silently_zero :
  let down :=
    mkDb [mkWaitlist 0 "a@x.com" None None 0] (Some PrismaClientInitializationError) in
  count down = inl PrismaClientInitializationError
  /\ Vanilla.getWaitlistCount down = 0
  /\ Vanilla.getWaitlistCount down = Vanilla.getWaitlistCount emptyDb
  /\ CountRoute.GET down = CountRoute.mkResponse 200 0
  /\ CountRoute.GET down = CountRoute.GET emptyDb.
Proof. repeat split. Qed.

(** ** Ordering and counting of query results *)

Section OrderByFacts.
Context {A : Type} (leb : A -> A -> bool).

Lemma insertOrdered_perm (x : A) (l : list A) :
  Permutation (Analytics.insertOrdered leb x l) (x :: l).
Proof.
  induction l as [| y t IH]; simpl; [reflexivity |].
  destruct (leb x y); [reflexivity |].
  rewrite IH. apply perm_swap.
Qed.

Lemma orderBy_perm (l : list A) : Permutation (Analytics.orderBy leb l) l.
Proof.
  induction l as [| x t IH]; simpl; [reflexivity |].
  rewrite insertOrdered_perm. now constructor.
Qed.

Hypothesis leb_total : forall a b, leb a b = true \/ leb b a = true.
Hypothesis leb_trans :
  forall a b c, leb a b = true -> leb b c = true -> leb a c = true.

Lemma insertOrdered_sorted (x : A) (l : list A) :
  StronglySorted (fun a b => leb a b = true) l ->
  StronglySorted (fun a b => leb a b = true) (Analytics.insertOrdered leb x l).
Proof.
  induction l as [| y t IH]; simpl; intros Hs.
  - repeat constructor.
  - apply StronglySorted_inv in Hs as [Ht Hy].
    destruct (leb x y) eqn:Hxy.
    + constructor; [now constructor |].
      constructor; [exact Hxy |].
      eapply Forall_impl; [| exact Hy]. intros a Ha. eauto.
    + constructor; [now apply IH |].
      eapply Permutation_Forall; [symmetry; apply insertOrdered_perm |].
      constructor; [| exact Hy].
      destruct (leb_total x y) as [H | H]; [congruence | exact H].
Qed.

Lemma orderBy_sorted (l : list A) :
  StronglySorted (fun a b => leb a b = true) (Analytics.orderBy leb l).
Proof.
  induction l as [| x t IH]; simpl; [constructor |].
  now apply insertOrdered_sorted.
Qed.
End OrderByFacts.

Lemma StronglySorted_map {A B : Type} (f : A -> B) (R : A -> A -> Prop)
  (S : B -> B -> Prop) (l : list A) :
  (forall a b, R a b -> S (f a) (f b)) ->
  StronglySorted R l -> StronglySorted S (map f l).
Proof.
  intros HRS. induction 1 as [| a l Hl IH Ha]; simpl; constructor; auto.
  apply Forall_map. eapply Forall_impl; [| exact Ha]. auto.
Qed.

Lemma StronglySorted_snoc (l : list Z) (k : Z) :
  StronglySorted Z.lt l -> Forall (fun k' => (k' < k)%Z) l ->
  StronglySorted Z.lt (l ++ [k]).
Proof.
  induction 1 as [| a l Hl IH Ha]; simpl; intros Hk.
  - repeat constructor.
  - inversion Hk as [| ? ? Hak Hlk]; subst.
    constructor; [now apply IH |].
    apply Forall_app. split; [exact Ha | now repeat constructor].
Qed.

Lemma filter_length_perm {A : Type} (p : A -> bool) (l l' : list A) :
  Permutation l l' -> length (filter p l) = length (filter p l').
Proof.
  induction 1 as [| x l l' _ IH | x y l | l l' l'' _ IH1 _ IH2]; simpl.
  - reflexivity.
  - destruct (p x); simpl; now rewrite IH.
  - destruct (p x), (p y); reflexivity.
  - now rewrite IH1.
Qed.

Lemma filter_map_length {A B : Type} (f : A -> B) (p : B -> bool) (l : list A) :
  length (filter p (map f l)) = length (filter (fun a => p (f a)) l).
Proof.
  induction l as [| a l IH]; simpl; [reflexivity |].
  destruct (p (f a)); simpl; now rewrite IH.
Qed.

Lemma filter_twice {A : Type} (p q : A -> bool) (l : list A) :
  filter q (filter p l) = filter (fun a => p a && q a) l.
Proof.
  induction l as [| a l IH]; simpl; [reflexivity |].
  destruct (p a); simpl; [destruct (q a) |]; now rewrite IH.
Qed.

Section TallyFacts.
Context {K : Type} (eqb : K -> K -> bool).
Hypothesis eqb_spec : forall a b, eqb a b = true <-> a = b.

Lemma bump_keys (k : K) (acc : list (K * nat)) :
  map fst (Analytics.bump eqb k acc)
  = if existsb (fun k' => eqb k' k) (map fst acc)
    then map fst acc else map fst acc ++ [k].
Proof.
  induction acc as [| [k' n] t IH]; simpl; [reflexivity |].
  destruct (eqb k' k); simpl; [reflexivity |].
  rewrite IH. now destruct (existsb _ (map fst t)).
Qed.

(** The count recorded for key [k] goes up by one when [k] is counted. *)
Lemma bump_weight (k k' : K) (acc : list (K * nat)) :
  list_sum (map snd (filter (fun p => eqb (fst p) k) (Analytics.bump eqb k' acc)))
  = list_sum (map snd (filter (fun p => eqb (fst p) k) acc))
    + (if eqb k' k then 1 else 0).
Proof.
  induction acc as [| [k0 n] t IH]; simpl.
  - destruct (eqb k' k); reflexivity.
  - destruct (eqb k0 k') eqn:H0; simpl.
    + apply eqb_spec in H0. subst k0.
      destruct (eqb k' k); simpl; lia.
    + destruct (eqb k0 k); simpl; rewrite IH; lia.
Qed.

Lemma fold_bump_weight (k : K) (ks : list K) :
  forall acc,
    list_sum
      (map snd
         (filter (fun p => eqb (fst p) k)
            (fold_left (fun acc k => Analytics.bump eqb k acc) ks acc)))
    = list_sum (map snd (filter (fun p => eqb (fst p) k) acc))
      + length (filter (fun k' => eqb k' k) ks).
Proof.
  induction ks as [| k' ks IH]; simpl; intros acc; [lia |].
  rewrite IH, bump_weight. destruct (eqb k' k); simpl; lia.
Qed.

Lemma tally_weight (k : K) (ks : list K) :
  list_sum (map snd (filter (fun p => eqb (fst p) k) (Analytics.tally eqb ks)))
  = length (filter (fun k' => eqb k' k) ks).
Proof. exact (fold_bump_weight k ks []). Qed.

Lemma bump_sum (k : K) (acc : list (K * nat)) :
  list_sum (map snd (Analytics.bump eqb k acc)) = S (list_sum (map snd acc)).
Proof.
  induction acc as [| [k' n] t IH]; simpl; [reflexivity |].
  destruct (eqb k' k); simpl; [reflexivity | rewrite IH; lia].
Qed.

Lemma tally_sum (ks : list K) :
  list_sum (map snd (Analytics.tally eqb ks)) = length ks.
Proof.
  unfold Analytics.tally.
  enough (forall acc,
             list_sum (map snd (fold_left (fun acc k => Analytics.bump eqb k acc) ks acc))
             = list_sum (map snd acc) + length ks) as H
      by now rewrite H.
  induction ks as [| k ks IH]; simpl; intros acc; [lia |].
  rewrite IH, bump_sum. lia.
Qed.

Lemma bump_positive (k : K) (acc : list (K * nat)) :
  Forall (fun p => 1 <= snd p) acc ->
  Forall (fun p => 1 <= snd p) (Analytics.bump eqb k acc).
Proof.
  induction 1 as [| [k' n] t Hn Ht IH]; simpl.
  - repeat constructor.
  - destruct (eqb k' k); constructor; simpl in *; auto; lia.
Qed.

Lemma tally_positive (ks : list K) :
  Forall (fun p => 1 <= snd p) (Analytics.tally eqb ks).
Proof.
  unfold Analytics.tally.
  enough (forall acc, Forall (fun p => 1 <= snd p) acc ->
             Forall (fun p => 1 <= snd p)
               (fold_left (fun acc k => Analytics.bump eqb k acc) ks acc)) as H
      by (apply H; constructor).
  induction ks as [| k ks IH]; simpl; intros acc Ha; [exact Ha |].
  apply IH. now apply bump_positive.
Qed.

Lemma existsb_key (k : K) (l : list K) :
  existsb (fun k' => eqb k' k) l = true <-> In k l.
Proof.
  rewrite existsb_exists. split.
  - intros (x & Hx & He). apply eqb_spec in He. now subst.
  - intros H. exists k. split; [exact H | now apply eqb_spec].
Qed.

Lemma bump_NoDup (k : K) (acc : list (K * nat)) :
  NoDup (map fst acc) -> NoDup (map fst (Analytics.bump eqb k acc)).
Proof.
  intros Hn. rewrite bump_keys.
  destruct (existsb _ (map fst acc)) eqn:He; [exact Hn |].
  apply NoDup_app; [exact Hn | repeat constructor; auto |].
  intros x Hx [<- | []].
  apply existsb_key in Hx. congruence.
Qed.

Lemma tally_NoDup (ks : list K) : NoDup (map fst (Analytics.tally eqb ks)).
Proof.
  unfold Analytics.tally.
  enough (forall acc, NoDup (map fst acc) ->
             NoDup (map fst (fold_left (fun acc k => Analytics.bump eqb k acc) ks acc)))
    as H by (apply H; constructor).
  induction ks as [| k ks IH]; simpl; intros acc Ha; [exact Ha |].
  apply IH. now apply bump_NoDup.
Qed.

Lemma tally_keys_incl (ks : list K) :
  incl (map fst (Analytics.tally eqb ks)) ks.
Proof.
  unfold Analytics.tally.
  enough (forall acc x,
             In x (map fst (fold_left (fun acc k => Analytics.bump eqb k acc) ks acc)) ->
             In x (map fst acc) \/ In x ks) as H.
  { intros x Hx. destruct (H [] x Hx) as [[] | Hin]. exact Hin. }
  induction ks as [| k ks IH]; simpl; intros acc x Hx; [now left |].
  destruct (IH _ _ Hx) as [H | H]; [| now right; right].
  rewrite bump_keys in H.
  destruct (existsb _ (map fst acc)); [now left |].
  apply in_app_or in H as [H | [<- | []]]; [now left | right; now left].
Qed.

Lemma weight_absent (k : K) (l : list (K * nat)) :
  ~ In k (map fst l) ->
  list_sum (map snd (filter (fun p => eqb (fst p) k) l)) = 0.
Proof.
  induction l as [| [k' m] t IH]; simpl; intros Hn; [reflexivity |].
  destruct (eqb k' k) eqn:He.
  - apply eqb_spec in He. subst k'. elim Hn. now left.
  - apply IH. intros H. apply Hn. now right.
Qed.

Lemma weight_of_entry (k : K) (n : nat) (l : list (K * nat)) :
  NoDup (map fst l) -> In (k, n) l ->
  list_sum (map snd (filter (fun p => eqb (fst p) k) l)) = n.
Proof.
  induction l as [| [k' m] t IH]; simpl; intros Hn Hin; [contradiction |].
  inversion Hn as [| ? ? Hk' Ht]; subst.
  destruct Hin as [Heq | Hin].
  - inversion Heq; subst. rewrite (proj2 (eqb_spec k k) eq_refl). simpl.
    rewrite (weight_absent k t Hk'). lia.
  - destruct (eqb k' k) eqn:He.
    + apply eqb_spec in He. subst k'. elim Hk'.
      apply in_map_iff. now exists (k, n).
    + now apply IH.
Qed.

Lemma entry_of_weight (k : K) (l : list (K * nat)) :
  1 <= list_sum (map snd (filter (fun p => eqb (fst p) k) l)) ->
  exists n, In (k, n) l.
Proof.
  induction l as [| [k' m] t IH]; simpl; intros H; [lia |].
  destruct (eqb k' k) eqn:He.
  - apply eqb_spec in He. subst k'. exists m. now left.
  - destruct (IH H) as [n Hn]. exists n. now right.
Qed.
End TallyFacts.

(** ** Analytics Aggregator *)

Lemma sourceEqb_spec (a b : option string) :
  Analytics.sourceEqb a b = true <-> a = b.
Proof.
  destruct a as [x |], b as [y |]; simpl; split; intros H;
    try discriminate; try reflexivity.
  - apply String.eqb_eq in H. now subst.
  - inversion H. apply String.eqb_refl.
Qed.

Lemma isoDate_monotone (t1 t2 : Z) :
  (t1 <= t2)%Z -> (Analytics.isoDate t1 <= Analytics.isoDate t2)%Z.
Proof.
  intros H. unfold Analytics.isoDate.
  apply Z.div_le_mono; [reflexivity | exact H].
Qed.

Lemma bump_dates_ascending (k : Z) (acc : list (Z * nat)) :
  StronglySorted Z.lt (map fst acc) ->
  Forall (fun k' => (k' <= k)%Z) (map fst acc) ->
  StronglySorted Z.lt (map fst (Analytics.bump Z.eqb k acc))
  /\ Forall (fun k' => (k' <= k)%Z) (map fst (Analytics.bump Z.eqb k acc)).
Proof.
  intros Hs Hle. rewrite (bump_keys Z.eqb).
  destruct (existsb (fun k' => (k' =? k)%Z) (map fst acc)) eqn:He;
    [now split |].
  split.
  - apply StronglySorted_snoc; [exact Hs |].
    rewrite Forall_forall in *. intros x Hx.
    assert (x <> k).
    { intros ->. apply (existsb_key Z.eqb Z.eqb_eq) in Hx. congruence. }
    specialize (Hle x Hx). lia.
  - apply Forall_app. split; [exact Hle | repeat constructor; lia].
Qed.

Lemma tally_dates_ascending (ks : list Z) :
  StronglySorted Z.le ks ->
  StronglySorted Z.lt (map fst (Analytics.tally Z.eqb ks)).
Proof.
  unfold Analytics.tally.
  enough (forall acc,
             StronglySorted Z.le ks ->
             StronglySorted Z.lt (map fst acc) ->
             (forall k' k, In k' (map fst acc) -> In k ks -> (k' <= k)%Z) ->
             StronglySorted Z.lt
               (map fst (fold_left (fun acc k => Analytics.bump Z.eqb k acc) ks acc)))
    as H.
  { intros Hs. apply H; [exact Hs | constructor | intros ? ? []]. }
  induction ks as [| k ks IH]; simpl; intros acc Hs Ha Hle; [exact Ha |].
  apply StronglySorted_inv in Hs as [Hks Hk].
  destruct (bump_dates_ascending k acc Ha) as [Hs' Hle'].
  { apply Forall_forall. intros x Hx. apply Hle; [exact Hx | now left]. }
  apply IH; [exact Hks | exact Hs' |].
  intros k' k0 Hk' Hk0.
  rewrite Forall_forall in Hle', Hk.
  specialize (Hle' k' Hk'). specialize (Hk k0 Hk0). lia.
Qed.

Lemma findManySince_ascending (gte : Z) (db : Db) (ts : list Z) :
  Analytics.findManySince gte db = inr ts -> StronglySorted Z.le ts.
Proof.
  unfold Analytics.findManySince. destruct (fault db); [discriminate |].
  intros H. inversion H. subst ts. clear H.
  apply (StronglySorted_map createdAt
           (fun a b => (createdAt a <=? createdAt b)%Z = true)).
  - intros a b Hab. now apply Z.leb_le.
  - apply orderBy_sorted.
    + intros a b. rewrite !Z.leb_le. lia.
    + intros a b c. rewrite !Z.leb_le. lia.
Qed.

Lemma getSignupsOverTime_reachable (now days : Z) (db : Db) :
  fault db = None ->
  exists tl,
    Analytics.getSignupsOverTime now days db = inr tl
    /\ StronglySorted Z.lt (map Analytics.tp_date tl)
    /\ (forall p, In p tl ->
          1 <= Analytics.tp_count p
          /\ Analytics.tp_count p = signupsOn now days (Analytics.tp_date p) db)
    /\ (forall d, 1 <= signupsOn now days d db ->
          exists p, In p tl /\ Analytics.tp_date p = d).
Proof.
  intros Hf. unfold Analytics.getSignupsOverTime.
  destruct (Analytics.findManySince (now - days * Analytics.msPerDay) db)
    as [e | ts] eqn:Hq.
  { unfold Analytics.findManySince in Hq. rewrite Hf in Hq. discriminate. }
  pose proof (findManySince_ascending _ _ _ Hq) as Hts.
  set (grouped := Analytics.tally Z.eqb (map Analytics.isoDate ts)).
  assert (Hkeys : map Analytics.tp_date
                    (map (fun '(date, count) => Analytics.mkPoint date count) grouped)
                  = map fst grouped).
  { rewrite map_map. apply map_ext. now intros [d n]. }
  assert (Hasc : StronglySorted Z.lt (map fst grouped)).
  { apply tally_dates_ascending.
    apply (StronglySorted_map Analytics.isoDate Z.le); [| exact Hts].
    exact isoDate_monotone. }
  assert (Hweight : forall d,
             list_sum (map snd (filter (fun p => (fst p =? d)%Z) grouped))
             = signupsOn now days d db).
  { intros d. unfold grouped. rewrite (tally_weight Z.eqb Z.eqb_eq).
    unfold Analytics.findManySince in Hq. rewrite Hf in Hq.
    inversion Hq as [Hts']. unfold signupsOn.
    rewrite !filter_map_length.
    rewrite (filter_length_perm _ _ _ (orderBy_perm _ _)).
    now rewrite filter_twice. }
  assert (Hnodup : NoDup (map fst grouped)) by apply (tally_NoDup Z.eqb Z.eqb_eq).
  eexists. split; [reflexivity |]. split; [now rewrite Hkeys |]. split.
  - intros p Hp. apply in_map_iff in Hp as ([d n] & <- & Hin). simpl.
    split.
    + pose proof (tally_positive Z.eqb (map Analytics.isoDate ts)) as Hpos.
      rewrite Forall_forall in Hpos. exact (Hpos _ Hin).
    + rewrite <- Hweight. symmetry.
      now apply (weight_of_entry Z.eqb Z.eqb_eq).
  - intros d Hd. rewrite <- Hweight in Hd.
    destruct (entry_of_weight Z.eqb Z.eqb_eq d grouped Hd) as [n Hn].
    exists (Analytics.mkPoint d n). split; [| reflexivity].
    apply in_map_iff. now exists (d, n).
Qed.

Lemma getDashboardStats_reachable (tz now : Z) (db : Db) :
  fault db = None ->
  exists stats,
    Analytics.getDashboardStats tz now db = inr stats
    /\ Analytics.total stats = length (rows db)
    /\ Analytics.groupBySource 10 db = inr (Analytics.sources stats)
    /\ Analytics.getSignupsOverTime now 30 db = inr (Analytics.timeline stats).
Proof.
  intros Hf.
  destruct (getSignupsOverTime_reachable now 30 db Hf) as (tl & Htl & _).
  unfold Analytics.getDashboardStats, count, countSince.
  rewrite Htl. unfold Analytics.groupBySource. rewrite Hf.
  eexists. split; [reflexivity |]. simpl. auto.
Qed.

(** C4 (as amended).  On a reachable store the timeline of
    [getDashboardStats], which is [getSignupsOverTime(30)], lists exactly
    the UTC days on which at least one record of the trailing 30 times 24
    hours was created, in strictly ascending order, each with the number of
    those records created on that day; a day without signups has no
    entry. *)
Theorem timeline_lists_exactly_the_days_with_signups :
  forall (tz now : Z) (db : Db),
    fault db = None ->
    exists stats,
      Analytics.getDashboardStats tz now db = inr stats
      /\ Analytics.getSignupsOverTime now 30 db = inr (Analytics.timeline stats)
      /\ StronglySorted Z.lt (map Analytics.tp_date (Analytics.timeline stats))
      /\ (forall p, In p (Analytics.timeline stats) ->
            1 <= Analytics.tp_count p
            /\ Analytics.tp_count p = signupsOn now 30 (Analytics.tp_date p) db)
      /\ (forall d, 1 <= signupsOn now 30 d db ->
            exists p, In p (Analytics.timeline stats) /\ Analytics.tp_date p = d).
Proof.
  intros tz now db Hf.
  destruct (getDashboardStats_reachable tz now db Hf) as (stats & Hs & _ & _ & Ht).
  destruct (getSignupsOverTime_reachable now 30 db Hf) as (tl & Htl & Hprops).
  rewrite Ht in Htl. inversion Htl. subst tl.
  exists stats. auto.
Qed.

Lemma timeline_witness :
  exists stats,
    Analytics.getDashboardStats 0 noonOfDay10 sparseDb = inr stats
    /\ StronglySorted Z.lt (map Analytics.tp_date (Analytics.timeline stats)).
Proof.
  destruct (timeline_lists_exactly_the_days_with_signups 0 noonOfDay10 sparseDb
              eq_refl) as (stats & Hs & _ & Hsorted & _).
  exists stats. split; [exact Hs | exact Hsorted].
Defined.

(** C4, counterexample.  With three signups on day 9 and two on day 10 the
    30-day timeline has two entries, not 30, and the days without signups
    (day 8, say) are missing; for an empty waitlist the timeline is empty. *)
Lemma sparse_timeline_has_no_zero_days :
  (exists stats,
      Analytics.getDashboardStats 0 noonOfDay10 sparseDb = inr stats
      /\ Analytics.timeline stats
         = [Analytics.mkPoint 9 3; Analytics.mkPoint 10 2]
      /\ length (Analytics.timeline stats) <> 30
      /\ ~ In 8%Z (map Analytics.tp_date (Analytics.timeline stats)))
  /\ Analytics.getSignupsOverTime noonOfDay10 30 emptyDb = inr [].
Proof.
  split; [| reflexivity].
  eexists. split; [vm_compute; reflexivity |]. simpl.
  split; [reflexivity |]. split; [discriminate |].
  intros [H | [H | []]]; discriminate H.
Qed.

Lemma sumCounts_referralData (stats : Analytics.DashboardStats) :
  Analytics.sumCounts (Analytics.referralData stats)
  = list_sum (map Analytics.sg_count (Analytics.sources stats)).
Proof.
  unfold Analytics.referralData.
  induction (Analytics.sources stats) as [| g l IH]; simpl; [reflexivity |].
  now rewrite IH.
Qed.

Lemma list_sum_perm (l l' : list nat) :
  Permutation l l' -> list_sum l = list_sum l'.
Proof.
  induction 1; simpl; lia.
Qed.

Lemma list_sum_firstn (n : nat) (l : list nat) :
  list_sum (firstn n l) <= list_sum l.
Proof.
  revert n. induction l as [| x l IH]; intros [| n]; simpl; try lia.
  specialize (IH n). lia.
Qed.

(** The groups before ordering and [take]: their sizes add up to the number
    of records, and there is one group per distinct source. *)
Lemma source_groups_sum (l : list Waitlist) :
  list_sum
    (map Analytics.sg_count
       (map (fun '(s, n) => Analytics.mkGroup s n)
          (Analytics.tally Analytics.sourceEqb (map source l))))
  = length l.
Proof.
  rewrite map_map.
  rewrite (map_ext _ snd) by now intros [s n].
  now rewrite tally_sum, length_map.
Qed.

Lemma source_groups_bound (l : list Waitlist) (srcs : list (option string)) :
  (forall r, In r l -> In (source r) srcs) ->
  length (Analytics.tally Analytics.sourceEqb (map source l)) <= length srcs.
Proof.
  intros Hcover.
  rewrite <- (length_map fst).
  apply NoDup_incl_length; [apply (tally_NoDup _ sourceEqb_spec) |].
  intros s Hs. apply tally_keys_incl in Hs.
  apply in_map_iff in Hs as (r & <- & Hr). now apply Hcover.
Qed.

(** C5 (as amended).  [getDashboardStats] returns at most 10 source groups.
    Their counts, absent sources included, never add up to more than the
    total, and they add up to the total whenever the records carry at most
    10 distinct source values. *)
Theorem bySource_counts_sum_to_total_within_ten_sources :
  forall (tz now : Z) (db : Db),
    fault db = None ->
    exists stats,
      Analytics.getDashboardStats tz now db = inr stats
      /\ length (Analytics.referralData stats) <= 10
      /\ Analytics.sumCounts (Analytics.referralData stats) <= Analytics.total stats
      /\ (forall srcs : list (option string),
            length srcs <= 10 ->
            (forall r, In r (rows db) -> In (source r) srcs) ->
            Analytics.sumCounts (Analytics.referralData stats)
            = Analytics.total stats).
Proof.
  intros tz now db Hf.
  destruct (getDashboardStats_reachable tz now db Hf)
    as (stats & Hs & Htotal & Hsrc & _).
  exists stats. split; [exact Hs |].
  assert (Hten : length (Analytics.referralData stats) <= 10).
  { unfold Analytics.referralData. rewrite length_map.
    unfold Analytics.groupBySource in Hsrc. rewrite Hf in Hsrc.
    assert (Analytics.sources stats
            = firstn 10
                (Analytics.orderBy
                   (fun a b => Analytics.sg_count b <=? Analytics.sg_count a)
                   (map (fun '(s, n) => Analytics.mkGroup s n)
                      (Analytics.tally Analytics.sourceEqb (map source (rows db))))))
      as -> by congruence.
    apply firstn_le_length. }
  split; [exact Hten |].
  rewrite sumCounts_referralData, Htotal.
  rewrite <- (source_groups_sum (rows db)).
  set (groups := map (fun '(s, n) => Analytics.mkGroup s n)
                   (Analytics.tally Analytics.sourceEqb (map source (rows db)))).
  set (ordered := Analytics.orderBy
                    (fun a b => Analytics.sg_count b <=? Analytics.sg_count a) groups).
  assert (Hsources : Analytics.sources stats = firstn 10 ordered).
  { unfold Analytics.groupBySource in Hsrc. rewrite Hf in Hsrc.
    fold groups in Hsrc. fold ordered in Hsrc. congruence. }
  rewrite Hsources.
  assert (Hperm : Permutation ordered groups) by apply orderBy_perm.
  rewrite <- (list_sum_perm _ _ (Permutation_map Analytics.sg_count Hperm)).
  split.
  - rewrite <- firstn_map. apply list_sum_firstn.
  - intros srcs Hlen Hcover.
    rewrite firstn_all2; [reflexivity |].
    rewrite (Permutation_length Hperm). unfold groups. rewrite length_map.
    pose proof (source_groups_bound (rows db) srcs Hcover). lia.
Qed.

Lemma bySource_counts_witness :
  exists stats,
    Analytics.getDashboardStats 0 noonOfDay10 sparseDb = inr stats
    /\ Analytics.sumCounts (Analytics.referralData stats) = Analytics.total stats.
Proof.
  destruct (bySource_counts_sum_to_total_within_ten_sources 0 noonOfDay10
              sparseDb eq_refl) as (stats & Hs & _ & _ & Heq).
  exists stats. split; [exact Hs |].
  apply (Heq [None]); [simpl; lia |].
  intros r Hr. simpl in Hr.
  repeat (destruct Hr as [<- | Hr]; [now left |]). contradiction.
Defined.

(** C5, counterexample.  Eleven records with eleven different sources: the
    total is 11 while the bySource counts add up to 10. *)
Lemma eleven_sources_sum_to_ten :
  exists stats,
    Analytics.getDashboardStats 0 0 elevenSourcesDb = inr stats
    /\ Analytics.total stats = 11
    /\ Analytics.sumCounts (Analytics.referralData stats) = 10.
Proof.
  eexists. split; [vm_compute; reflexivity |]. split; reflexivity.
Qed.

(** ** Admin Access Guard *)

Lemma keyEqb_eq (a b : AdminGuard.Key) : AdminGuard.keyEqb a b = true <-> a = b.
Proof.
  destruct a as [i w], b as [j u]. unfold AdminGuard.keyEqb. simpl.
  rewrite andb_true_iff, String.eqb_eq, Z.eqb_eq.
  split; [intros [-> ->]; reflexivity | intros H; inversion H; auto].
Qed.

Lemma keyEqb_refl (a : AdminGuard.Key) : AdminGuard.keyEqb a a = true.
Proof. now apply keyEqb_eq. Qed.

(** [INCR] raises the counter of its key by one and no other. *)
Lemma GET_INCR (key key' : AdminGuard.Key) (c : AdminGuard.Counters) :
  AdminGuard.GET key (AdminGuard.INCR key' c)
  = (if AdminGuard.keyEqb key' key then 1 else 0) + AdminGuard.GET key c.
Proof.
  induction c as [| [k n] rest IH]; simpl.
  - destruct (AdminGuard.keyEqb key' key); reflexivity.
  - destruct (AdminGuard.keyEqb k key') eqn:Hk; simpl.
    + apply keyEqb_eq in Hk. subst k.
      destruct (AdminGuard.keyEqb key' key); reflexivity.
    + destruct (AdminGuard.keyEqb k key) eqn:Hk'; [| exact IH].
      apply keyEqb_eq in Hk'. subst k.
      destruct (AdminGuard.keyEqb key' key) eqn:Hk2; [| reflexivity].
      apply keyEqb_eq in Hk2. subst key'. rewrite keyEqb_refl in Hk.
      discriminate Hk.
Qed.

(** Nothing of an empty previous window weighs on the current one. *)
Lemma weighted_zero (now windowSize : Z) : AdminGuard.weighted now windowSize 0 = 0.
Proof.
  unfold AdminGuard.weighted, AdminGuard.floor.
  rewrite FloatAxioms.mul_spec.
  replace (FloatOps.Prim2SF (AdminGuard.toDouble (Z.of_nat 0)))
    with (SpecFloat.S754_zero false) by reflexivity.
  destruct (FloatOps.Prim2SF _) as [s | s | | s m e]; reflexivity.
Qed.

(** The two verdicts of the sliding window, and what each does to the
    counters. *)
Lemma slidingWindow_cases (ephemeralCache : bool) (identifier : string) (now : Z)
  (st : AdminGuard.SlidingWindow) :
  (fst (AdminGuard.slidingWindow ephemeralCache AdminGuard.tokens
          AdminGuard.windowMs identifier now st) = false
   /\ AdminGuard.counters
        (snd (AdminGuard.slidingWindow ephemeralCache AdminGuard.tokens
                AdminGuard.windowMs identifier now st))
      = AdminGuard.counters st)
  \/ (fst (AdminGuard.slidingWindow ephemeralCache AdminGuard.tokens
             AdminGuard.windowMs identifier now st) = true
      /\ AdminGuard.counters
           (snd (AdminGuard.slidingWindow ephemeralCache AdminGuard.tokens
                   AdminGuard.windowMs identifier now st))
         = AdminGuard.INCR (identifier, AdminGuard.windowOf now)
             (AdminGuard.counters st)
      /\ AdminGuard.GET (identifier, AdminGuard.windowOf now)
           (AdminGuard.counters st) < AdminGuard.tokens).
Proof.
  unfold AdminGuard.slidingWindow.
  fold (AdminGuard.windowOf now).
  destruct (if ephemeralCache
            then AdminGuard.isBlocked identifier now (AdminGuard.blockedUntil st)
            else (false, AdminGuard.blockedUntil st)) as [blocked cache].
  destruct blocked; [left; split; reflexivity |].
  unfold AdminGuard.script.
  destruct (AdminGuard.tokens <=? _) eqn:Hle.
  - left. split; reflexivity.
  - right. apply Nat.leb_gt in Hle. rewrite GET_INCR, keyEqb_refl in *.
    cbn [fst snd AdminGuard.counters]. split; [| split; [reflexivity | lia]].
    apply Z.leb_le. lia.
Qed.

(** What one call of [login] does, by the verdict of the limiter. *)
Lemma login_cases (ephemeralCache : bool) {A : Type} (authenticate : FormData -> A)
  (now : Z) (h : AdminGuard.Headers) (fd : FormData)
  (st : AdminGuard.SlidingWindow) :
  (fst (AdminGuard.login ephemeralCache authenticate now h fd st)
   = AdminGuard.rateLimited
   /\ AdminGuard.counters
        (snd (AdminGuard.login ephemeralCache authenticate now h fd st))
      = AdminGuard.counters st)
  \/ (fst (AdminGuard.login ephemeralCache authenticate now h fd st)
      = AdminGuard.Authentication (authenticate fd)
      /\ AdminGuard.counters
           (snd (AdminGuard.login ephemeralCache authenticate now h fd st))
         = AdminGuard.INCR (AdminGuard.clientIp h, AdminGuard.windowOf now)
             (AdminGuard.counters st)
      /\ AdminGuard.GET (AdminGuard.clientIp h, AdminGuard.windowOf now)
           (AdminGuard.counters st) < AdminGuard.tokens).
Proof.
  unfold AdminGuard.login, AdminGuard.loginWith, AdminGuard.loginLimiter.
  cbn [AdminGuard.limit AdminGuard.LimiterState].
  destruct (slidingWindow_cases ephemeralCache (AdminGuard.clientIp h) now st)
    as [[Hv Hc] | (Hv & Hc & Hlt)];
    destruct (AdminGuard.slidingWindow ephemeralCache AdminGuard.tokens
                AdminGuard.windowMs (AdminGuard.clientIp h) now st)
      as [success st'];
    cbn [fst snd] in *; subst success; cbn [negb fst snd]; auto.
Qed.

(** Every login that the limiter let through is in the counter of its
    key. *)
Lemma serve_counts (ephemeralCache : bool) {A : Type} (authenticate : FormData -> A)
  (key : AdminGuard.Key) (reqs : list AdminGuard.Request) :
  forall st out st',
    AdminGuard.serve ephemeralCache authenticate reqs st = (out, st') ->
    AdminGuard.GET key (AdminGuard.counters st')
    = AdminGuard.GET key (AdminGuard.counters st) + AdminGuard.attempts key out.
Proof.
  induction reqs as [| r reqs IH]; intros st out st' H.
  - inversion H. subst. unfold AdminGuard.attempts. simpl. lia.
  - cbn [AdminGuard.serve] in H.
    pose proof (login_cases ephemeralCache authenticate (AdminGuard.at_ r)
                  (AdminGuard.req_headers r) (AdminGuard.req_form r) st) as Hl.
    destruct (AdminGuard.login ephemeralCache authenticate (AdminGuard.at_ r)
                (AdminGuard.req_headers r) (AdminGuard.req_form r) st)
      as [res st1].
    destruct (AdminGuard.serve ephemeralCache authenticate reqs st1)
      as [out1 st2] eqn:Hs.
    inversion H. subst out st'. clear H.
    rewrite (IH st1 out1 st2 Hs). cbn [fst snd] in Hl.
    unfold AdminGuard.attempts. cbn [filter fst snd].
    fold (AdminGuard.keyOf r).
    destruct Hl as [[-> ->] | (-> & -> & _)].
    + unfold AdminGuard.rateLimited. rewrite andb_false_r. reflexivity.
    + rewrite GET_INCR, andb_true_r. unfold AdminGuard.keyOf.
      destruct (AdminGuard.keyEqb _ key); simpl; lia.
Qed.





(** C7 (as amended).  Whatever the limiter is, its state after a login call
    is the same for matching and for non-matching credentials, and for any
    authentication: the limiter is consulted once, before the credentials
    are looked at, and is told nothing afterwards.  With the sliding-window
    limiter, a login call that the limiter lets through raises the counter
    of the client's current window by one, whatever the authentication then
    answers; a call that it refuses leaves the counters as they were; and no
    call, successful or not, lowers any counter. *)
Theorem limiter_counts_every_accepted_login_and_never_resets :
  (forall (L : AdminGuard.Ratelimit) (A B : Type)
          (authenticate1 : FormData -> A) (authenticate2 : FormData -> B)
          (now : Z) (h : AdminGuard.Headers) (fd1 fd2 : FormData)
          (st : AdminGuard.LimiterState L),
      snd (AdminGuard.loginWith L authenticate1 now h fd1 st)
      = snd (AdminGuard.loginWith L authenticate2 now h fd2 st))
  /\ (forall (ephemeralCache : bool) (A : Type) (authenticate : FormData -> A)
             (now : Z) (h : AdminGuard.Headers) (fd : FormData)
             (st st' : AdminGuard.SlidingWindow) (res : AdminGuard.LoginResult A),
        AdminGuard.login ephemeralCache authenticate now h fd st = (res, st') ->
        ((res = AdminGuard.rateLimited
          /\ AdminGuard.counters st' = AdminGuard.counters st)
         \/ (res = AdminGuard.Authentication (authenticate fd)
             /\ AdminGuard.GET (AdminGuard.clientIp h, AdminGuard.windowOf now)
                  (AdminGuard.counters st')
                = S (AdminGuard.GET (AdminGuard.clientIp h, AdminGuard.windowOf now)
                       (AdminGuard.counters st))))
        /\ (forall key,
              AdminGuard.GET key (AdminGuard.counters st)
              <= AdminGuard.GET key (AdminGuard.counters st'))).
Proof.
  split.
  - intros L A B authenticate1 authenticate2 now h fd1 fd2 st.
    unfold AdminGuard.loginWith.
    destruct (AdminGuard.limit L (AdminGuard.clientIp h) now st) as [ok st'].
    destruct ok; reflexivity.
  - intros c A authenticate now h fd st st' res Hl.
    destruct (login_cases c authenticate now h fd st)
      as [[Hr Hc] | (Hr & Hc & _)];
      rewrite Hl in Hr, Hc; cbn [fst snd] in Hr, Hc; subst res; rewrite Hc.
    + split; [left; split; reflexivity | intros; lia].
    + split.
      * right. split; [reflexivity |]. now rewrite GET_INCR, keyEqb_refl.
      * intros key. rewrite GET_INCR. lia.
Qed.

Lemma limiter_counts_successful_login_witness :
  AdminGuard.GET ("203.0.113.7", 0%Z)
    (AdminGuard.counters
       (snd (AdminGuard.login true checkCredentials 0 fromClient rightForm
               AdminGuard.initial)))
  = 1.
Proof.
  destruct (proj2 limiter_counts_every_accepted_login_and_never_resets true bool
              checkCredentials 0%Z fromClient rightForm AdminGuard.initial
              (snd (AdminGuard.login true checkCredentials 0 fromClient rightForm
                      AdminGuard.initial))
              (AdminGuard.Authentication true) eq_refl)
    as [[[Hres _] | [_ Hcount]] _].
  - discriminate Hres.
  - exact Hcount.
Defined.

(** C7, counterexample.  A successful login leaves the counter of the client
    at 1, not 0, with the limiter in the state in which a failed attempt
    would have left it; and after five successful logins, none of which
    failed, the next login with the right password is answered
    RateLimited. *)
Lemma successful_logins_are_counted :
  fst (AdminGuard.login true checkCredentials 0 fromClient rightForm
         AdminGuard.initial)
  = AdminGuard.Authentication true
  /\ AdminGuard.GET ("203.0.113.7", 0%Z)
       (AdminGuard.counters
          (snd (AdminGuard.login true checkCredentials 0 fromClient rightForm
                  AdminGuard.initial)))
     = 1
  /\ snd (AdminGuard.login true checkCredentials 0 fromClient rightForm
            AdminGuard.initial)
     = snd (AdminGuard.login true checkCredentials 0 fromClient wrongForm
              AdminGuard.initial)
  /\ map snd (fst (AdminGuard.serve true checkCredentials fiveRight
                     AdminGuard.initial))
     = repeat (AdminGuard.Authentication true) 5
  /\ AdminGuard.failures negb ("203.0.113.7", 0%Z)
       (fst (AdminGuard.serve true checkCredentials fiveRight AdminGuard.initial))
     = 0
  /\ AdminGuard.GET ("203.0.113.7", 0%Z)
       (AdminGuard.counters
          (snd (AdminGuard.serve true checkCredentials fiveRight
                  AdminGuard.initial)))
     = 5
  /\ fst (AdminGuard.login true checkCredentials 5000 fromClient rightForm
            (snd (AdminGuard.serve true checkCredentials fiveRight
                    AdminGuard.initial)))
     = AdminGuard.rateLimited
  /\ fst (AdminGuard.login false checkCredentials 5000 fromClient rightForm
            (snd (AdminGuard.serve false checkCredentials fiveRight
                    AdminGuard.initial)))
     = AdminGuard.rateLimited.
Proof. repeat split. Qed.

(** ** Simultaneous submissions *)

Lemma submitAll_taken (w : SignupWriter) :
  Implemented w ->
  forall (e : string) (reqs : list (Z * FormData)) (db : Db),
    (forall now fd, In (now, fd) reqs -> submits w e fd) ->
    fault db = None ->
    emailTaken e db = true ->
    submitAll w reqs db = (repeat (duplicateError w) (length reqs), db).
Proof.
  intros Hw e reqs db. induction reqs as [| [now fd] rest IH]; simpl;
    intros Hall Hf Ht; [reflexivity |].
  destruct (Hall now fd (or_introl eq_refl)) as (e' & Hg & Hv & Hn & Ha & Hst).
  rewrite (writer_taken w Hw now fd db e' Hg Hv Ha Hst Hf) by now rewrite Hn.
  rewrite IH; [reflexivity | | exact Hf | exact Ht].
  intros now' fd' Hin. apply (Hall now' fd'). now right.
Qed.

(** With a writer whose only query is the insert, simultaneous submissions
    of one normalized email to a reachable store that does not hold it give
    one success and a Duplicate for every other one, and one record. *)
Lemma single_insert_writers_are_race_free (w : SignupWriter) :
  Implemented w ->
  forall (e : string) (now : Z) (fd : FormData) (rest : list (Z * FormData))
         (db : Db),
    (forall now' fd', In (now', fd') ((now, fd) :: rest) -> submits w e fd') ->
    fault db = None ->
    emailTaken e db = false ->
    exists db',
      submitAll w ((now, fd) :: rest) db
      = (confirmation w :: repeat (duplicateError w) (length rest), db')
      /\ recordsFor e db' = 1.
Proof.
  intros Hw e now fd rest db Hall Hf Ht.
  destruct (Hall now fd (or_introl eq_refl)) as (e' & Hg & Hv & Hn & Ha & Hst).
  subst e.
  destruct (writer_fresh w Hw now fd db e' Hg Hv Ha Hst Hf Ht)
    as (row & Hs & He & _).
  exists (mkDb (rows db ++ [row]) (fault db)).
  simpl. rewrite Hs.
  rewrite (submitAll_taken w Hw (normalize e') rest).
  - split; [reflexivity |].
    rewrite (recordsFor_app _ _ _ _ He).
    destruct db as [l f]. simpl. now rewrite (recordsFor_fresh _ _ Ht).
  - intros now' fd' Hin. apply (Hall now' fd'). now right.
  - exact Hf.
  - rewrite emailTaken_app, He, String.eqb_refl. apply orb_true_r.
Qed.

(** Run without interruption, the two queries of a task of the App Router
    skill's action are the action itself. *)
Lemma task_steps_are_submitWaitlist (z : Zod) (now : Z)
  (prev : option SignupState) (fd : FormData) (db : Db) :
  (let (t1, db1) := AppRouterSkill.step z now (AppRouterSkill.Started fd) db in
   AppRouterSkill.step z now t1 db1)
  = (AppRouterSkill.Returned (fst (AppRouterSkill.submitWaitlist z now prev fd db)),
     snd (AppRouterSkill.submitWaitlist z now prev fd db)).
Proof.
  unfold AppRouterSkill.submitWaitlist. simpl.
  destruct (AppRouterSkill.emailSchema z (FormData_get "email" fd)) as [data | msg];
    [| reflexivity].
  destruct (findUnique data db) as [err | [row |]]; try reflexivity.
  simpl. destruct (create now _ db) as [[err | row] db']; reflexivity.
Qed.

(** C9, at the failing input.  Two simultaneous submissions of "a@x.com" to
    the action that looks the email up before inserting it, on an empty
    reachable store, with any schema that accepts the address: when both
    lookups are served before the first insert, one submission succeeds and
    the other is answered with the generic error "Something went wrong", not
    with the Duplicate message, although one record is stored. *)
Theorem lookup_then_insert_race_is_not_reported_as_duplicate :
  forall (z : Zod),
    isEmail z "a@x.com" = true ->
    let fd := [("email", FormString "a@x.com")] in
    exists db',
      AppRouterSkill.runSchedule z [(0, 0%Z); (1, 0%Z); (0, 1%Z); (1, 2%Z)]
        [AppRouterSkill.Started fd; AppRouterSkill.Started fd] emptyDb
      = ([AppRouterSkill.Returned AppRouterSkill.joined;
          AppRouterSkill.Returned AppRouterSkill.wentWrong], db')
      /\ recordsFor "a@x.com" db' = 1
      /\ AppRouterSkill.wentWrong <> AppRouterSkill.already.
Proof.
  intros z Hz fd. eexists. split; [| split].
  - unfold AppRouterSkill.runSchedule, AppRouterSkill.stepAt, AppRouterSkill.step,
      AppRouterSkill.emailSchema, safeParse, fd.
    simpl. repeat (rewrite Hz; simpl). reflexivity.
  - reflexivity.
  - discriminate.
Qed.

Lemma lookup_then_insert_race_witness :
  exists db',
    AppRouterSkill.runSchedule sampleZod [(0, 0%Z); (1, 0%Z); (0, 1%Z); (1, 2%Z)]
      [AppRouterSkill.Started [("email", FormString "a@x.com")];
       AppRouterSkill.Started [("email", FormString "a@x.com")]] emptyDb
    = ([AppRouterSkill.Returned AppRouterSkill.joined;
        AppRouterSkill.Returned AppRouterSkill.wentWrong], db')
    /\ recordsFor "a@x.com" db' = 1
    /\ AppRouterSkill.wentWrong <> AppRouterSkill.already.
Proof.
  exact (lookup_then_insert_race_is_not_reported_as_duplicate sampleZod eq_refl).
Defined.

(** The same two submissions served one after the other are answered
    success and Duplicate. *)
Lemma lookup_then_insert_in_sequence :
  exists db',
    AppRouterSkill.runSchedule sampleZod [(0, 0%Z); (0, 1%Z); (1, 2%Z); (1, 3%Z)]
      [AppRouterSkill.Started [("email", FormString "a@x.com")];
       AppRouterSkill.Started [("email", FormString "a@x.com")]] emptyDb
    = ([AppRouterSkill.Returned AppRouterSkill.joined;
        AppRouterSkill.Returned AppRouterSkill.already], db').
Proof. eexists. reflexivity. Qed.

(** ** Examples of the specification *)

Example emailRegex_accepts_plain_address :
  Regex.test emailRegex "test@example.com" = true.
Proof. reflexivity. Qed.

Example emailRegex_rejects_text_without_at :
  Regex.test emailRegex "not-an-email" = false.
Proof. reflexivity. Qed.

Example normalize_example : normalize "  Test@Example.com " = "test@example.com".
Proof. reflexivity. Qed.

Example not_an_email_is_invalid :
  Vanilla.signup 0 [("email", FormString "not-an-email")] emptyDb
  = (Vanilla.invalidEmail, emptyDb).
Proof. reflexivity. Qed.


(* ===================================================================== *)
(** * Further properties of the code *)
(* ===================================================================== *)

(** ** Sanitizing an email: [email.toLowerCase().trim()] *)

Lemma toLowerChar_idempotent (c : ascii) :
  JsString.toLowerChar (JsString.toLowerChar c) = JsString.toLowerChar c.
Proof. destruct c as [[] [] [] [] [] [] [] []]; reflexivity. Qed.

Lemma toLowerCase_idempotent (s : string) :
  JsString.toLowerCase (JsString.toLowerCase s) = JsString.toLowerCase s.
Proof.
  induction s as [| c s IH]; simpl; [reflexivity |].
  now rewrite toLowerChar_idempotent, IH.
Qed.

Lemma toLowerCase_trimStart (s : string) :
  JsString.toLowerCase (JsString.trimStart s)
  = JsString.trimStart (JsString.toLowerCase s).
Proof.
  induction s as [| c s IH]; simpl; [reflexivity |].
  rewrite toLowerChar_whitespace.
  destruct (JsString.isWhiteSpace c); [exact IH | reflexivity].
Qed.

Lemma toLowerCase_trimEnd (s : string) :
  JsString.toLowerCase (JsString.trimEnd s)
  = JsString.trimEnd (JsString.toLowerCase s).
Proof.
  induction s as [| c s IH]; simpl; [reflexivity |].
  rewrite <- IH, toLowerChar_whitespace.
  destruct (JsString.trimEnd s) as [| a r]; simpl.
  - destruct (JsString.isWhiteSpace c); reflexivity.
  - reflexivity.
Qed.

Lemma trimEnd_idempotent (s : string) :
  JsString.trimEnd (JsString.trimEnd s) = JsString.trimEnd s.
Proof.
  induction s as [| c s IH]; simpl; [reflexivity |].
  destruct (JsString.trimEnd s) as [| a r] eqn:Ht.
  - destruct (JsString.isWhiteSpace c) eqn:Hc; simpl; [reflexivity |].
    now rewrite Hc.
  - change (JsString.trimEnd (String c (String a r)))
      with (match JsString.trimEnd (String a r) with
            | EmptyString =>
                if JsString.isWhiteSpace c then EmptyString
                else String c EmptyString
            | r' => String c r'
            end).
    now rewrite IH.
Qed.

Lemma trimStart_clean (s : string) :
  match JsString.trimStart s with
  | EmptyString => True
  | String c _ => JsString.isWhiteSpace c = false
  end.
Proof.
  induction s as [| c s IH]; simpl; [exact I |].
  destruct (JsString.isWhiteSpace c) eqn:Hc; [exact IH | exact Hc].
Qed.

Lemma trimStart_trimEnd_clean (s : string) :
  match s with
  | EmptyString => True
  | String c _ => JsString.isWhiteSpace c = false
  end ->
  JsString.trimStart (JsString.trimEnd s) = JsString.trimEnd s.
Proof.
  destruct s as [| c r]; simpl; [reflexivity |].
  intros Hc.
  destruct (JsString.trimEnd r); rewrite ?Hc; simpl; rewrite ?Hc; reflexivity.
Qed.

Lemma trim_idempotent (s : string) :
  JsString.trim (JsString.trim s) = JsString.trim s.
Proof.
  unfold JsString.trim.
  rewrite (trimStart_trimEnd_clean _ (trimStart_clean s)).
  apply trimEnd_idempotent.
Qed.

(** X1.  Sanitizing is idempotent: an email that has been lower-cased and
    trimmed is left as it is when it is lower-cased and trimmed again. *)
Theorem normalize_idempotent :
  forall e : string, normalize (normalize e) = normalize e.
Proof.
  intros e. unfold normalize, JsString.trim.
  rewrite toLowerCase_trimEnd, toLowerCase_trimStart, toLowerCase_idempotent.
  exact (trim_idempotent (JsString.toLowerCase e)).
Qed.

Lemma deriv_respects (f : ascii -> ascii) (a : ascii) (r : Regex.regex) :
  respects f r -> Regex.deriv (f a) r = Regex.deriv a r.
Proof.
  induction r; simpl; intros H; try reflexivity.
  - now rewrite H.
  - now rewrite H.
  - destruct H as [H1 H2]. now rewrite (IHr1 H1), (IHr2 H2).
  - destruct H as [H1 H2]. now rewrite (IHr1 H1), (IHr2 H2).
  - now rewrite (IHr H).
Qed.

Lemma respects_deriv (f : ascii -> ascii) (a : ascii) (r : Regex.regex) :
  respects f r -> respects f (Regex.deriv a r).
Proof.
  induction r; simpl; intros H; auto.
  - destruct (Ascii.eqb c a); exact I.
  - destruct (excluded a); exact I.
  - destruct H as [H1 H2]. repeat split; auto.
    destruct (Regex.nullable r1); simpl; auto.
  - destruct H as [H1 H2]. split; auto.
Qed.

Lemma test_respects (f : ascii -> ascii) (s : string) :
  forall r,
    respects f r ->
    Regex.test r
      (string_of_list_ascii (map f (list_ascii_of_string s)))
    = Regex.test r s.
Proof.
  induction s as [| a s IH]; simpl; intros r H; [reflexivity |].
  rewrite (deriv_respects f a r H). apply IH. now apply respects_deriv.
Qed.

Lemma toLowerCase_as_map (s : string) :
  JsString.toLowerCase s
  = string_of_list_ascii (map JsString.toLowerChar (list_ascii_of_string s)).
Proof. induction s as [| c s IH]; simpl; [reflexivity | now rewrite IH]. Qed.

Lemma emailRegex_respects_toLowerChar : respects JsString.toLowerChar emailRegex.
Proof.
  assert (Hat : forall a, Ascii.eqb "@" (JsString.toLowerChar a) = Ascii.eqb "@" a)
    by (intros a; destruct a as [[] [] [] [] [] [] [] []]; reflexivity).
  assert (Hdot : forall a, Ascii.eqb "." (JsString.toLowerChar a) = Ascii.eqb "." a)
    by (intros a; destruct a as [[] [] [] [] [] [] [] []]; reflexivity).
  assert (Hset : forall a,
             JsString.isWhiteSpace (JsString.toLowerChar a)
             || Ascii.eqb (JsString.toLowerChar a) "@"
             = JsString.isWhiteSpace a || Ascii.eqb a "@")
    by (intros a; destruct a as [[] [] [] [] [] [] [] []]; reflexivity).
  simpl. repeat split; assumption.
Qed.

(** X2.  What [signup] stores for an accepted email is the lower-cased
    input (the trim finds nothing to remove), and the stored value passes
    the pattern of [signup] itself. *)
Theorem stored_email_is_lowercase_and_valid :
  forall e : string,
    Regex.test emailRegex e = true ->
    normalize e = JsString.toLowerCase e
    /\ Regex.test emailRegex (normalize e) = true.
Proof.
  intros e Hv. split; [exact (sanitized_is_lowercase e Hv) |].
  unfold normalize. rewrite (sanitized_is_lowercase e Hv), toLowerCase_as_map.
  rewrite (test_respects _ e _ emailRegex_respects_toLowerChar). exact Hv.
Qed.

Lemma stored_email_is_valid_witness :
  normalize "Test@Example.com" = JsString.toLowerCase "Test@Example.com"
  /\ Regex.test emailRegex (normalize "Test@Example.com") = true.
Proof.
  exact (stored_email_is_lowercase_and_valid "Test@Example.com" eq_refl).
Defined.

(** ** What a submission does to the table *)

(** X3.  Whatever the form and whatever the state of the store, a signup
    action either answers with its success message and appends exactly one
    row, whose email is the sanitized input and whose creation time is the
    time of the call, or it answers with something else and leaves the
    table exactly as it was: existing rows are never changed or removed. *)
Theorem signup_writes_once_on_success_and_never_otherwise (w : SignupWriter) :
  Implemented w ->
  forall (now : Z) (fd : FormData) (db : Db),
    (fst (submit w now fd db) = confirmation w
     /\ snd (submit w now fd db) <> db
     /\ exists e row,
         FormData_get "email" fd = Some (FormString e)
         /\ appended db row (snd (submit w now fd db))
         /\ email row = normalize e
         /\ createdAt row = now)
    \/ (fst (submit w now fd db) <> confirmation w
        /\ snd (submit w now fd db) = db).
Proof.
  intros Hw now fd db.
  destruct (writer_outcomes w Hw now fd db)
    as [(e & row & Hg & _ & Hc & Hs) | Hno]; [left | right; exact Hno].
  destruct (create_accepted _ _ _ _ _ Hc) as (Ha & He & Hn & _).
  rewrite Hs. simpl. split; [reflexivity |]. split.
  - exact (appended_changes _ _ _ Ha).
  - exists e, row. auto.
Qed.

Lemma uniqueEmails_appended (db : Db) (row : Waitlist) :
  uniqueEmails db ->
  emailTaken (email row) db = false ->
  uniqueEmails (mkDb (rows db ++ [row]) (fault db)).
Proof.
  unfold uniqueEmails, emailTaken. simpl. intros Hn Ht.
  rewrite map_app. simpl. apply NoDup_app; [exact Hn | repeat constructor; auto |].
  intros x Hx [<- | []].
  apply in_map_iff in Hx as (r & Hr & Hin).
  assert (existsb (fun r0 => String.eqb (email r0) (email row)) (rows db) = true).
  { apply existsb_exists. exists r. split; [exact Hin |].
    rewrite Hr. apply String.eqb_refl. }
  congruence.
Qed.

Lemma submit_keeps_invariants (w : SignupWriter) :
  Implemented w ->
  forall (now : Z) (fd : FormData) (db : Db),
    uniqueEmails db -> normalizedEmails db ->
    uniqueEmails (snd (submit w now fd db))
    /\ normalizedEmails (snd (submit w now fd db)).
Proof.
  intros Hw now fd db Hu Hn.
  destruct (writer_outcomes w Hw now fd db)
    as [(e & row & Hg & _ & Hc & Hs) | [_ Hsame]];
    [| rewrite Hsame; now split].
  destruct (create_accepted _ _ _ _ _ Hc) as (_ & He & _ & _ & Ht & _).
  simpl in He, Ht. rewrite Hs. simpl. split.
  - apply uniqueEmails_appended; [exact Hu | now rewrite He].
  - unfold normalizedEmails. simpl. apply Forall_app. split; [exact Hn |].
    constructor; [| constructor]. rewrite He.
    unfold normalize, JsString.trim.
    rewrite toLowerCase_trimEnd, toLowerCase_trimStart, toLowerCase_idempotent.
    exact (trim_idempotent (JsString.toLowerCase e)).
Qed.

(** X4.  Whatever sequence of submissions is served, on whatever forms, a
    table whose emails are pairwise different and in normal form stays so;
    hence no two stored emails ever differ only in case or in surrounding
    whitespace. *)
Theorem submissions_keep_emails_unique_up_to_case (w : SignupWriter) :
  Implemented w ->
  forall (reqs : list (Z * FormData)) (db : Db),
    uniqueEmails db -> normalizedEmails db ->
    uniqueEmails (snd (submitAll w reqs db))
    /\ normalizedEmails (snd (submitAll w reqs db))
    /\ NoDup (map (fun r => normalize (email r))
                (rows (snd (submitAll w reqs db)))).
Proof.
  intros Hw reqs.
  assert (Hinv : forall db,
             uniqueEmails db -> normalizedEmails db ->
             uniqueEmails (snd (submitAll w reqs db))
             /\ normalizedEmails (snd (submitAll w reqs db))).
  { induction reqs as [| [now fd] rest IH]; simpl; intros db Hu Hn;
      [now split |].
    destruct (submit_keeps_invariants w Hw now fd db Hu Hn) as [Hu1 Hn1].
    destruct (submit w now fd db) as [r db1]. simpl in Hu1, Hn1.
    specialize (IH db1 Hu1 Hn1).
    destruct (submitAll w rest db1) as [rs db2]. exact IH. }
  intros db Hu Hn. destruct (Hinv db Hu Hn) as [Hu' Hn'].
  split; [exact Hu' |]. split; [exact Hn' |].
  unfold uniqueEmails, normalizedEmails in *.
  rewrite (map_ext_in _ email); [exact Hu' |].
  intros r Hr. rewrite Forall_forall in Hn'. now apply Hn'.
Qed.

Lemma submissions_keep_emails_unique_witness :
  NoDup (map (fun r => normalize (email r))
           (rows (snd (submitAll vanillaWriter
                         [(0%Z, [("email", FormString "a@x.com")]);
                          (1%Z, [("email", FormString "A@X.com")]);
                          (2%Z, [("email", FormString "b@x.com")])]
                         emptyDb)))).
Proof.
  apply (submissions_keep_emails_unique_up_to_case vanillaWriter
           implemented_vanilla).
  - constructor.
  - constructor.
Defined.

Lemma signup_writes_once_witness :
  (fst (Vanilla.signup 7 [("email", FormString "a@x.com")] emptyDb)
   = Vanilla.onTheList
   /\ snd (Vanilla.signup 7 [("email", FormString "a@x.com")] emptyDb) <> emptyDb
   /\ exists e row,
       FormData_get "email" [("email", FormString "a@x.com")] = Some (FormString e)
       /\ appended emptyDb row
            (snd (Vanilla.signup 7 [("email", FormString "a@x.com")] emptyDb))
       /\ email row = normalize e
       /\ createdAt row = 7%Z)
  \/ (fst (Vanilla.signup 7 [("email", FormString "a@x.com")] emptyDb)
      <> Vanilla.onTheList
      /\ snd (Vanilla.signup 7 [("email", FormString "a@x.com")] emptyDb) = emptyDb).
Proof.
  exact (signup_writes_once_on_success_and_never_otherwise vanillaWriter
           implemented_vanilla 7%Z [("email", FormString "a@x.com")] emptyDb).
Defined.

(** ** The action of the App Router skill *)

Lemma find_not_taken (e : string) (db : Db) :
  emailTaken e db = false ->
  find (fun r => String.eqb (email r) e) (rows db) = None.
Proof.
  unfold emailTaken. induction (rows db) as [| r l IH]; simpl; [reflexivity |].
  intros Ht. apply orb_false_iff in Ht as [H1 H2]. rewrite H1. now apply IH.
Qed.

(** What the skill's action has done when it answers "Successfully
    joined!". *)
Lemma skill_submit_joined (z : Zod) (now : Z) (prev : option SignupState)
  (fd : FormData) (db db' : Db) :
  AppRouterSkill.submitWaitlist z now prev fd db = (AppRouterSkill.joined, db') ->
  exists e row,
    FormData_get "email" fd = Some (FormString e)
    /\ appended db row db'
    /\ email row = e /\ referrer row = None /\ createdAt row = now.
Proof.
  unfold AppRouterSkill.submitWaitlist, AppRouterSkill.emailSchema, safeParse.
  destruct (FormData_get "email" fd) as [[e |] |]; try (intros H; discriminate H).
  destruct (isEmail z e); [| intros H; discriminate H].
  destruct (findUnique e db) as [err | [found |]]; try (intros H; discriminate H).
  destruct (create now _ db) as [[err | row] db1] eqn:Hc;
    intros H; inversion H; subst db1.
  destruct (create_accepted _ _ _ _ _ Hc) as (Ha & He & Hn & _ & _ & _ & Href).
  simpl in He, Href. inversion Href.
  exists e, row. auto.
Qed.

(** The lookup of the skill's action compares the email as typed: an email
    that is not stored in exactly that spelling is never answered as already
    on the waitlist. *)
Lemma skill_submit_not_found (z : Zod) (now : Z) (prev : option SignupState)
  (fd : FormData) (db : Db) (e : string) :
  FormData_get "email" fd = Some (FormString e) ->
  emailTaken e db = false ->
  fst (AppRouterSkill.submitWaitlist z now prev fd db) <> AppRouterSkill.already.
Proof.
  intros Hg Ht.
  unfold AppRouterSkill.submitWaitlist, AppRouterSkill.emailSchema, safeParse.
  rewrite Hg. destruct (isEmail z e); [| discriminate].
  unfold findUnique. rewrite (find_not_taken e db Ht).
  destruct (fault db); [discriminate |].
  destruct (negb (noNul e)); [discriminate |].
  destruct (create now _ db) as [[err | row] db1]; discriminate.
Qed.

(** X5.  The action of the App Router skill stores the email exactly as it
    was typed, without lower-casing or trimming, and never stores a
    referrer.  After a submission of [e1] that succeeded, a submission of
    another string [e2] that was not stored is never answered as already on
    the waitlist, even when [e2] differs from [e1] only in case; when it
    succeeds too, it adds a second row, with [e2] as typed. *)
Theorem skill_action_stores_email_as_typed :
  forall (z : Zod) (now1 now2 : Z) (prev1 prev2 : option SignupState)
         (fd1 fd2 : FormData) (db db1 : Db) (e1 e2 : string),
    FormData_get "email" fd1 = Some (FormString e1) ->
    FormData_get "email" fd2 = Some (FormString e2) ->
    e1 <> e2 ->
    emailTaken e2 db = false ->
    AppRouterSkill.submitWaitlist z now1 prev1 fd1 db
    = (AppRouterSkill.joined, db1) ->
    (exists row1, appended db row1 db1 /\ email row1 = e1 /\ referrer row1 = None)
    /\ fst (AppRouterSkill.submitWaitlist z now2 prev2 fd2 db1)
       <> AppRouterSkill.already
    /\ forall db2,
        AppRouterSkill.submitWaitlist z now2 prev2 fd2 db1
        = (AppRouterSkill.joined, db2) ->
        exists row2,
          appended db1 row2 db2 /\ email row2 = e2 /\ referrer row2 = None.
Proof.
  intros z now1 now2 prev1 prev2 fd1 fd2 db db1 e1 e2 Hg1 Hg2 Hne Ht2 Hs1.
  destruct (skill_submit_joined z now1 prev1 fd1 db db1 Hs1)
    as (e & row1 & Hg & Ha1 & He1 & Href1 & _).
  assert (Hsame : e = e1) by congruence.
  rewrite Hsame in He1. clear Hsame Hg e.
  split; [exists row1; auto |]. split.
  - apply (skill_submit_not_found z now2 prev2 fd2 db1 e2 Hg2).
    unfold appended in Ha1. subst db1.
    rewrite emailTaken_app, He1. unfold emailTaken in *. simpl.
    rewrite Ht2. simpl. apply String.eqb_neq. exact Hne.
  - intros db2 Hs2.
    destruct (skill_submit_joined z now2 prev2 fd2 db1 db2 Hs2)
      as (e & row2 & Hg & Ha2 & He2 & Href2 & _).
    assert (Hsame : e = e2) by congruence.
    rewrite Hsame in He2.
    exists row2. auto.
Qed.

Lemma skill_action_case_variants_witness :
  exists row1 row2,
    appended emptyDb row1
      (snd (AppRouterSkill.submitWaitlist sampleZod 0 None
              [("email", FormString "A@x.com")] emptyDb))
    /\ appended
         (snd (AppRouterSkill.submitWaitlist sampleZod 0 None
                 [("email", FormString "A@x.com")] emptyDb))
         row2
         (snd (AppRouterSkill.submitWaitlist sampleZod 1 None
                 [("email", FormString "a@x.com")]
                 (snd (AppRouterSkill.submitWaitlist sampleZod 0 None
                         [("email", FormString "A@x.com")] emptyDb))))
    /\ email row1 = "A@x.com" /\ email row2 = "a@x.com".
Proof.
  destruct (skill_action_stores_email_as_typed sampleZod 0%Z 1%Z None None
              [("email", FormString "A@x.com")] [("email", FormString "a@x.com")]
              emptyDb
              (snd (AppRouterSkill.submitWaitlist sampleZod 0 None
                      [("email", FormString "A@x.com")] emptyDb))
              "A@x.com" "a@x.com" eq_refl eq_refl
              ltac:(discriminate) eq_refl eq_refl)
    as ((row1 & Ha1 & He1 & _) & _ & Hsecond).
  destruct (Hsecond _ eq_refl) as (row2 & Ha2 & He2 & _).
  exists row1, row2. auto.
Defined.

Lemma create_keeps_unique (now : Z) (d : CreateInput) (db : Db) :
  uniqueEmails db ->
  uniqueEmails (snd (create now d db))
  /\ fault (snd (create now d db)) = fault db
  /\ exists added, rows (snd (create now d db)) = rows db ++ added.
Proof.
  intros Hu.
  destruct (create now d db) as [[err | row] db'] eqn:Hc; simpl.
  - pose proof (create_error_unchanged _ _ _ _ _ Hc) as ->.
    repeat split; [exact Hu |]. exists []. now rewrite app_nil_r.
  - destruct (create_accepted _ _ _ _ _ Hc) as (Ha & He & _ & _ & Ht & _).
    unfold appended in Ha. subst db'. simpl. repeat split.
    + apply uniqueEmails_appended; [exact Hu | now rewrite He].
    + now exists [row].
Qed.

Lemma step_keeps_unique (z : Zod) (now : Z) (t : AppRouterSkill.Task) (db : Db) :
  uniqueEmails db ->
  uniqueEmails (snd (AppRouterSkill.step z now t db))
  /\ fault (snd (AppRouterSkill.step z now t db)) = fault db
  /\ exists added, rows (snd (AppRouterSkill.step z now t db)) = rows db ++ added.
Proof.
  intros Hu.
  assert (Hsame : uniqueEmails db /\ fault db = fault db
                  /\ exists added, rows db = rows db ++ added).
  { repeat split; [exact Hu |]. exists []. now rewrite app_nil_r. }
  destruct t as [fd | data fd | st]; simpl.
  - destruct (AppRouterSkill.emailSchema z (FormData_get "email" fd));
      [| exact Hsame].
    destruct (findUnique data db) as [err | [row |]]; exact Hsame.
  - pose proof (create_keeps_unique now
                  (mkCreateInput data (orNull (FormData_get "utm_source" fd)) None)
                  db Hu) as H.
    destruct (create now _ db) as [[err | row] db']; exact H.
  - exact Hsame.
Qed.

Lemma stepAt_keeps_unique (z : Zod) (now : Z) (ts : list AppRouterSkill.Task) :
  forall (i : nat) (db : Db),
    uniqueEmails db ->
    uniqueEmails (snd (AppRouterSkill.stepAt z now i ts db))
    /\ fault (snd (AppRouterSkill.stepAt z now i ts db)) = fault db
    /\ exists added,
        rows (snd (AppRouterSkill.stepAt z now i ts db)) = rows db ++ added.
Proof.
  induction ts as [| t rest IH]; intros i db Hu.
  - destruct i; simpl; (repeat split; [exact Hu |]); exists [];
      now rewrite app_nil_r.
  - destruct i as [| j]; simpl.
    + pose proof (step_keeps_unique z now t db Hu) as H.
      destruct (AppRouterSkill.step z now t db) as [t' db']. exact H.
    + pose proof (IH j db Hu) as H.
      destruct (AppRouterSkill.stepAt z now j rest db) as [rest' db']. exact H.
Qed.

(** X6.  However the queries of simultaneous calls of the skill's action are
    interleaved, the emails of the table stay pairwise different and rows
    are only ever appended: the race loses an answer, never the uniqueness
    of the stored emails. *)
Theorem skill_action_schedules_keep_emails_unique :
  forall (z : Zod) (sched : list (nat * Z)) (ts : list AppRouterSkill.Task)
         (db : Db),
    uniqueEmails db ->
    uniqueEmails (snd (AppRouterSkill.runSchedule z sched ts db))
    /\ fault (snd (AppRouterSkill.runSchedule z sched ts db)) = fault db
    /\ exists added,
        rows (snd (AppRouterSkill.runSchedule z sched ts db)) = rows db ++ added.
Proof.
  intros z sched. induction sched as [| [i now] rest IH]; intros ts db Hu.
  - simpl. repeat split; [exact Hu |]. exists []. now rewrite app_nil_r.
  - simpl.
    destruct (stepAt_keeps_unique z now ts i db Hu) as (Hu1 & Hf1 & added1 & Hr1).
    destruct (AppRouterSkill.stepAt z now i ts db) as [ts' db1]. simpl in *.
    destruct (IH ts' db1 Hu1) as (Hu2 & Hf2 & added2 & Hr2).
    split; [exact Hu2 |]. split; [congruence |].
    exists (added1 ++ added2). rewrite Hr2, Hr1. now rewrite app_assoc.
Qed.

Lemma skill_action_schedules_witness :
  uniqueEmails
    (snd (AppRouterSkill.runSchedule sampleZod
            [(0, 0%Z); (1, 0%Z); (0, 1%Z); (1, 2%Z)]
            [AppRouterSkill.Started [("email", FormString "a@x.com")];
             AppRouterSkill.Started [("email", FormString "a@x.com")]] emptyDb)).
Proof.
  apply (skill_action_schedules_keep_emails_unique sampleZod
           [(0, 0%Z); (1, 0%Z); (0, 1%Z); (1, 2%Z)]
           [AppRouterSkill.Started [("email", FormString "a@x.com")];
            AppRouterSkill.Started [("email", FormString "a@x.com")]] emptyDb).
  constructor.
Defined.

(** ** The page of the vanilla application: form, counter and action *)

Lemma formDataOf_fields (st : VanillaClient.FormState) :
  FormData_get "email" (VanillaClient.formDataOf st)
  = Some (FormString (VanillaClient.email st))
  /\ FormData_get "source" (VanillaClient.formDataOf st)
     = option_map FormString (storedAttribution (VanillaClient.source st))
  /\ FormData_get "referrer" (VanillaClient.formDataOf st)
     = option_map FormString (storedAttribution (VanillaClient.referrer st)).
Proof.
  unfold VanillaClient.formDataOf, VanillaClient.appendIfTruthy,
    VanillaClient.append, storedAttribution.
  destruct (VanillaClient.source st) as [x |];
    [destruct (JsString.truthy x) |];
    (destruct (VanillaClient.referrer st) as [y |];
     [destruct (JsString.truthy y) |]);
    simpl; repeat split.
Qed.

Lemma stored_of_page_value (v : option string) (s : option string) :
  nullableString (orNull (option_map FormString (storedAttribution v))) = Some s ->
  s = storedAttribution v.
Proof.
  unfold storedAttribution.
  destruct v as [x |]; simpl; [| intros H; now inversion H].
  destruct (JsString.truthy x) eqn:Hx; simpl; [rewrite Hx; simpl |];
    intros H; now inversion H.
Qed.

Lemma signup_answers (now : Z) (fd : FormData) (db : Db) :
  (exists row,
      Vanilla.signup now fd db
      = (Vanilla.onTheList, mkDb (rows db ++ [row]) (fault db)))
  \/ (exists e, Vanilla.signup now fd db = (Vanilla.Failure e, db)).
Proof.
  destruct (writer_outcomes vanillaWriter implemented_vanilla now fd db)
    as [(e & row & _ & _ & _ & Hs) | [Hne Hsame]]; simpl in *.
  - left. now exists row.
  - right. destruct (Vanilla.signup now fd db) as [[m | e] db'] eqn:Hsig;
      simpl in *; subst db'.
    + exfalso. apply Hne.
      unfold Vanilla.signup in Hsig.
      destruct (FormData_get "email" fd) as [[e |] |]; try discriminate Hsig.
      destruct (JsString.truthy e); simpl in Hsig; [| discriminate Hsig].
      destruct (Regex.test emailRegex e); simpl in Hsig; [| discriminate Hsig].
      destruct (create now _ db) as [[err | row] db'].
      * destruct (Vanilla.isUniqueViolation err); discriminate Hsig.
      * now inversion Hsig.
    + now exists e.
Qed.

(** A signup that succeeded has inserted the sanitized email of the
    form. *)
Lemma signup_success (now : Z) (fd : FormData) (db db' : Db) (m : string) :
  Vanilla.signup now fd db = (Vanilla.Success m, db') ->
  m = "You're on the list!"
  /\ exists e row,
      FormData_get "email" fd = Some (FormString e)
      /\ create now (insertOf vanillaWriter e fd) db = (inr row, db').
Proof.
  intros H.
  destruct (writer_outcomes vanillaWriter implemented_vanilla now fd db)
    as [(e & row & Hg & _ & Hc & Hs) | [Hne _]]; simpl in *.
  - rewrite Hs in H. inversion H. subst. split; [reflexivity |].
    exists e, row. auto.
  - destruct (signup_answers now fd db) as [[row Hs] | [e Hs]];
      rewrite Hs in *; [now elim Hne | discriminate H].
Qed.

(** X7.  From the page to the table: whenever [handleSubmit] calls
    [onSuccess], the call of the action was answered, the form is in the
    success state with the email field cleared, and the table holds one
    more row, with the sanitized email, the time of the call, and the utm
    source and the referrer of the page, each stored as null when it was
    absent or empty. *)
Theorem handleSubmit_stores_the_page_attribution :
  forall (call : VanillaClient.ActionCall) (now : Z)
         (st st' : VanillaClient.FormState) (db db' : Db),
    VanillaClient.handleSubmit call now st db = (st', db', true) ->
    call = VanillaClient.Answered
    /\ st' = VanillaClient.mkFormState "" VanillaClient.success
               "You're on the list!"
               (VanillaClient.source st) (VanillaClient.referrer st)
    /\ exists row,
        appended db row db'
        /\ email row = normalize (VanillaClient.email st)
        /\ source row = storedAttribution (VanillaClient.source st)
        /\ referrer row = storedAttribution (VanillaClient.referrer st)
        /\ createdAt row = now.
Proof.
  intros call now st st' db db'. unfold VanillaClient.handleSubmit.
  destruct (negb (JsString.truthy (VanillaClient.email st)));
    [intros H; discriminate H |].
  destruct call; try (intros H; discriminate H).
  destruct (Vanilla.signup now (VanillaClient.formDataOf st) db)
    as [[m | err] db1] eqn:Hsign; intros H; inversion H; subst; clear H.
  destruct (signup_success _ _ _ _ _ Hsign) as (-> & e & row & Hg & Hc).
  destruct (formDataOf_fields st) as (Hge & Hs & Hr).
  rewrite Hge in Hg. inversion Hg. subst e. clear Hg.
  destruct (create_accepted _ _ _ _ _ Hc) as (Ha & He & Hn & _ & _ & Hsrc & Href).
  unfold insertOf in He, Hsrc, Href. simpl in He, Hsrc, Href.
  rewrite Hs in Hsrc. rewrite Hr in Href.
  split; [reflexivity |]. split; [reflexivity |].
  exists row. repeat split; auto using stored_of_page_value.
Qed.

Lemma handleSubmit_witness :
  exists row,
    appended emptyDb row
      (snd (fst (VanillaClient.handleSubmit VanillaClient.Answered 5
                   (VanillaClient.mkFormState "Ann@Example.com" VanillaClient.idle
                      "" (Some "twitter") (Some "")) emptyDb)))
    /\ email row = "ann@example.com"
    /\ source row = Some "twitter"
    /\ referrer row = None
    /\ createdAt row = 5%Z.
Proof.
  exact (proj2 (proj2
    (handleSubmit_stores_the_page_attribution VanillaClient.Answered 5%Z
       (VanillaClient.mkFormState "Ann@Example.com" VanillaClient.idle ""
          (Some "twitter") (Some ""))
       _ emptyDb _ eq_refl))).
Defined.

(** X8.  The outcomes of [handleSubmit], for every way the call of the
    action can end.  It changes the table only through the action, by
    exactly one row.  When the call is answered, it ends in the success
    state, with the row stored, the email field cleared and [onSuccess]
    called, or in the error state, with the table and the typed email kept
    and [onSuccess] not called.  When the call rejects, the form stays in
    the loading state with an empty message and the typed email,
    [onSuccess] is not called, and the table is as it was or holds one more
    row.  When the email field is empty nothing happens at all. *)
Theorem handleSubmit_changes_the_store_only_on_success :
  forall (call : VanillaClient.ActionCall) (now : Z)
         (st : VanillaClient.FormState) (db : Db),
    (call = VanillaClient.Answered
     /\ exists m row,
         VanillaClient.handleSubmit call now st db
         = (VanillaClient.mkFormState "" VanillaClient.success m
              (VanillaClient.source st) (VanillaClient.referrer st),
            mkDb (rows db ++ [row]) (fault db), true))
    \/ (call = VanillaClient.Answered
        /\ exists e,
            VanillaClient.email st <> ""
            /\ VanillaClient.handleSubmit call now st db
               = (VanillaClient.mkFormState (VanillaClient.email st)
                    VanillaClient.error e
                    (VanillaClient.source st) (VanillaClient.referrer st),
                  db, false))
    \/ (call <> VanillaClient.Answered
        /\ VanillaClient.email st <> ""
        /\ exists db',
            VanillaClient.handleSubmit call now st db
            = (VanillaClient.mkFormState (VanillaClient.email st)
                 VanillaClient.loading ""
                 (VanillaClient.source st) (VanillaClient.referrer st),
               db', false)
            /\ atMostAppended db db'
            /\ (call = VanillaClient.RequestLost -> db' = db))
    \/ (VanillaClient.email st = ""
        /\ VanillaClient.handleSubmit call now st db = (st, db, false)).
Proof.
  intros call now st db. unfold VanillaClient.handleSubmit.
  destruct (VanillaClient.email st) as [| c r] eqn:He; simpl.
  - right. right. right. now split.
  - rewrite <- He.
    assert (Hemail : VanillaClient.email st <> "") by (rewrite He; discriminate).
    destruct call.
    + destruct (signup_answers now (VanillaClient.formDataOf st) db)
        as [[row Hs] | [e Hs]]; rewrite Hs.
      * left. split; [reflexivity |]. now exists "You're on the list!", row.
      * right. left. split; [reflexivity |]. exists e. now split.
    + right. right. left. split; [discriminate |]. split; [exact Hemail |].
      exists db. split; [reflexivity |]. split; [now left | reflexivity].
    + right. right. left. split; [discriminate |]. split; [exact Hemail |].
      eexists. split; [reflexivity |]. split; [| discriminate].
      destruct (signup_answers now (VanillaClient.formDataOf st) db)
        as [[row Hs] | [e Hs]]; rewrite Hs; simpl.
      * right. now exists row.
      * now left.
Qed.

(** X9.  The counter and the count route together: when the database is
    unreachable the route still answers 200 with count 0, so a refresh
    replaces whatever the counter showed by the text for an empty waitlist;
    the current count is kept only when the request itself fails; with a
    reachable database the refresh shows the number of rows. *)
Theorem counter_refresh_shows_zero_when_store_is_down :
  forall (count : nat) (db : Db),
    (forall err,
        fault db = Some err ->
        VanillaClient.refreshCount count (VanillaClient.fetchCount true db) = 0
        /\ VanillaClient.render
             (VanillaClient.refreshCount count (VanillaClient.fetchCount true db))
           = VanillaClient.BeTheFirst)
    /\ (fault db = None ->
        VanillaClient.refreshCount count (VanillaClient.fetchCount true db)
        = length (rows db))
    /\ VanillaClient.refreshCount count (VanillaClient.fetchCount false db) = count.
Proof.
  intros count db.
  unfold VanillaClient.refreshCount, VanillaClient.fetchCount, CountRoute.GET,
    Prisma.count.
  repeat split.
  - rewrite H. reflexivity.
  - rewrite H. reflexivity.
  - intros ->. reflexivity.
Qed.

Lemma counter_refresh_witness :
  VanillaClient.refreshCount 1234
    (VanillaClient.fetchCount true
       (mkDb [signupAt 0 "a@x.com" None 0] (Some PrismaClientInitializationError)))
  = 0.
Proof.
  exact (proj1 (proj1 (counter_refresh_shows_zero_when_store_is_down 1234
                         (mkDb [signupAt 0 "a@x.com" None 0]
                            (Some PrismaClientInitializationError)))
                  PrismaClientInitializationError eq_refl)).
Defined.

(** When [handleSubmit] calls [onSuccess], the store was reachable and one
    row was appended. *)
Lemma handleSubmit_outcome_on_success (call : VanillaClient.ActionCall) (now : Z)
  (st st' : VanillaClient.FormState) (db db' : Db) :
  VanillaClient.handleSubmit call now st db = (st', db', true) ->
  exists row, appended db row db' /\ fault db = None.
Proof.
  unfold VanillaClient.handleSubmit.
  destruct (negb (JsString.truthy (VanillaClient.email st)));
    [intros H; discriminate H |].
  destruct call; try (intros H; discriminate H).
  destruct (Vanilla.signup now (VanillaClient.formDataOf st) db)
    as [[m | err] db1] eqn:Hsign; intros H; inversion H; subst; clear H.
  destruct (signup_success _ _ _ _ _ Hsign) as (_ & e & row & _ & Hc).
  destruct (create_accepted _ _ _ _ _ Hc) as (Ha & _ & _ & Hf & _).
  exists row. auto.
Qed.

(** X10.  On the page, the counter is refreshed exactly when [handleSubmit]
    calls [onSuccess].  After such a signup, with the network up for the
    refresh, the counter shows one more than the number of rows before the
    signup, and it says "other" exactly when that number is 1; with the
    network down it keeps the count it had.  When [onSuccess] is not called
    (the answer is an error, the call of the action rejects, or the email
    field is empty) the counter keeps its count. *)
Theorem page_counter_follows_a_successful_signup :
  forall (call : VanillaClient.ActionCall) (now : Z) (p : VanillaClient.Page)
         (db db' : Db) (st' : VanillaClient.FormState),
    (VanillaClient.handleSubmit call now (VanillaClient.form p) db
     = (st', db', true) ->
     VanillaClient.count (fst (VanillaClient.submitOnPage call now true p db))
     = S (length (rows db))
     /\ VanillaClient.render
          (VanillaClient.count
             (fst (VanillaClient.submitOnPage call now true p db)))
        = VanillaClient.JoinOthers (S (length (rows db)))
            (if length (rows db) =? 0 then "other" else "others")
     /\ VanillaClient.count (fst (VanillaClient.submitOnPage call now false p db))
        = VanillaClient.count p)
    /\ (VanillaClient.handleSubmit call now (VanillaClient.form p) db
        = (st', db', false) ->
        forall networkUp,
          VanillaClient.count
            (fst (VanillaClient.submitOnPage call now networkUp p db))
          = VanillaClient.count p).
Proof.
  intros call now p db db' st'. split.
  - intros Hs.
    destruct (handleSubmit_outcome_on_success call now (VanillaClient.form p)
                st' db db' Hs) as (row & Ha & Hf).
    unfold VanillaClient.submitOnPage. rewrite Hs. simpl.
    unfold appended in Ha. subst db'.
    unfold VanillaClient.refreshCount, VanillaClient.fetchCount, CountRoute.GET,
      Prisma.count.
    simpl. rewrite Hf. simpl. rewrite length_app. simpl.
    replace (length (rows db) + 1) with (S (length (rows db))) by lia.
    repeat split.
  - intros Hs networkUp. unfold VanillaClient.submitOnPage. now rewrite Hs.
Qed.

Lemma page_counter_witness :
  VanillaClient.count
    (fst (VanillaClient.submitOnPage VanillaClient.Answered 5 true
            (VanillaClient.mkPage
               (VanillaClient.mkFormState "f@x.com" VanillaClient.idle "" None None)
               5)
            sparseDb))
  = 6.
Proof.
  exact (proj1 (proj1 (page_counter_follows_a_successful_signup
                         VanillaClient.Answered 5%Z
                         (VanillaClient.mkPage
                            (VanillaClient.mkFormState "f@x.com" VanillaClient.idle
                               "" None None) 5)
                         sparseDb _ _) eq_refl)).
Defined.

(** ** The dashboard statistics *)

Lemma getDashboardStats_inr (tz now : Z) (db : Db) (stats : Analytics.DashboardStats) :
  Analytics.getDashboardStats tz now db = inr stats ->
  fault db = None
  /\ Analytics.total stats = length (rows db)
  /\ Analytics.today stats
     = length (filter (fun r => (Analytics.startOfToday tz now <=? createdAt r)%Z)
                 (rows db))
  /\ Analytics.thisWeek stats
     = length (filter (fun r => (now - 7 * 24 * 60 * 60 * 1000 <=? createdAt r)%Z)
                 (rows db))
  /\ Analytics.groupBySource 10 db = inr (Analytics.sources stats)
  /\ Analytics.getSignupsOverTime now 30 db = inr (Analytics.timeline stats).
Proof.
  unfold Analytics.getDashboardStats, count, countSince.
  destruct (fault db) eqn:Hf; [intros H; discriminate H |].
  destruct (Analytics.groupBySource 10 db) as [e | srcs];
    [intros H; discriminate H |].
  destruct (Analytics.getSignupsOverTime now 30 db) as [e | tl];
    [intros H; discriminate H |].
  intros H. inversion H. simpl. repeat split.
Qed.

Lemma filter_length_mono {A : Type} (p q : A -> bool) (l : list A) :
  (forall x, p x = true -> q x = true) ->
  length (filter p l) <= length (filter q l).
Proof.
  intros Hpq. induction l as [| a l IH]; simpl; [lia |].
  destruct (p a) eqn:Hp.
  - rewrite (Hpq a Hp). simpl. lia.
  - destruct (q a); simpl; lia.
Qed.

Lemma startOfToday_within_a_day (tz now : Z) :
  (now - Analytics.msPerDay < Analytics.startOfToday tz now <= now)%Z.
Proof.
  unfold Analytics.startOfToday, Analytics.msPerDay.
  change (24 * 60 * 60 * 1000)%Z with 86400000%Z.
  pose proof (Z.div_mod (now + tz) 86400000 ltac:(lia)) as Hd.
  pose proof (Z.mod_pos_bound (now + tz) 86400000 ltac:(lia)) as Hm.
  lia.
Qed.

(** X11.  The three counters of the dashboard are consistent for every time
    zone, time and table: today's signups are among this week's, and this
    week's are among the total. *)
Theorem dashboard_today_within_week_within_total :
  forall (tz now : Z) (db : Db) (stats : Analytics.DashboardStats),
    Analytics.getDashboardStats tz now db = inr stats ->
    Analytics.today stats <= Analytics.thisWeek stats
    /\ Analytics.thisWeek stats <= Analytics.total stats.
Proof.
  intros tz now db stats H.
  destruct (getDashboardStats_inr tz now db stats H)
    as (_ & Htot & Htoday & Hweek & _).
  rewrite Htot, Htoday, Hweek. split.
  - apply filter_length_mono. intros r Hr.
    apply Z.leb_le in Hr. apply Z.leb_le.
    pose proof (startOfToday_within_a_day tz now) as Hs.
    unfold Analytics.msPerDay in Hs. lia.
  - apply List.filter_length_le.
Qed.

Lemma dashboard_counters_witness :
  exists stats,
    Analytics.getDashboardStats 0 noonOfDay10 sparseDb = inr stats
    /\ Analytics.today stats <= Analytics.thisWeek stats
    /\ Analytics.thisWeek stats <= Analytics.total stats.
Proof.
  destruct (Analytics.getDashboardStats 0 noonOfDay10 sparseDb) as [e | stats] eqn:H;
    [vm_compute in H; discriminate H |].
  exists stats. split; [reflexivity |].
  exact (dashboard_today_within_week_within_total 0%Z noonOfDay10 sparseDb stats H).
Defined.

Lemma StronglySorted_app_inv {A : Type} (R : A -> A -> Prop) (l1 l2 : list A) :
  StronglySorted R (l1 ++ l2) ->
  StronglySorted R l1
  /\ forall x y, In x l1 -> In y l2 -> R x y.
Proof.
  induction l1 as [| a l1 IH]; simpl; intros H.
  - split; [constructor | intros x y []].
  - apply StronglySorted_inv in H as [Hs Ha].
    destruct (IH Hs) as [Hs1 Hcross].
    apply Forall_app in Ha as [Ha1 Ha2]. split.
    + now constructor.
    + intros x y [<- | Hx] Hy.
      * rewrite Forall_forall in Ha2. now apply Ha2.
      * now apply Hcross.
Qed.

Lemma StronglySorted_weaken {A : Type} (R S : A -> A -> Prop) (l : list A) :
  (forall a b, R a b -> S a b) -> StronglySorted R l -> StronglySorted S l.
Proof.
  intros HRS. induction 1 as [| a l Hl IH Ha]; constructor; auto.
  eapply Forall_impl; [| exact Ha]. auto.
Qed.

Lemma StronglySorted_firstn {A : Type} (R : A -> A -> Prop) (n : nat) (l : list A) :
  StronglySorted R l -> StronglySorted R (firstn n l).
Proof.
  intros H. rewrite <- (firstn_skipn n l) in H.
  exact (proj1 (StronglySorted_app_inv R _ _ H)).
Qed.

Lemma NoDup_firstn_of {A : Type} (n : nat) (l : list A) :
  NoDup l -> NoDup (firstn n l).
Proof.
  intros H. rewrite <- (firstn_skipn n l) in H.
  exact (NoDup_app_remove_r _ _ H).
Qed.

Lemma In_firstn {A : Type} (n : nat) (l : list A) (x : A) :
  In x (firstn n l) -> In x l.
Proof.
  intros H. rewrite <- (firstn_skipn n l). apply in_or_app. now left.
Qed.

(** X12.  The source groups of the dashboard come largest first, no source
    appears twice (the absent source is one group), and the count of every
    group shown is exactly the number of rows with that source, at
    least 1. *)
Theorem dashboard_sources_are_ranked_distinct_and_exact :
  forall (tz now : Z) (db : Db) (stats : Analytics.DashboardStats),
    Analytics.getDashboardStats tz now db = inr stats ->
    StronglySorted (fun a b => Analytics.sg_count b <= Analytics.sg_count a)
      (Analytics.sources stats)
    /\ NoDup (map Analytics.sg_source (Analytics.sources stats))
    /\ forall g,
        In g (Analytics.sources stats) ->
        1 <= Analytics.sg_count g
        /\ Analytics.sg_count g
           = length (filter (fun r => Analytics.sourceEqb (source r)
                                        (Analytics.sg_source g))
                       (rows db)).
Proof.
  intros tz now db stats H.
  destruct (getDashboardStats_inr tz now db stats H) as (Hf & _ & _ & _ & Hsrc & _).
  unfold Analytics.groupBySource in Hsrc. rewrite Hf in Hsrc.
  set (tl := Analytics.tally Analytics.sourceEqb (map source (rows db))) in *.
  set (groups := map (fun '(s, n) => Analytics.mkGroup s n) tl) in *.
  set (leb := fun a b => Analytics.sg_count b <=? Analytics.sg_count a) in *.
  assert (Hsources : Analytics.sources stats
                     = firstn 10 (Analytics.orderBy leb groups)) by congruence.
  rewrite Hsources. clear Hsrc Hsources.
  assert (Hperm : Permutation (Analytics.orderBy leb groups) groups)
    by apply orderBy_perm.
  assert (Hkeys : map Analytics.sg_source groups = map fst tl).
  { unfold groups. rewrite map_map. apply map_ext. now intros [s n]. }
  split; [| split].
  - apply StronglySorted_firstn.
    apply (StronglySorted_weaken (fun a b => leb a b = true)).
    + intros a b Hab. unfold leb in Hab. now apply Nat.leb_le in Hab.
    + apply orderBy_sorted.
      * intros a b. unfold leb. rewrite !Nat.leb_le. lia.
      * intros a b c. unfold leb. rewrite !Nat.leb_le. lia.
  - rewrite <- firstn_map. apply NoDup_firstn_of.
    apply (Permutation_NoDup
             (Permutation_sym (Permutation_map Analytics.sg_source Hperm))).
    rewrite Hkeys. apply (tally_NoDup _ sourceEqb_spec).
  - intros g Hg. apply In_firstn in Hg.
    apply (Permutation_in _ Hperm) in Hg.
    unfold groups in Hg. apply in_map_iff in Hg as ([s n] & <- & Hin). simpl.
    split.
    + pose proof (tally_positive Analytics.sourceEqb (map source (rows db))) as Hp.
      rewrite Forall_forall in Hp. exact (Hp _ Hin).
    + rewrite <- (weight_of_entry _ sourceEqb_spec s n tl
                    (tally_NoDup _ sourceEqb_spec _) Hin).
      unfold tl. rewrite (tally_weight _ sourceEqb_spec).
      now rewrite filter_map_length.
Qed.

Lemma dashboard_sources_witness :
  exists stats,
    Analytics.getDashboardStats 0 0 elevenSourcesDb = inr stats
    /\ NoDup (map Analytics.sg_source (Analytics.sources stats)).
Proof.
  destruct (Analytics.getDashboardStats 0 0 elevenSourcesDb) as [e | stats] eqn:H;
    [vm_compute in H; discriminate H |].
  exists stats. split; [reflexivity |].
  exact (proj1 (proj2 (dashboard_sources_are_ranked_distinct_and_exact
                         0%Z 0%Z elevenSourcesDb stats H))).
Defined.

Lemma getSignupsOverTime_sum (now days : Z) (db : Db) (tl : list Analytics.TimelinePoint) :
  Analytics.getSignupsOverTime now days db = inr tl ->
  list_sum (map Analytics.tp_count tl)
  = length (filter (fun r => (now - days * Analytics.msPerDay <=? createdAt r)%Z)
              (rows db)).
Proof.
  unfold Analytics.getSignupsOverTime, Analytics.findManySince.
  destruct (fault db); [intros H; discriminate H |].
  intros H. inversion H. clear H.
  rewrite map_map. rewrite (map_ext _ snd) by now intros [d n].
  rewrite tally_sum, !length_map.
  apply Permutation_length, orderBy_perm.
Qed.

Lemma ascending_in_range (l : list Z) :
  StronglySorted Z.lt l ->
  forall a b : Z,
    Forall (fun x => (a <= x <= b)%Z) l ->
    length l <= Z.to_nat (b - a + 1).
Proof.
  induction 1 as [| h t Ht IH Hh]; simpl; intros a b Hr; [lia |].
  inversion Hr as [| ? ? Hhr Htr]; subst.
  assert (Forall (fun x => (h + 1 <= x <= b)%Z) t) as Ht'.
  { rewrite Forall_forall in *. intros x Hx.
    specialize (Hh x Hx). specialize (Htr x Hx). lia. }
  specialize (IH (h + 1)%Z b Ht'). lia.
Qed.

Lemma isoDate_days_before (now days : Z) :
  Analytics.isoDate (now - days * Analytics.msPerDay)
  = (Analytics.isoDate now - days)%Z.
Proof.
  unfold Analytics.isoDate.
  replace (now - days * Analytics.msPerDay)%Z
    with (now + (- days) * Analytics.msPerDay)%Z by lia.
  rewrite Z_div_plus by (unfold Analytics.msPerDay; lia). lia.
Qed.

(** X13.  The counts of the timeline add up to the number of records of the
    trailing 30 times 24 hours, and when no record is dated after [now] the
    timeline has at most 31 entries: the window reaches back into a 31st
    calendar day. *)
Theorem timeline_counts_the_window_and_has_at_most_31_days :
  forall (tz now : Z) (db : Db) (stats : Analytics.DashboardStats),
    Analytics.getDashboardStats tz now db = inr stats ->
    list_sum (map Analytics.tp_count (Analytics.timeline stats))
    = length (filter (fun r => (now - 30 * Analytics.msPerDay <=? createdAt r)%Z)
                (rows db))
    /\ ((forall r, In r (rows db) -> (createdAt r <= now)%Z) ->
        length (Analytics.timeline stats) <= 31).
Proof.
  intros tz now db stats H.
  destruct (getDashboardStats_inr tz now db stats H) as (Hf & _ & _ & _ & _ & Htl).
  split; [exact (getSignupsOverTime_sum now 30 db _ Htl) |].
  intros Hpast.
  destruct (getSignupsOverTime_reachable now 30 db Hf) as (tl & Htl' & Hasc & Hcount & _).
  rewrite Htl in Htl'. inversion Htl'. subst tl. clear Htl'.
  rewrite <- (length_map Analytics.tp_date).
  pose proof (ascending_in_range _ Hasc (Analytics.isoDate now - 30)
                (Analytics.isoDate now)) as Hlen.
  replace (Z.to_nat (Analytics.isoDate now - (Analytics.isoDate now - 30) + 1))
    with 31 in Hlen by lia.
  apply Hlen. apply Forall_forall. intros d Hd.
  apply in_map_iff in Hd as (p & <- & Hp).
  destruct (Hcount p Hp) as [Hpos Heq]. rewrite Heq in Hpos.
  unfold signupsOn in Hpos.
  destruct (filter _ (rows db)) as [| r l] eqn:Hfl; [simpl in Hpos; lia |].
  assert (Hr : In r (filter
                      (fun r => (now - 30 * Analytics.msPerDay <=? createdAt r)%Z
                                && (Analytics.isoDate (createdAt r)
                                    =? Analytics.tp_date p)%Z)
                      (rows db))) by (rewrite Hfl; now left).
  apply filter_In in Hr as [Hin Hc].
  apply andb_true_iff in Hc as [Hw Hday].
  apply Z.leb_le in Hw. apply Z.eqb_eq in Hday. rewrite <- Hday.
  specialize (Hpast r Hin).
  rewrite <- (isoDate_days_before now 30).
  split; now apply isoDate_monotone.
Qed.

Lemma timeline_counts_witness :
  exists stats,
    Analytics.getDashboardStats 0 noonOfDay10 sparseDb = inr stats
    /\ list_sum (map Analytics.tp_count (Analytics.timeline stats)) = 5
    /\ length (Analytics.timeline stats) <= 31.
Proof.
  destruct (Analytics.getDashboardStats 0 noonOfDay10 sparseDb) as [e | stats] eqn:H;
    [vm_compute in H; discriminate H |].
  exists stats. split; [reflexivity |].
  destruct (timeline_counts_the_window_and_has_at_most_31_days
              0%Z noonOfDay10 sparseDb stats H) as [Hsum Hlen].
  split; [rewrite Hsum; reflexivity |].
  apply Hlen. intros r Hr. simpl in Hr.
  repeat (destruct Hr as [<- | Hr]; [vm_compute; discriminate |]).
  contradiction.
Defined.

(** ** Listings of recent signups *)


Lemma StronglySorted_skipn {A : Type} (R : A -> A -> Prop) (n : nat) (l : list A) :
  StronglySorted R l -> StronglySorted R (skipn n l).
Proof.
  revert l. induction n as [| n IH]; intros l H; [exact H |].
  destruct l as [| a l]; [constructor |].
  apply StronglySorted_inv in H as [H _]. simpl. now apply IH.
Qed.

Lemma In_skipn {A : Type} (n : nat) (l : list A) (x : A) :
  In x (skipn n l) -> In x l.
Proof.
  intros H. rewrite <- (firstn_skipn n l). apply in_or_app. now right.
Qed.

(** [takeRows] on rows sorted newest first. *)
Lemma takeRows_spec {A : Type} (key : A -> Z) (take : Z) (sorted : list A) :
  StronglySorted (fun a b => (key b <= key a)%Z) sorted ->
  length (Recent.takeRows take sorted) = min (Z.to_nat (Z.abs take)) (length sorted)
  /\ StronglySorted (fun a b => (key b <= key a)%Z) (Recent.takeRows take sorted)
  /\ (forall x, In x (Recent.takeRows take sorted) -> In x sorted)
  /\ (forall x y,
        In x (Recent.takeRows take sorted) ->
        In y sorted -> ~ In y (Recent.takeRows take sorted) ->
        if (0 <=? take)%Z then (key y <= key x)%Z else (key x <= key y)%Z).
Proof.
  intros Hsorted. unfold Recent.takeRows.
  destruct (0 <=? take)%Z eqn:Hsign.
  - apply Z.leb_le in Hsign. rewrite Z.abs_eq by exact Hsign.
    split; [| split; [| split]].
    + apply length_firstn.
    + now apply StronglySorted_firstn.
    + intros x. apply In_firstn.
    + intros x y Hx Hy Hny.
      rewrite <- (firstn_skipn (Z.to_nat take) sorted) in Hsorted, Hy.
      apply StronglySorted_app_inv in Hsorted as [_ Hcross].
      apply (Hcross x y Hx).
      apply in_app_or in Hy as [Hy | Hy]; [contradiction | exact Hy].
  - apply Z.leb_gt in Hsign. rewrite Z.abs_neq by lia.
    set (n := length sorted - Z.to_nat (- take)).
    split; [| split; [| split]].
    + rewrite length_skipn. unfold n. lia.
    + now apply StronglySorted_skipn.
    + intros x. apply In_skipn.
    + intros x y Hx Hy Hny.
      rewrite <- (firstn_skipn n sorted) in Hsorted, Hy.
      apply StronglySorted_app_inv in Hsorted as [_ Hcross].
      apply (Hcross y x); [| exact Hx].
      apply in_app_or in Hy as [Hy | Hy]; [exact Hy | contradiction].
Qed.

(** X14.  When [getRecentSignups(limit)] resolves, [limit] was an integer
    or was left out (then it is 50).  For a limit that is not negative the
    result is the [limit] newest rows of the table, or all of them when
    there are fewer, and every row left out is no newer than any row
    returned; for a negative limit it is the [-limit] oldest rows, and every
    row left out is no older than any row returned.  Either way the result
    is ordered newest first. *)
Theorem getRecentSignups_reads_from_either_end :
  forall (limit : option Recent.JsNumber) (t : Recent.SignupTable)
         (out : list Recent.Signup),
    Recent.getRecentSignups limit t = inr out ->
    exists take : Z,
      (limit = Some (Recent.Integer take) \/ (limit = None /\ take = 50%Z))
      /\ length out = min (Z.to_nat (Z.abs take)) (length (Recent.signups t))
      /\ StronglySorted
           (fun a b => (Recent.s_createdAt b <= Recent.s_createdAt a)%Z) out
      /\ (forall x, In x out -> In x (Recent.signups t))
      /\ (forall x y,
            In x out -> In y (Recent.signups t) -> ~ In y out ->
            if (0 <=? take)%Z
            then (Recent.s_createdAt y <= Recent.s_createdAt x)%Z
            else (Recent.s_createdAt x <= Recent.s_createdAt y)%Z).
Proof.
  intros limit t out. unfold Recent.getRecentSignups.
  set (leb := fun a b => (Recent.s_createdAt b <=? Recent.s_createdAt a)%Z).
  assert (Hperm : Permutation (Analytics.orderBy leb (Recent.signups t))
                    (Recent.signups t)) by apply orderBy_perm.
  assert (Hsorted : StronglySorted
                      (fun a b => (Recent.s_createdAt b <= Recent.s_createdAt a)%Z)
                      (Analytics.orderBy leb (Recent.signups t))).
  { apply (StronglySorted_weaken (fun a b => leb a b = true)).
    - intros a b Hab. unfold leb in Hab. now apply Z.leb_le in Hab.
    - apply orderBy_sorted.
      + intros a b. unfold leb. rewrite !Z.leb_le. lia.
      + intros a b c. unfold leb. rewrite !Z.leb_le. lia. }
  assert (Hspec : forall take,
             inr (Recent.takeRows take (Analytics.orderBy leb (Recent.signups t)))
             = @inr PrismaError _ out ->
             length out = min (Z.to_nat (Z.abs take)) (length (Recent.signups t))
             /\ StronglySorted
                  (fun a b => (Recent.s_createdAt b <= Recent.s_createdAt a)%Z) out
             /\ (forall x, In x out -> In x (Recent.signups t))
             /\ (forall x y,
                   In x out -> In y (Recent.signups t) -> ~ In y out ->
                   if (0 <=? take)%Z
                   then (Recent.s_createdAt y <= Recent.s_createdAt x)%Z
                   else (Recent.s_createdAt x <= Recent.s_createdAt y)%Z)).
  { intros take H. inversion H as [Hout]. clear H.
    destruct (takeRows_spec Recent.s_createdAt take _ Hsorted)
      as (Hlen & Hs & Hin & Hcross).
    split; [now rewrite Hlen, (Permutation_length Hperm) |].
    split; [exact Hs |]. split.
    - intros x Hx. exact (Permutation_in _ Hperm (Hin x Hx)).
    - intros x y Hx Hy Hny. apply (Hcross x y Hx); [| exact Hny].
      exact (Permutation_in _ (Permutation_sym Hperm) Hy). }
  destruct limit as [[take |] |]; try (intros H; discriminate H);
    (destruct (Recent.table_fault t); [intros H; discriminate H |]);
    intros H; [exists take | exists 50%Z];
    (split; [auto | exact (Hspec _ H)]).
Qed.

Lemma getRecentSignups_witness :
  Recent.getRecentSignups (Some (Recent.Integer (-1)))
    (Recent.mkSignupTable
       [Recent.mkSignup 0 "a@x.com" None None "PENDING" 10;
        Recent.mkSignup 1 "b@x.com" (Some "Bea") (Some "twitter") "APPROVED" 20]
       None)
  = inr [Recent.mkSignup 0 "a@x.com" None None "PENDING" 10]
  /\ exists take : Z,
      (Some (Recent.Integer (-1)) = Some (Recent.Integer take)
       \/ (Some (Recent.Integer (-1)) = None /\ take = 50%Z))
      /\ length [Recent.mkSignup 0 "a@x.com" None None "PENDING" 10]
         = min (Z.to_nat (Z.abs take)) 2.
Proof.
  split; [reflexivity |].
  destruct (getRecentSignups_reads_from_either_end
              (Some (Recent.Integer (-1)))
              (Recent.mkSignupTable
                 [Recent.mkSignup 0 "a@x.com" None None "PENDING" 10;
                  Recent.mkSignup 1 "b@x.com" (Some "Bea") (Some "twitter")
                    "APPROVED" 20] None)
              [Recent.mkSignup 0 "a@x.com" None None "PENDING" 10] eq_refl)
    as (take & Htake & Hlen & _).
  exists take. split; [exact Htake | exact Hlen].
Defined.



(** ** HTTP Basic Auth middleware *)

Lemma split_nonempty (sep : ascii) (s : string) : Web.split sep s <> [].
Proof.
  destruct s as [| c r]; simpl; [discriminate |].
  destruct (Ascii.eqb c sep); [discriminate |].
  destruct (Web.split sep r); discriminate.
Qed.

Lemma split_parts_lack_separator (sep : ascii) (s : string) :
  forall p, In p (Web.split sep s) -> Web.contains sep p = false.
Proof.
  induction s as [| c r IH]; simpl; intros p Hp.
  - destruct Hp as [<- | []]. reflexivity.
  - destruct (Ascii.eqb c sep) eqn:Hc.
    + destruct Hp as [<- | Hp]; [reflexivity | now apply IH].
    + destruct (Web.split sep r) as [| p0 ps] eqn:Hs.
      * destruct Hp as [<- | []]. simpl. now rewrite Hc.
      * destruct Hp as [<- | Hp].
        -- simpl. rewrite Hc. simpl. apply IH. now left.
        -- apply IH. now right.
Qed.

Lemma split_without_separator (sep : ascii) (s : string) :
  Web.contains sep s = false -> Web.split sep s = [s].
Proof.
  induction s as [| c r IH]; simpl; intros H; [reflexivity |].
  apply orb_false_iff in H as [Hc Hr]. rewrite Hc, (IH Hr). reflexivity.
Qed.

Lemma split_at_first_separator (sep : ascii) (a b : string) :
  Web.contains sep a = false ->
  Web.split sep (a ++ String sep b) = a :: Web.split sep b.
Proof.
  induction a as [| c r IH]; simpl; intros H.
  - now rewrite Ascii.eqb_refl.
  - apply orb_false_iff in H as [Hc Hr]. rewrite Hc, (IH Hr). reflexivity.
Qed.

(** [parts.join(sep)] undoes [s.split(sep)]. *)
Lemma join_split (sep : ascii) (s : string) :
  Web.join sep (Web.split sep s) = s.
Proof.
  induction s as [| c r IH]; simpl; [reflexivity |].
  destruct (Ascii.eqb c sep) eqn:Hc.
  - apply Ascii.eqb_eq in Hc. subst c.
    pose proof (split_nonempty sep r) as Hne.
    destruct (Web.split sep r) as [| p ps] eqn:Hs; [now elim Hne |].
    change (Web.join sep (EmptyString :: p :: ps))
      with (String sep (Web.join sep (p :: ps))).
    now rewrite IH.
  - pose proof (split_nonempty sep r) as Hne.
    destruct (Web.split sep r) as [| p ps] eqn:Hs; [now elim Hne |].
    destruct ps as [| q qs]; simpl in *; now rewrite <- IH.
Qed.

Lemma strictEqual_some (a : option string) (b : string) :
  Web.strictEqual a (Some b) = true -> a = Some b.
Proof.
  destruct a as [x |]; simpl; [| discriminate].
  intros H. apply String.eqb_eq in H. now subst.
Qed.

(** X16.  With HTTP Basic Auth nobody gets in when the admin user name is
    not configured, or when the configured user name or password contains a
    colon: the decoded credentials are cut at every colon, so no piece can
    equal such a value. *)
Theorem basic_auth_locks_out_on_colon_or_missing_user :
  forall (env : AdminGuard.Env) (headers : AdminGuard.Headers),
    AdminGuard.ADMIN_USERNAME env = None
    \/ (exists u, AdminGuard.ADMIN_USERNAME env = Some u
                  /\ Web.contains ":" u = true)
    \/ (exists p, AdminGuard.ADMIN_PASSWORD env = Some p
                  /\ Web.contains ":" p = true) ->
    BasicAuth.middleware env headers <> BasicAuth.Next.
Proof.
  intros env headers Hcfg. unfold BasicAuth.middleware.
  destruct (AdminGuard.Headers_get "authorization" headers) as [basicAuth |];
    [| discriminate].
  destruct (JsString.truthy basicAuth); [| discriminate].
  destruct (Web.atob _) as [decoded |]; [| discriminate].
  destruct (Web.strictEqual (nth_error (Web.split ":" decoded) 0)
              (AdminGuard.ADMIN_USERNAME env)) eqn:Hu;
    destruct (Web.strictEqual (nth_error (Web.split ":" decoded) 1)
                (AdminGuard.ADMIN_PASSWORD env)) eqn:Hp;
    simpl; try discriminate.
  exfalso.
  destruct Hcfg as [Hnone | [(u & Hsome & Hcolon) | (p & Hsome & Hcolon)]].
  - rewrite Hnone in Hu.
    pose proof (split_nonempty ":" decoded) as Hne.
    destruct (Web.split ":" decoded); [now elim Hne | discriminate Hu].
  - rewrite Hsome in Hu. apply strictEqual_some in Hu.
    apply nth_error_In in Hu.
    rewrite (split_parts_lack_separator ":" decoded u Hu) in Hcolon.
    discriminate.
  - rewrite Hsome in Hp. apply strictEqual_some in Hp.
    apply nth_error_In in Hp.
    rewrite (split_parts_lack_separator ":" decoded p Hp) in Hcolon.
    discriminate.
Qed.

Lemma basic_auth_lockout_witness :
  BasicAuth.middleware (AdminGuard.mkEnv (Some "admin") (Some "pa:ss"))
    (authorization "Basic" "YWRtaW46cGE6c3M=")
  <> BasicAuth.Next.
Proof.
  apply basic_auth_locks_out_on_colon_or_missing_user.
  right. right. exists "pa:ss". split; reflexivity.
Defined.

Lemma authorization_token (scheme token : string) :
  Web.contains " " scheme = false ->
  Web.contains " " token = false ->
  AdminGuard.Headers_get "authorization" (authorization scheme token)
  = Some (scheme ++ String " " token)%string
  /\ JsString.truthy (scheme ++ String " " token)%string = true
  /\ nth_error (Web.split " " (scheme ++ String " " token)%string) 1 = Some token.
Proof.
  intros Hs Ht. split; [reflexivity |]. split.
  - destruct scheme; reflexivity.
  - rewrite (split_at_first_separator " " scheme token Hs).
    now rewrite (split_without_separator " " token Ht).
Qed.

(** X17.  When the admin password is not configured, HTTP Basic Auth lets
    through every request whose credentials decode to the configured user
    name alone, without a colon: the missing password piece equals the
    missing variable. *)
Theorem basic_auth_without_password_admits_the_bare_user_name :
  forall (env : AdminGuard.Env) (u scheme token : string),
    AdminGuard.ADMIN_USERNAME env = Some u ->
    AdminGuard.ADMIN_PASSWORD env = None ->
    Web.contains ":" u = false ->
    Web.contains " " scheme = false ->
    Web.contains " " token = false ->
    Web.atob token = Some u ->
    BasicAuth.middleware env (authorization scheme token) = BasicAuth.Next.
Proof.
  intros env u scheme token Hu Hp Hcolon Hs Ht Hatob.
  destruct (authorization_token scheme token Hs Ht) as (Hget & Htruthy & Hnth).
  unfold BasicAuth.middleware. rewrite Hget, Htruthy, Hnth. simpl.
  rewrite Hatob, (split_without_separator ":" u Hcolon), Hu, Hp. simpl.
  now rewrite String.eqb_refl.
Qed.

Lemma basic_auth_without_password_witness :
  BasicAuth.middleware (AdminGuard.mkEnv (Some "admin") None)
    (authorization "Basic" "YWRtaW4=")
  = BasicAuth.Next.
Proof.
  apply (basic_auth_without_password_admits_the_bare_user_name
           (AdminGuard.mkEnv (Some "admin") None) "admin" "Basic" "YWRtaW4=");
    reflexivity.
Defined.

(** X18.  With a user name and a password configured, both free of colons,
    HTTP Basic Auth lets a request through exactly when its credentials
    decode to user name, colon, password, optionally followed by a colon
    and anything: pieces after the second are ignored, and so is the scheme
    word before the token. *)
Theorem basic_auth_accepts_exactly_the_configured_pair :
  forall (env : AdminGuard.Env) (u p scheme token decoded : string),
    AdminGuard.ADMIN_USERNAME env = Some u ->
    AdminGuard.ADMIN_PASSWORD env = Some p ->
    Web.contains ":" u = false ->
    Web.contains ":" p = false ->
    Web.contains " " scheme = false ->
    Web.contains " " token = false ->
    Web.atob token = Some decoded ->
    (BasicAuth.middleware env (authorization scheme token) = BasicAuth.Next
     <-> decoded = (u ++ String ":" p)%string
         \/ exists rest, decoded = (u ++ String ":" (p ++ String ":" rest))%string).
Proof.
  intros env u p scheme token decoded Hu Hp Hcu Hcp Hs Ht Hatob.
  destruct (authorization_token scheme token Hs Ht) as (Hget & Htruthy & Hnth).
  unfold BasicAuth.middleware. rewrite Hget, Htruthy, Hnth. simpl.
  rewrite Hatob, Hu, Hp. split.
  - pose proof (join_split ":" decoded) as Hj.
    destruct (Web.split ":" decoded) as [| a [| b rest]]; simpl.
    + discriminate.
    + destruct (String.eqb a u); discriminate.
    + destruct (String.eqb a u) eqn:Ha; [| discriminate].
      destruct (String.eqb b p) eqn:Hb; [| discriminate].
      intros _. apply String.eqb_eq in Ha. apply String.eqb_eq in Hb.
      subst a b decoded.
      destruct rest as [| c rest]; [left; reflexivity |].
      right. exists (Web.join ":" (c :: rest)). reflexivity.
  - intros [-> | [rest ->]].
    + rewrite (split_at_first_separator ":" u p Hcu),
        (split_without_separator ":" p Hcp). simpl.
      now rewrite !String.eqb_refl.
    + rewrite (split_at_first_separator ":" u _ Hcu),
        (split_at_first_separator ":" p rest Hcp). simpl.
      now rewrite !String.eqb_refl.
Qed.

Lemma basic_auth_accepts_witness :
  BasicAuth.middleware sampleEnv (authorization "Basic" "YWRtaW46czNjcmV0")
  = BasicAuth.Next.
Proof.
  apply (proj2 (basic_auth_accepts_exactly_the_configured_pair sampleEnv
                  "admin" "s3cret" "Basic" "YWRtaW46czNjcmV0" "admin:s3cret"
                  eq_refl eq_refl eq_refl eq_refl eq_refl eq_refl eq_refl)).
  left. reflexivity.
Defined.

(** ** Session login, logout and middleware *)

Lemma session_login_cases (env : AdminGuard.Env) (fd : FormData)
  (cookie : SessionAuth.Cookie) :
  (SessionAuth.credentialsMatch env fd = true
   /\ SessionAuth.login env fd cookie
      = (SessionAuth.Redirect "/admin/dashboard",
         Some (AdminGuard.mkSession true (FormData_get "username" fd))))
  \/ (SessionAuth.credentialsMatch env fd = false
      /\ SessionAuth.login env fd cookie
         = (SessionAuth.ReturnError "Invalid credentials", cookie)).
Proof.
  unfold SessionAuth.login, SessionAuth.credentialsMatch.
  destruct (AdminGuard.strictEq (FormData_get "username" fd) _
            && AdminGuard.strictEq (FormData_get "password" fd) _);
    [left | right]; split; reflexivity.
Qed.

(** X19.  What the session middleware answers follows the last action that
    took effect: after a login with the configured credentials every admin
    page is served, after a logout every admin page but the login page
    redirects to the login page, a login with other credentials changes
    nothing (it neither grants access nor ends a session), and the login
    page itself is always served. *)
Theorem session_access_follows_the_last_effective_action :
  forall (env : AdminGuard.Env) (steps : list SessionAuth.Step)
         (cookie : SessionAuth.Cookie) (pathname : string) (fd : FormData),
    (SessionAuth.credentialsMatch env fd = true ->
     SessionAuth.middleware pathname
       (SessionAuth.performAll env (steps ++ [SessionAuth.DoLogin fd]) cookie)
     = SessionAuth.Next)
    /\ (pathname <> "/admin/login" ->
        SessionAuth.middleware pathname
          (SessionAuth.performAll env (steps ++ [SessionAuth.DoLogout]) cookie)
        = SessionAuth.RedirectTo "/admin/login")
    /\ (SessionAuth.credentialsMatch env fd = false ->
        SessionAuth.performAll env (steps ++ [SessionAuth.DoLogin fd]) cookie
        = SessionAuth.performAll env steps cookie)
    /\ SessionAuth.middleware "/admin/login"
         (SessionAuth.performAll env steps cookie)
       = SessionAuth.Next.
Proof.
  intros env steps cookie pathname fd.
  unfold SessionAuth.performAll. rewrite !fold_left_app. simpl.
  set (c := fold_left (fun c st => SessionAuth.perform env st c) steps cookie).
  destruct (session_login_cases env fd c) as [[Hm Hl] | [Hm Hl]];
    rewrite Hl, Hm; simpl.
  - repeat split; try discriminate.
    + intros _. unfold SessionAuth.middleware. simpl.
      destruct (String.eqb pathname "/admin/login"); reflexivity.
    + intros Hp. unfold SessionAuth.middleware. simpl.
      apply String.eqb_neq in Hp. now rewrite Hp.
  - repeat split; try discriminate.
    intros Hp. unfold SessionAuth.middleware. simpl.
    apply String.eqb_neq in Hp. now rewrite Hp.
Qed.

Lemma session_access_witness :
  SessionAuth.middleware "/admin/dashboard"
    (SessionAuth.performAll sampleEnv
       ([SessionAuth.DoLogout; SessionAuth.DoLogin wrongForm]
        ++ [SessionAuth.DoLogin rightForm]) None)
  = SessionAuth.Next
  /\ SessionAuth.middleware "/admin/dashboard"
       (SessionAuth.performAll sampleEnv
          ([SessionAuth.DoLogin rightForm] ++ [SessionAuth.DoLogout]) None)
     = SessionAuth.RedirectTo "/admin/login".
Proof.
  split.
  - exact (proj1 (session_access_follows_the_last_effective_action sampleEnv
                    [SessionAuth.DoLogout; SessionAuth.DoLogin wrongForm] None
                    "/admin/dashboard" rightForm) eq_refl).
  - apply (proj1 (proj2 (session_access_follows_the_last_effective_action
                           sampleEnv [SessionAuth.DoLogin rightForm] None
                           "/admin/dashboard" rightForm))).
    discriminate.
Defined.

Lemma perform_logged_in (env : AdminGuard.Env) (st : SessionAuth.Step)
  (cookie : SessionAuth.Cookie) :
  SessionAuth.loggedIn (SessionAuth.perform env st cookie) = true ->
  SessionAuth.loggedIn cookie = true
  \/ exists fd, st = SessionAuth.DoLogin fd
                /\ SessionAuth.credentialsMatch env fd = true.
Proof.
  destruct st as [fd |]; simpl; [| discriminate].
  destruct (session_login_cases env fd cookie) as [[Hm Hl] | [Hm Hl]];
    rewrite Hl; simpl.
  - intros _. right. now exists fd.
  - intros H. now left.
Qed.

(** X20.  A browser that starts without a session cookie is served an admin
    page other than the login page only after one of its logins used the
    configured user name and password; when either of the two is not
    configured, no login succeeds and no such page is ever served. *)
Theorem session_access_requires_a_successful_login :
  forall (env : AdminGuard.Env) (steps : list SessionAuth.Step)
         (pathname : string),
    pathname <> "/admin/login" ->
    SessionAuth.middleware pathname (SessionAuth.performAll env steps None)
    = SessionAuth.Next ->
    (exists fd u p,
        In (SessionAuth.DoLogin fd) steps
        /\ AdminGuard.ADMIN_USERNAME env = Some u
        /\ AdminGuard.ADMIN_PASSWORD env = Some p
        /\ FormData_get "username" fd = Some (FormString u)
        /\ FormData_get "password" fd = Some (FormString p)).
Proof.
  intros env steps pathname Hp Hnext.
  assert (Hin : SessionAuth.loggedIn (SessionAuth.performAll env steps None) = true).
  { unfold SessionAuth.middleware in Hnext. apply String.eqb_neq in Hp.
    rewrite Hp in Hnext.
    destruct (SessionAuth.loggedIn (SessionAuth.performAll env steps None));
      [reflexivity | discriminate Hnext]. }
  clear Hnext.
  assert (Hgen : forall cookie,
             SessionAuth.loggedIn (SessionAuth.performAll env steps cookie) = true ->
             SessionAuth.loggedIn cookie = true
             \/ exists fd, In (SessionAuth.DoLogin fd) steps
                           /\ SessionAuth.credentialsMatch env fd = true).
  { clear Hin. unfold SessionAuth.performAll.
    induction steps as [| st rest IH]; simpl; intros cookie H; [now left |].
    destruct (IH _ H) as [Hc | (fd & Hfd & Hm)].
    - destruct (perform_logged_in env st cookie Hc) as [Hc' | (fd & -> & Hm)];
        [now left | right].
      exists fd. split; [now left | exact Hm].
    - right. exists fd. split; [now right | exact Hm]. }
  destruct (Hgen None Hin) as [Hc | (fd & Hfd & Hm)]; [discriminate Hc |].
  unfold SessionAuth.credentialsMatch in Hm.
  apply andb_true_iff in Hm as [Hu Hpw].
  unfold AdminGuard.strictEq in Hu, Hpw.
  destruct (FormData_get "username" fd) as [[u |] |] eqn:Hgu; simpl in Hu;
    try discriminate Hu.
  destruct (AdminGuard.ADMIN_USERNAME env) as [u' |]; [| discriminate Hu].
  destruct (FormData_get "password" fd) as [[p |] |] eqn:Hgp; simpl in Hpw;
    try discriminate Hpw.
  destruct (AdminGuard.ADMIN_PASSWORD env) as [p' |]; [| discriminate Hpw].
  apply String.eqb_eq in Hu. apply String.eqb_eq in Hpw. subst u' p'.
  exists fd, u, p. repeat split; auto.
Qed.

Lemma session_access_requires_login_witness :
  exists fd u p,
    In (SessionAuth.DoLogin fd)
      [SessionAuth.DoLogin wrongForm; SessionAuth.DoLogin rightForm]
    /\ AdminGuard.ADMIN_USERNAME sampleEnv = Some u
    /\ AdminGuard.ADMIN_PASSWORD sampleEnv = Some p
    /\ FormData_get "username" fd = Some (FormString u)
    /\ FormData_get "password" fd = Some (FormString p).
Proof.
  apply (session_access_requires_a_successful_login sampleEnv
           [SessionAuth.DoLogin wrongForm; SessionAuth.DoLogin rightForm]
           "/admin/dashboard").
  - discriminate.
  - reflexivity.
Defined.

(** ** The rate limit of the login *)

Lemma filter_none {A : Type} (p : A -> bool) (l : list A) :
  (forall x, In x l -> p x = false) -> filter p l = [].
Proof.
  induction l as [| a l IH]; simpl; intros H; [reflexivity |].
  rewrite (H a (or_introl eq_refl)). apply IH. intros x Hx. apply H. now right.
Qed.

Lemma cacheGet_delete (identifier other : string) (cache : AdminGuard.Cache) :
  AdminGuard.cacheGet other (AdminGuard.cacheDelete identifier cache)
  = if String.eqb identifier other then None
    else AdminGuard.cacheGet other cache.
Proof.
  unfold AdminGuard.cacheDelete.
  induction cache as [| [k reset] rest IH]; simpl.
  - now destruct (String.eqb identifier other).
  - destruct (String.eqb k identifier) eqn:Hk; simpl.
    + apply String.eqb_eq in Hk. subst k. rewrite IH.
      now destruct (String.eqb identifier other).
    + destruct (String.eqb k other) eqn:Ho; [| exact IH].
      apply String.eqb_eq in Ho. subst k.
      rewrite String.eqb_sym in Hk. now rewrite Hk.
Qed.

(** An identifier is blocked only by a call of its own, until the end of
    the window of that call. *)
Lemma slidingWindow_blocks (ephemeralCache : bool) (identifier other : string)
  (now reset : Z) (st : AdminGuard.SlidingWindow) :
  AdminGuard.cacheGet other
    (AdminGuard.blockedUntil
       (snd (AdminGuard.slidingWindow ephemeralCache AdminGuard.tokens
               AdminGuard.windowMs identifier now st)))
  = Some reset ->
  AdminGuard.cacheGet other (AdminGuard.blockedUntil st) = Some reset
  \/ (other = identifier
      /\ reset = ((AdminGuard.windowOf now + 1) * AdminGuard.windowMs)%Z).
Proof.
  unfold AdminGuard.slidingWindow. fold (AdminGuard.windowOf now).
  assert (Hcache :
            forall blocked cache,
              (if ephemeralCache
               then AdminGuard.isBlocked identifier now (AdminGuard.blockedUntil st)
               else (false, AdminGuard.blockedUntil st)) = (blocked, cache) ->
              AdminGuard.cacheGet other cache = Some reset ->
              AdminGuard.cacheGet other (AdminGuard.blockedUntil st) = Some reset).
  { intros blocked cache. destruct ephemeralCache;
      [| intros H; inversion H; auto].
    unfold AdminGuard.isBlocked.
    destruct (AdminGuard.cacheGet identifier (AdminGuard.blockedUntil st))
      as [r0 |]; [| intros H; inversion H; auto].
    destruct (r0 <? now)%Z; intros H; inversion H; subst; auto.
    rewrite cacheGet_delete.
    destruct (String.eqb identifier other); [discriminate | auto]. }
  destruct (if ephemeralCache
            then AdminGuard.isBlocked identifier now (AdminGuard.blockedUntil st)
            else (false, AdminGuard.blockedUntil st)) as [blocked cache].
  specialize (Hcache blocked cache eq_refl).
  destruct blocked; cbn [snd AdminGuard.blockedUntil];
    [intros Hb; left; exact (Hcache Hb) |].
  destruct (AdminGuard.script _ _ _ _ _ _) as [remainingTokens redis].
  cbn [snd AdminGuard.blockedUntil].
  destruct (ephemeralCache && negb (0 <=? remainingTokens)%Z);
    [| intros Hb; left; exact (Hcache Hb)].
  unfold AdminGuard.blockUntil. cbn [AdminGuard.cacheGet fst snd].
  destruct (String.eqb identifier other) eqn:Ho.
  - apply String.eqb_eq in Ho. subst other. intros H. inversion H. now right.
  - rewrite cacheGet_delete, Ho. intros Hb. left. exact (Hcache Hb).
Qed.

Lemma serve_blocks (ephemeralCache : bool) {A : Type} (authenticate : FormData -> A)
  (other : string) (reset : Z) (reqs : list AdminGuard.Request) :
  forall st out st',
    AdminGuard.serve ephemeralCache authenticate reqs st = (out, st') ->
    AdminGuard.cacheGet other (AdminGuard.blockedUntil st') = Some reset ->
    AdminGuard.cacheGet other (AdminGuard.blockedUntil st) = Some reset
    \/ exists r,
        In r reqs
        /\ AdminGuard.clientIp (AdminGuard.req_headers r) = other
        /\ reset = ((AdminGuard.windowOf (AdminGuard.at_ r) + 1)
                    * AdminGuard.windowMs)%Z.
Proof.
  induction reqs as [| r reqs IH]; intros st out st' H Hb.
  - inversion H. subst. now left.
  - cbn [AdminGuard.serve] in H.
    pose proof (slidingWindow_blocks ephemeralCache
                  (AdminGuard.clientIp (AdminGuard.req_headers r)) other
                  (AdminGuard.at_ r) reset st) as Hstep.
    unfold AdminGuard.login, AdminGuard.loginWith, AdminGuard.loginLimiter in H.
    cbn [AdminGuard.limit AdminGuard.LimiterState] in H.
    destruct (AdminGuard.slidingWindow ephemeralCache AdminGuard.tokens
                AdminGuard.windowMs
                (AdminGuard.clientIp (AdminGuard.req_headers r))
                (AdminGuard.at_ r) st) as [success st1].
    cbn [snd] in Hstep.
    assert (Hserve : exists out1,
               AdminGuard.serve ephemeralCache authenticate reqs st1 = (out1, st')).
    { destruct success; cbn [negb] in H;
        destruct (AdminGuard.serve ephemeralCache authenticate reqs st1)
          as [out1 st2]; inversion H; subst; eauto. }
    destruct Hserve as [out1 Hs].
    destruct (IH st1 out1 st' Hs Hb) as [H1 | (r' & Hr' & Hip & Hreset)].
    + destruct (Hstep H1) as [H0 | [Hip Hreset]]; [now left |].
      right. exists r. split; [now left | auto].
    + right. exists r'. split; [now right | auto].
Qed.

Lemma serve_requests (ephemeralCache : bool) {A : Type}
  (authenticate : FormData -> A) (reqs : list AdminGuard.Request) :
  forall st, map fst (fst (AdminGuard.serve ephemeralCache authenticate reqs st))
             = reqs.
Proof.
  induction reqs as [| r reqs IH]; intros st; [reflexivity |].
  cbn [AdminGuard.serve].
  destruct (AdminGuard.login ephemeralCache authenticate (AdminGuard.at_ r)
              (AdminGuard.req_headers r) (AdminGuard.req_form r) st)
    as [res st1].
  specialize (IH st1).
  destruct (AdminGuard.serve ephemeralCache authenticate reqs st1) as [out st2].
  simpl in *. now rewrite IH.
Qed.

Lemma attempts_none {A : Type} (key : AdminGuard.Key)
  (out : list (AdminGuard.Request * AdminGuard.LoginResult A)) :
  (forall r, In r (map fst out) -> AdminGuard.keyOf r <> key) ->
  AdminGuard.attempts key out = 0.
Proof.
  intros H. unfold AdminGuard.attempts. rewrite filter_none; [reflexivity |].
  intros [r res] Hin. cbn [fst snd].
  assert (Hk : AdminGuard.keyEqb (AdminGuard.keyOf r) key = false).
  { destruct (AdminGuard.keyEqb (AdminGuard.keyOf r) key) eqn:Hk; [| reflexivity].
    apply keyEqb_eq in Hk. elim (H r); [| exact Hk].
    apply in_map_iff. now exists (r, res). }
  now rewrite Hk.
Qed.

(** The sliding window lets a call through when both counters that it reads
    are at zero and no block of the identifier is still running. *)
Lemma slidingWindow_lets_through (ephemeralCache : bool) (identifier : string)
  (now : Z) (st : AdminGuard.SlidingWindow) :
  AdminGuard.GET (identifier, AdminGuard.windowOf now) (AdminGuard.counters st) = 0 ->
  AdminGuard.GET (identifier, (AdminGuard.windowOf now - 1)%Z)
    (AdminGuard.counters st) = 0 ->
  (forall reset,
      AdminGuard.cacheGet identifier (AdminGuard.blockedUntil st) = Some reset ->
      (reset < now)%Z) ->
  fst (AdminGuard.slidingWindow ephemeralCache AdminGuard.tokens
         AdminGuard.windowMs identifier now st) = true.
Proof.
  intros Hcur Hprev Hcache.
  unfold AdminGuard.slidingWindow. fold (AdminGuard.windowOf now).
  assert (Hopen : fst (if ephemeralCache
                       then AdminGuard.isBlocked identifier now
                              (AdminGuard.blockedUntil st)
                       else (false, AdminGuard.blockedUntil st)) = false).
  { destruct ephemeralCache; [| reflexivity].
    unfold AdminGuard.isBlocked.
    destruct (AdminGuard.cacheGet identifier (AdminGuard.blockedUntil st))
      as [reset |] eqn:Hg; [| reflexivity].
    pose proof (Hcache reset eq_refl) as Hlt. apply Z.ltb_lt in Hlt.
    now rewrite Hlt. }
  destruct (if ephemeralCache
            then AdminGuard.isBlocked identifier now (AdminGuard.blockedUntil st)
            else (false, AdminGuard.blockedUntil st)) as [blocked cache].
  cbn [fst] in Hopen. subst blocked.
  unfold AdminGuard.script. rewrite Hcur, Hprev, weighted_zero.
  cbn [Nat.add Nat.leb AdminGuard.tokens]. rewrite GET_INCR, keyEqb_refl, Hcur.
  reflexivity.
Qed.

(** X21.  The limit is per client address and per window of the limiter:
    when every earlier request either carried another client address or
    lies before the window that precedes the current one, a login is not
    answered RateLimited, whatever was refused before: it reaches the
    authentication. *)
Theorem login_is_not_limited_by_others_or_by_old_attempts :
  forall (ephemeralCache : bool) (A : Type) (authenticate : FormData -> A)
         (reqs : list AdminGuard.Request)
         (out : list (AdminGuard.Request * AdminGuard.LoginResult A))
         (st : AdminGuard.SlidingWindow) (now : Z)
         (h : AdminGuard.Headers) (fd : FormData),
    AdminGuard.serve ephemeralCache authenticate reqs AdminGuard.initial
    = (out, st) ->
    (forall r, In r reqs ->
               AdminGuard.clientIp (AdminGuard.req_headers r)
               <> AdminGuard.clientIp h
               \/ (AdminGuard.windowOf (AdminGuard.at_ r)
                   < AdminGuard.windowOf now - 1)%Z) ->
    fst (AdminGuard.login ephemeralCache authenticate now h fd st)
    = AdminGuard.Authentication (authenticate fd).
Proof.
  intros c A authenticate reqs out st now h fd Hs Hother.
  assert (Hreqs : map fst out = reqs).
  { pose proof (serve_requests c authenticate reqs AdminGuard.initial) as H.
    now rewrite Hs in H. }
  assert (Hzero : forall w,
             (AdminGuard.windowOf now - 1 <= w)%Z ->
             AdminGuard.GET (AdminGuard.clientIp h, w) (AdminGuard.counters st) = 0).
  { intros w Hw.
    rewrite (serve_counts c authenticate _ reqs _ _ _ Hs). simpl.
    apply attempts_none. rewrite Hreqs. intros r Hr Hk.
    unfold AdminGuard.keyOf in Hk. inversion Hk as [[Hip Hwin]].
    destruct (Hother r Hr) as [Hne | Hold]; [now elim Hne | lia]. }
  assert (Hlet : fst (AdminGuard.slidingWindow c AdminGuard.tokens
                        AdminGuard.windowMs (AdminGuard.clientIp h) now st)
                 = true).
  { apply slidingWindow_lets_through; [apply Hzero; lia | apply Hzero; lia |].
    intros reset Hb.
    destruct (serve_blocks c authenticate _ reset reqs _ _ _ Hs Hb)
      as [H0 | (r & Hr & Hip & ->)]; [discriminate H0 |].
    destruct (Hother r Hr) as [Hne | Hold]; [now elim Hne |].
    pose proof (Z.mul_div_le now AdminGuard.windowMs eq_refl) as Hfloor.
    fold (AdminGuard.windowOf now) in Hfloor.
    unfold AdminGuard.windowMs in *. nia. }
  unfold AdminGuard.login, AdminGuard.loginWith, AdminGuard.loginLimiter.
  cbn [AdminGuard.limit AdminGuard.LimiterState].
  destruct (AdminGuard.slidingWindow c AdminGuard.tokens AdminGuard.windowMs
              (AdminGuard.clientIp h) now st) as [success st'].
  cbn [fst] in Hlet. subst success. reflexivity.
Qed.

Lemma login_is_not_limited_witness :
  fst (AdminGuard.login true checkCredentials 1800000 fromClient rightForm
         (snd (AdminGuard.serve true checkCredentials fiveWrong
                 AdminGuard.initial)))
  = AdminGuard.Authentication (checkCredentials rightForm).
Proof.
  apply (login_is_not_limited_by_others_or_by_old_attempts true bool
           checkCredentials fiveWrong
           (fst (AdminGuard.serve true checkCredentials fiveWrong
                   AdminGuard.initial))
           (snd (AdminGuard.serve true checkCredentials fiveWrong
                   AdminGuard.initial))
           1800000%Z fromClient rightForm);
    [reflexivity |].
  intros r Hr. right. unfold fiveWrong in Hr. simpl in Hr.
  repeat (destruct Hr as [<- | Hr]; [reflexivity |]).
  contradiction.
Defined.

(** ** HTTP Basic Auth: a header without a token *)

(** X22.  An Authorization header without a space has no token: the
    middleware then decodes the text "undefined", which is not base64, and
    throws instead of answering 401. *)
Theorem basic_auth_throws_on_a_header_without_token :
  forall (env : AdminGuard.Env) (basicAuth : string),
    JsString.truthy basicAuth = true ->
    Web.contains " " basicAuth = false ->
    BasicAuth.middleware env [("authorization", basicAuth)] = BasicAuth.Threw.
Proof.
  intros env basicAuth Htruthy Hspace. unfold BasicAuth.middleware. simpl.
  rewrite Htruthy, (split_without_separator " " basicAuth Hspace). reflexivity.
Qed.

Lemma basic_auth_throws_witness :
  BasicAuth.middleware sampleEnv [("authorization", "Basic")] = BasicAuth.Threw.
Proof.
  exact (basic_auth_throws_on_a_header_without_token sampleEnv "Basic"
           eq_refl eq_refl).
Defined.
